(** * Trainer data dashboard (app.py): scoring, shortfall ranking and the row store

    A shallow embedding of [src/app.py].

    - Python [dict]s are association lists in insertion order (the order in
      which [.items()] and [.keys()] iterate); a dict has no repeated key.
    - Python [int]s are [Z].
    - Python [float]s are IEEE 754 binary64 numbers, taken from the Standard
      Library's [SpecFloat] with [prec = 53] and [emax = 1024].  The scoring
      code is written once over the interface [Arith] and read at binary64;
      the second instance, exact rationals, gives the arithmetic the
      specification reasons with.
    - [a / b] on two ints raises [ZeroDivisionError] on a zero divisor and
      [OverflowError] on a quotient beyond the floats, and is otherwise the
      float nearest to the quotient.
    - Exceptions are values of [exn]; fallible code returns a [result].
    - The row store, the Streamlit caches and the HTTP backend are an explicit
      [world] threaded through a state-and-exception monad; what the outside
      does (a statement that fails, the answer of the backend) is read from an
      [environment]. *)

From Stdlib Require Import ZArith QArith String Ascii List Bool Lia Lqa.
From Stdlib Require Import SpecFloat Sorted Permutation.
Import ListNotations.

Local Open Scope string_scope.
Local Open Scope Z_scope.

(** ** Exceptions and results *)

Inductive exn : Type :=
| KeyError (key : string)
| ZeroDivisionError
| OverflowError
| OperationalError (msg : string)
| InterfaceError (msg : string)
| DatabaseError (msg : string)
| RequestException (msg : string).

(** [str(e)] *)
Definition exn_str (e : exn) : string :=
  match e with
  | KeyError key => "'" ++ key ++ "'"
  | ZeroDivisionError => "division by zero"
  | OverflowError => "integer division result too large for a float"
  | OperationalError msg => msg
  | InterfaceError msg => msg
  | DatabaseError msg => msg
  | RequestException msg => msg
  end.

Inductive result (A : Type) : Type :=
| Ok (a : A)
| Raise (e : exn).

Arguments Ok {A} a.
Arguments Raise {A} e.

Definition rbind {A B : Type} (r : result A) (k : A -> result B) : result B :=
  match r with
  | Ok a => k a
  | Raise e => Raise e
  end.

Declare Scope result_scope.
Delimit Scope result_scope with result.
Notation "x <- e ;; k" := (rbind e (fun x => k))
  (at level 61, e at next level, right associativity) : result_scope.

(** ** Dictionaries *)

Fixpoint dict_lookup {V : Type} (d : list (string * V)) (k : string) : option V :=
  match d with
  | [] => None
  | (k', v) :: d' => if String.eqb k' k then Some v else dict_lookup d' k
  end.

(** [d[k]] *)
Definition dict_getitem {V : Type} (d : list (string * V)) (k : string) : result V :=
  match dict_lookup d k with
  | Some v => Ok v
  | None => Raise (KeyError k)
  end.

(** [k in d] *)
Definition dict_contains {V : Type} (d : list (string * V)) (k : string) : bool :=
  match dict_lookup d k with
  | Some _ => true
  | None => false
  end.

(** [d.get(k, default)] *)
Definition dict_get {V : Type} (d : list (string * V)) (k : string) (default : V) : V :=
  match dict_lookup d k with
  | Some v => v
  | None => default
  end.

(** ** Numbers *)

(** The operations the scoring code performs on floats. [truediv a b] is the
    float nearest to the quotient [a / b] of two ints with [b] not zero, and
    [too_large] holds of it when the quotient is beyond the floats, where
    Python raises [OverflowError]; [of_decimal q] is the float a decimal
    literal denotes, [ltb] and [leb] are [<] and [<=]. *)
Class Arith (F : Type) : Type := {
  of_int : Z -> F;
  of_decimal : Q -> F;
  truediv : Z -> Z -> F;
  too_large : F -> bool;
  mul : F -> F -> F;
  add : F -> F -> F;
  ltb : F -> F -> bool;
  leb : F -> F -> bool
}.

(** *** binary64 *)

Definition b64_of_int (z : Z) : spec_float := binary_normalize 53 1024 z 0 false.
Definition b64_div : spec_float -> spec_float -> spec_float := SFdiv 53 1024.
Definition b64_mul : spec_float -> spec_float -> spec_float := SFmul 53 1024.
Definition b64_add : spec_float -> spec_float -> spec_float := SFadd 53 1024.

(** A decimal literal is read as the binary64 number nearest to it, which is
    what the correctly rounded quotient of its numerator and denominator is
    (both are below 2^53, so they convert exactly). *)
Definition b64_of_decimal (q : Q) : spec_float :=
  b64_div (b64_of_int (Qnum q)) (b64_of_int (Zpos (Qden q))).

(** An int of any size as a number with an unrounded mantissa. *)
Definition b64_of_big_int (z : Z) : spec_float :=
  match z with
  | Z0 => S754_zero false
  | Zpos p => S754_finite false p 0
  | Zneg p => S754_finite true p 0
  end.

(** [a / b] on ints is the correctly rounded quotient. When both operands
    are below 2^53 in magnitude they convert exactly and CPython divides the
    two floats; otherwise it rounds the quotient of the ints themselves, once.
    A quotient beyond the largest float comes out as an infinity here, and
    [py_truediv] raises on it. *)
Definition b64_truediv (a b : Z) : spec_float :=
  if (Z.abs a <? 2 ^ 53) && (Z.abs b <? 2 ^ 53)
  then b64_div (b64_of_int a) (b64_of_int b)
  else SFdiv 53 1024 (b64_of_big_int a) (b64_of_big_int b).

Definition b64_is_infinite (x : spec_float) : bool :=
  match x with
  | S754_infinity _ => true
  | _ => false
  end.

#[global] Instance binary64 : Arith spec_float := {
  of_int := b64_of_int;
  of_decimal := b64_of_decimal;
  truediv := b64_truediv;
  too_large := b64_is_infinite;
  mul := b64_mul;
  add := b64_add;
  ltb := SFltb;
  leb := SFleb
}.

(** *** exact rationals *)

Definition Q_ltb (x y : Q) : bool := negb (Qle_bool y x).

#[global] Instance exact : Arith Q := {
  of_int := inject_Z;
  of_decimal := fun q => q;
  truediv := fun a b => (inject_Z a / inject_Z b)%Q;
  too_large := fun _ => false;
  mul := Qmult;
  add := Qplus;
  ltb := Q_ltb;
  leb := Qle_bool
}.

(** ** The scoring engine: [calculate_score] *)

(** The nine categories, in the order every table of the program declares them. *)
Definition categories : list string :=
  [ "QnA"; "운동 가이드라인"; "식단 가이드라인"; "철학/마인드셋"; "부상 관리";
    "피드백"; "식단 예시"; "운동 예시"; "톤/말투" ].

(** [target]: the goal count per category (the Gold level). *)
Definition target : list (string * Z) :=
  [ ("QnA", 60);
    ("운동 가이드라인", 30);
    ("식단 가이드라인", 20);
    ("철학/마인드셋", 15);
    ("부상 관리", 12);
    ("피드백", 10);
    ("식단 예시", 15);
    ("운동 예시", 20);
    ("톤/말투", 8) ].

(** The weights as written, before they are read as floats. *)
Definition weight_literals : list (string * Q) :=
  [ ("QnA", 23 # 100);
    ("운동 가이드라인", 18 # 100);
    ("식단 가이드라인", 13 # 100);
    ("철학/마인드셋", 9 # 100);
    ("부상 관리", 9 # 100);
    ("피드백", 4 # 100);
    ("식단 예시", 4 # 100);
    ("운동 예시", 10 # 100);
    ("톤/말투", 10 # 100) ].

(** One row of [details]. The source stores the achievement and the score as
    formatted text ([f"{achievement:.0f}%"], [f"{score:.1f}/{weight*100:.0f}"]);
    the row keeps the numbers the text is printed from. *)
Record detail (F : Type) : Type := {
  d_category : string;
  d_current : Z;
  d_target : Z;
  d_achievement : F;
  d_score : F;
  d_weight : F
}.

Arguments d_category {F} d.
Arguments d_current {F} d.
Arguments d_target {F} d.
Arguments d_achievement {F} d.
Arguments d_score {F} d.
Arguments d_weight {F} d.

(** What [calculate_score] returns: [(total_score, tier, tier_color, details, target)]. *)
Record score_result (F : Type) : Type := {
  total_score : F;
  tier : string;
  tier_color : string;
  details : list (detail F);
  target_table : list (string * Z)
}.

Arguments total_score {F} s.
Arguments tier {F} s.
Arguments tier_color {F} s.
Arguments details {F} s.
Arguments target_table {F} s.

Section Scoring.

Context {F : Type} {A : Arith F}.

(** [weights] (and [weights_dict] of [main], the same table). *)
Definition weights : list (string * F) :=
  map (fun kv => (fst kv, of_decimal (snd kv))) weight_literals.

(** [a / b] on two ints. *)
Definition py_truediv (a b : Z) : result F :=
  if b =? 0 then Raise ZeroDivisionError
  else if too_large (truediv a b) then Raise OverflowError
  else Ok (truediv a b).

(** [min(x, y)]: the first argument, unless the second is smaller. *)
Definition py_min (x y : F) : F := if ltb y x then y else x.

(** [min((current_count / target_count) * 100, 100)]. The int 100 that [min]
    may return is used as a float by everything that reads it. *)
Definition achievement (current_count target_count : Z) : result F :=
  (q <- py_truediv current_count target_count ;;
   Ok (py_min (mul q (of_int 100)) (of_int 100)))%result.

(** The loop over [current_data.items()], with [total_score] and [details]
    as its state. *)
Fixpoint score_loop (items : list (string * Z)) (total : F) (rows : list (detail F))
  : result (F * list (detail F)) :=
  match items with
  | [] => Ok (total, rows)
  | (category, current_count) :: rest =>
      (target_count <- dict_getitem target category ;;
       weight <- dict_getitem weights category ;;
       achieved <- achievement current_count target_count ;;
       let score := mul achieved weight in
       score_loop rest (add total score)
         (rows ++ [ {| d_category := category;
                       d_current := current_count;
                       d_target := target_count;
                       d_achievement := achieved;
                       d_score := score;
                       d_weight := weight |} ]))%result
  end.

(** The tier and its colour, thresholds read from the top. *)
Definition decide_tier (total : F) : string * string :=
  if leb (of_int 85) total then ("🥇 Gold", "#FFD700")
  else if leb (of_int 75) total then ("🥈 Silver", "#C0C0C0")
  else if leb (of_int 60) total then ("🥉 Bronze", "#CD7F32")
  else ("⚪ 미달", "#808080").

Definition calculate_score (current_data : list (string * Z)) : result (score_result F) :=
  (st <- score_loop current_data (of_int 0) [] ;;
   let tier_and_color := decide_tier (fst st) in
   Ok {| total_score := fst st;
         tier := fst tier_and_color;
         tier_color := snd tier_and_color;
         details := snd st;
         target_table := target |})%result.

End Scoring.

(** The tier names. *)
Definition Gold : string := "🥇 Gold".
Definition Silver : string := "🥈 Silver".
Definition Bronze : string := "🥉 Bronze".
Definition Unrated : string := "⚪ 미달".

(** The dict [get_current_data] builds: the nine categories in declaration
    order, each with its count. *)
Definition counts_dict (counts : list Z) : list (string * Z) := combine categories counts.

(** ** The algorithm as the specification words it

    For each category, [achievement = min(count / target * 100, 100)] and
    [categoryScore = achievement * weight]; [totalScore] is the sum of the
    category scores. The targets and weights are spelled out per category. *)

Section SpecWords.

Context {F : Type} {A : Arith F}.

Definition spec_table : list (Z * Q) :=
  [ (60, 23 # 100); (30, 18 # 100); (20, 13 # 100); (15, 9 # 100); (12, 9 # 100);
    (10, 4 # 100); (15, 4 # 100); (20, 10 # 100); (8, 10 # 100) ].

Definition spec_achievement (count goal : Z) : F :=
  py_min (mul (truediv count goal) (of_int 100)) (of_int 100).

Definition spec_category_score (count : Z) (entry : Z * Q) : F :=
  mul (spec_achievement count (fst entry)) (of_decimal (snd entry)).

Definition spec_category_scores (counts : list Z) : list F :=
  map (fun ce => spec_category_score (fst ce) (snd ce)) (combine counts spec_table).

Definition spec_total_score (counts : list Z) : F :=
  fold_left add (spec_category_scores counts) (of_int 0).

End SpecWords.

(** ** The shortfall ranking of [main] *)

(** One entry of [needed_data]. The source keeps the text [f"+{needed}개"];
    the entry keeps the number it is printed from. *)
Record needed_item (F : Type) : Type := {
  n_category : string;
  n_needed : Z;
  n_priority : F
}.

Arguments n_category {F} n.
Arguments n_needed {F} n.
Arguments n_priority {F} n.

(** The two flags of the list. *)
Definition urgent : string := "🔴 긴급".
Definition important : string := "🟡 중요".

(** [enumerate(l, start)] *)
Fixpoint enumerate {X : Type} (start : Z) (l : list X) : list (Z * X) :=
  match l with
  | [] => []
  | x :: l' => (start, x) :: enumerate (start + 1) l'
  end.

Section Shortfall.

Context {F : Type} {A : Arith F}.

(** The loop over [current_data.keys()]; [goal] is the target table that
    [calculate_score] returned. *)
Fixpoint needed_loop (keys : list string) (current_data goal : list (string * Z))
  (needed_data : list (needed_item F)) : result (list (needed_item F)) :=
  match keys with
  | [] => Ok needed_data
  | category :: rest =>
      if dict_contains goal category && dict_contains weights category then
        (target_count <- dict_getitem goal category ;;
         current_count <- dict_getitem current_data category ;;
         let needed := target_count - current_count in
         if 0 <? needed then
           (shortage_ratio <- py_truediv needed target_count ;;
            weight <- dict_getitem weights category ;;
            let priority_score := mul shortage_ratio weight in
            needed_loop rest current_data goal
              (needed_data ++ [ {| n_category := category;
                                   n_needed := needed;
                                   n_priority := priority_score |} ]))
         else needed_loop rest current_data goal needed_data)%result
      else needed_loop rest current_data goal needed_data
  end.

Definition needed_data (current_data goal : list (string * Z)) : result (list (needed_item F)) :=
  needed_loop (map fst current_data) current_data goal [].

(** [needed_data.sort(key=lambda x: x['우선순위'], reverse=True)]: Python's sort
    is stable, also with [reverse=True], and compares keys with [<]. An entry
    is put behind those of strictly greater priority and before the rest. *)
Fixpoint insert_by_priority (x : needed_item F) (l : list (needed_item F)) : list (needed_item F) :=
  match l with
  | [] => [x]
  | y :: l' =>
      if ltb (n_priority x) (n_priority y) then y :: insert_by_priority x l'
      else x :: y :: l'
  end.

Definition sort_by_priority (l : list (needed_item F)) : list (needed_item F) :=
  fold_right insert_by_priority [] l.

(** [for i, item in enumerate(needed_data[:5], 1)]: the lines written, each
    with its flag. *)
Definition surfaced (ranking : list (needed_item F)) : list (string * needed_item F) :=
  map (fun ix => (if fst ix <=? 3 then urgent else important, snd ix))
      (enumerate 1 (firstn 5 ranking)).

(** The ranking [main] shows for a dict of counts. *)
Definition priority_ranking (current_data : list (string * Z)) : result (list (needed_item F)) :=
  (r <- calculate_score current_data ;;
   needed <- needed_data current_data (target_table r) ;;
   Ok (sort_by_priority needed))%result.

End Shortfall.

(** ** Auxiliary definitions of the proofs *)

(** The weights in hundredths: the most a category adds to the total. *)
Definition percents : list (string * Z) :=
  [ ("QnA", 23);
    ("운동 가이드라인", 18);
    ("식단 가이드라인", 13);
    ("철학/마인드셋", 9);
    ("부상 관리", 9);
    ("피드백", 4);
    ("식단 예시", 4);
    ("운동 예시", 10);
    ("톤/말투", 10) ].

Definition percent (category : string) : Z := dict_get percents category 0.

Fixpoint percent_sum (keys : list string) : Z :=
  match keys with
  | [] => 0
  | k :: keys' => percent k + percent_sum keys'
  end.

(** A dict of counts for the scoring engine: no key twice, every key a
    category, no count negative. *)
Definition counts_valid (current_data : list (string * Z)) : Prop :=
  NoDup (map fst current_data) /\
  forall (category : string) (count : Z),
    In (category, count) current_data -> In category categories /\ 0 <= count.

(** The same with every count a number of rows: below 2^53, so that it
    converts to a float exactly. *)
Definition counts_ok (current_data : list (string * Z)) : Prop :=
  NoDup (map fst current_data) /\
  forall (category : string) (count : Z),
    In (category, count) current_data -> In category categories /\ 0 <= count < 2 ^ 53.

(** No division of the scoring loop on these counts leaves the floats. *)
Definition quotients_fit {F : Type} {A : Arith F} (items : list (string * Z)) : Prop :=
  forall (category : string) (count t : Z),
    In (category, count) items -> dict_lookup target category = Some t ->
    too_large (truediv count t) = false.

(** What the stated algorithm asks of the result for the nine counts: the
    total, the category scores and the achievements are those of the formula,
    row by row in declaration order, and the tier is the one of the total. *)
Definition stated_algorithm {F : Type} {A : Arith F} (counts : list Z) (r : score_result F)
  : Prop :=
  total_score r = spec_total_score counts /\
  map d_score (details r) = spec_category_scores counts /\
  map d_achievement (details r)
    = map (fun ce => spec_achievement (fst ce) (fst (snd ce))) (combine counts spec_table) /\
  map d_target (details r) = map fst spec_table /\
  map d_category (details r) = categories /\
  tier r = fst (decide_tier (total_score r)).

(** Between zero and an integer, at exact arithmetic. *)
Definition Q_within (x : Q) (n : Z) : Prop := (0 <= x <= inject_Z n)%Q.

(** [precedes l a b]: [a] stands in [l] before an occurrence of [b]. *)
Fixpoint precedes {X : Type} (l : list X) (a b : X) : Prop :=
  match l with
  | [] => False
  | y :: l' => (y = a /\ In b l') \/ precedes l' a b
  end.

(** What one key of the dict adds to [needed_data]. *)
Definition needed_entry {F : Type} {A : Arith F} (kc : string * Z) : list (needed_item F) :=
  match dict_lookup target (fst kc), dict_lookup weights (fst kc) with
  | Some target_count, Some weight =>
      if 0 <? target_count - snd kc then
        [ {| n_category := fst kc;
             n_needed := target_count - snd kc;
             n_priority := mul (truediv (target_count - snd kc) target_count) weight |} ]
      else []
  | _, _ => []
  end.

(** [a] comes before [b] in a list sorted by descending priority. *)
Definition descending (a b : needed_item spec_float) : Prop :=
  SFleb (n_priority b) (n_priority a) = true.

(** A positive finite binary64 number. *)
Definition is_finite_pos (x : spec_float) : bool :=
  match x with
  | S754_finite false _ _ => true
  | _ => false
  end.

(** The value of a binary64 mantissa and exponent, scaled by [2^1074] to an
    integer. *)
Definition b64_scaled (m : positive) (e : Z) : Z := Zpos m * 2 ^ (e + 1074).

(** A binary64 number of the format between zero and the integer [n]. *)
Definition b64_within (x : spec_float) (n : Z) : Prop :=
  match x with
  | S754_zero _ => True
  | S754_finite false m e => bounded 53 1024 m e = true /\ b64_scaled m e <= n * 2 ^ 1074
  | _ => False
  end.

Definition b64_within_b (x : spec_float) (n : Z) : bool :=
  match x with
  | S754_zero _ => true
  | S754_finite false m e => bounded 53 1024 m e && (b64_scaled m e <=? n * 2 ^ 1074)
  | _ => false
  end.

(** An integer that binary64 holds exactly, as a normal number. *)
Definition b64_exact_int (k : Z) : bool :=
  match b64_of_int k with
  | S754_finite false m e =>
      bounded 53 1024 m e && (2 ^ 52 <=? Zpos m) && (b64_scaled m e =? k * 2 ^ 1074)
  | _ => false
  end.

(** The integers from 0 up to, and without, [n]. *)
Definition Z_range (n : Z) : list Z := map Z.of_nat (seq 0 (Z.to_nat n)).

(** The score of one category, for a count, a target and a weight as written. *)
Definition b64_score (count t : Z) (q : Q) : spec_float :=
  mul (py_min (mul (truediv count t) (of_int 100)) (of_int 100)) (of_decimal q).

(** The scores of a row of the table are within the share of the row, for
    every count below the target and for an achievement of 100. *)
Definition b64_row_ok (tq : Z * Q) : bool :=
  forallb (fun c => b64_within_b (b64_score c (fst tq) (snd tq)) (Qnum (snd tq)))
          (Z_range (fst tq))
  && b64_within_b (mul (of_int 100) (of_decimal (snd tq))) (Qnum (snd tq)).

(** ** The row store, the caches and the backend *)

Inductive sql_value : Type :=
| SqlNull
| SqlInt (n : Z)
| SqlText (s : string)
| SqlArray (xs : list string).

(** The statements the program sends, with their parameters bound. *)
Inductive statement : Type :=
| SelectOne
| SelectCount (table trainer_id : string)
| SelectRows (table : string) (columns : list string) (trainer_id : string)
| InsertInto (table : string) (columns : list string) (values : list sql_value)
| UpdateSet (table : string) (assignments : list (string * sql_value)) (id : Z)
| DeleteFrom (table : string) (id : Z).

Definition is_write (q : statement) : bool :=
  match q with
  | InsertInto _ _ _ | UpdateSet _ _ _ | DeleteFrom _ _ => true
  | _ => false
  end.

(** A row: its id and its values by column. A column the row lists no
    value for holds NULL. *)
Record row : Type := {
  row_id : Z;
  row_fields : list (string * sql_value)
}.

(** A table name to its rows, the newest first. *)
Definition database : Type := string -> list row.

(** [pd.DataFrame(rows, columns=columns)]; [pd.DataFrame()] is [empty_frame]. *)
Record dataframe : Type := {
  df_columns : list string;
  df_rows : list (list sql_value)
}.

Definition empty_frame : dataframe := {| df_columns := []; df_rows := [] |}.

(** [df.empty] *)
Definition df_empty (df : dataframe) : bool :=
  match df_rows df with
  | [] => true
  | _ :: _ => false
  end.

Record http_request : Type := {
  url : string;
  params : list (string * string);
  timeout : Z
}.

Inductive http_outcome : Type :=
| HttpRaises (e : exn)
| HttpResponse (status_code : Z) (text : string).

(** What the outside does: whether [psycopg2.connect], a statement or a
    commit raises, and what the backend answers. *)
Record environment : Type := {
  backend_base_url : string;
  connect_error : option exn;
  execute_error : statement -> option exn;
  commit_error : option exn;
  post : http_request -> http_outcome
}.

(** An answer [st.cache_data] keeps for [get_category_data]: the arguments
    of the call, the frame returned, the [st.error] messages drawn while the
    body ran (Streamlit draws them again each time the answer is read from
    the cache), and the time at which the answer was stored. *)
Record cached : Type := {
  cached_trainer : string;
  cached_category : string;
  cached_frame : dataframe;
  cached_errors : list string;
  cached_at : Z
}.

(** [committed] is what the store holds durably, [session] what the open
    connection sees (the committed rows and its open transaction).
    [connected] says [st.cache_resource] holds a connection. [aborted_by] is
    the statement of the open transaction that the store refused, when there
    is one: until the transaction ends, the store takes no further statement
    of that connection. [data_cache] is [st.cache_data], the newest answer
    first, and [now] is the clock, in seconds; time passes between the calls,
    not during them. The two logs list what was sent, the oldest first, and
    [ui_errors] what [st.error] drew. *)
Record world : Type := {
  committed : database;
  session : database;
  connected : bool;
  aborted_by : option statement;
  next_id : Z;
  data_cache : list cached;
  now : Z;
  sql_log : list statement;
  http_log : list http_request;
  ui_errors : list string
}.

Definition set_committed (db : database) (w : world) : world :=
  {| committed := db; session := session w; connected := connected w;
     aborted_by := aborted_by w; next_id := next_id w;
     data_cache := data_cache w; now := now w; sql_log := sql_log w;
     http_log := http_log w; ui_errors := ui_errors w |}.

Definition set_session (db : database) (w : world) : world :=
  {| committed := committed w; session := db; connected := connected w;
     aborted_by := aborted_by w; next_id := next_id w;
     data_cache := data_cache w; now := now w; sql_log := sql_log w;
     http_log := http_log w; ui_errors := ui_errors w |}.

Definition set_connected (b : bool) (w : world) : world :=
  {| committed := committed w; session := session w; connected := b;
     aborted_by := aborted_by w; next_id := next_id w;
     data_cache := data_cache w; now := now w; sql_log := sql_log w;
     http_log := http_log w; ui_errors := ui_errors w |}.

Definition set_aborted_by (q : option statement) (w : world) : world :=
  {| committed := committed w; session := session w;
     connected := connected w; aborted_by := q; next_id := next_id w;
     data_cache := data_cache w; now := now w; sql_log := sql_log w;
     http_log := http_log w; ui_errors := ui_errors w |}.

Definition set_next_id (n : Z) (w : world) : world :=
  {| committed := committed w; session := session w;
     connected := connected w; aborted_by := aborted_by w; next_id := n;
     data_cache := data_cache w; now := now w; sql_log := sql_log w;
     http_log := http_log w; ui_errors := ui_errors w |}.

Definition set_data_cache (c : list cached) (w : world) : world :=
  {| committed := committed w; session := session w;
     connected := connected w; aborted_by := aborted_by w;
     next_id := next_id w; data_cache := c; now := now w;
     sql_log := sql_log w; http_log := http_log w; ui_errors := ui_errors w |}.


Definition set_sql_log (l : list statement) (w : world) : world :=
  {| committed := committed w; session := session w;
     connected := connected w; aborted_by := aborted_by w;
     next_id := next_id w; data_cache := data_cache w; now := now w;
     sql_log := l; http_log := http_log w; ui_errors := ui_errors w |}.

Definition set_http_log (l : list http_request) (w : world) : world :=
  {| committed := committed w; session := session w;
     connected := connected w; aborted_by := aborted_by w;
     next_id := next_id w; data_cache := data_cache w; now := now w;
     sql_log := sql_log w; http_log := l; ui_errors := ui_errors w |}.

Definition set_ui_errors (l : list string) (w : world) : world :=
  {| committed := committed w; session := session w;
     connected := connected w; aborted_by := aborted_by w;
     next_id := next_id w; data_cache := data_cache w; now := now w;
     sql_log := sql_log w; http_log := http_log w; ui_errors := l |}.

(** *** The monad of the stateful code *)

Definition M (X : Type) : Type := world -> result X * world.

Definition ret {X : Type} (x : X) : M X := fun w => (Ok x, w).

Definition raise {X : Type} (e : exn) : M X := fun w => (Raise e, w).

Definition bind {X Y : Type} (m : M X) (k : X -> M Y) : M Y :=
  fun w =>
    match m w with
    | (Ok x, w') => k x w'
    | (Raise e, w') => (Raise e, w')
    end.

(** [try: body except Exception as e: handler(e)] *)
Definition try_except {X : Type} (body : M X) (handler : exn -> M X) : M X :=
  fun w =>
    match body w with
    | (Ok x, w') => (Ok x, w')
    | (Raise e, w') => handler e w'
    end.

Definition lift {X : Type} (r : result X) : M X := fun w => (r, w).

Definition modify (f : world -> world) : M unit := fun w => (Ok tt, f w).

Declare Scope store_scope.
Delimit Scope store_scope with store.
Notation "x <- e ;; k" := (bind e (fun x => k))
  (at level 61, e at next level, right associativity) : store_scope.
Notation "e ;; k" := (bind e (fun _ => k))
  (at level 61, right associativity) : store_scope.

(** *** What a statement does to the store *)

Definition update_table (db : database) (table : string) (rows : list row) : database :=
  fun t => if String.eqb t table then rows else db t.

(** [WHERE trainer_id = %s] *)
Definition owned_by (trainer_id : string) (r : row) : bool :=
  match dict_lookup (row_fields r) "trainer_id" with
  | Some (SqlText s) => String.eqb s trainer_id
  | _ => false
  end.

Definition project (columns : list string) (r : row) : list sql_value :=
  map (fun c => dict_get (row_fields r) c SqlNull) columns.

Fixpoint assign (fields : list (string * sql_value)) (column : string) (v : sql_value)
  : list (string * sql_value) :=
  match fields with
  | [] => [(column, v)]
  | (c, old) :: fields' =>
      if String.eqb c column then (c, v) :: fields' else (c, old) :: assign fields' column v
  end.

Definition update_row (assignments : list (string * sql_value)) (r : row) : row :=
  {| row_id := row_id r;
     row_fields := fold_left (fun fs cv => assign fs (fst cv) (snd cv)) assignments (row_fields r) |}.

(** The effect of a statement on a store that takes it. A new row gets the
    next id, which also stands for its time of creation, and goes to the head
    of its table, so a table lists its rows by [created_at] descending. Two
    statements are no SQL and every store refuses them: an INSERT whose
    values are not as many as its columns, and an UPDATE with nothing to set
    ([UPDATE t SET  WHERE id = ...], what [update_data] builds from an empty
    dict). Whether the columns a statement names are columns of the table is
    the store's to say (see [execute_error]); a row holds NULL under a column
    it lists no value for, and an UPDATE the store took writes it. *)
Definition apply_statement (q : statement) (w : world) : result (list (list sql_value)) * world :=
  match q with
  | SelectOne => (Ok [[SqlInt 1]], w)
  | SelectCount table trainer_id =>
      (Ok [[SqlInt (Z.of_nat (length (filter (owned_by trainer_id) (session w table))))]], w)
  | SelectRows table columns trainer_id =>
      (Ok (map (project columns) (filter (owned_by trainer_id) (session w table))), w)
  | InsertInto table columns values =>
      if Nat.eqb (length columns) (length values) then
        let r := {| row_id := next_id w;
                    row_fields := ("id", SqlInt (next_id w))
                                  :: ("created_at", SqlInt (next_id w))
                                  :: combine columns values |} in
        (Ok [], set_next_id (next_id w + 1)
                  (set_session (update_table (session w) table (r :: session w table)) w))
      else (Raise (DatabaseError "INSERT has more expressions than target columns"), w)
  | UpdateSet table assignments id =>
      match assignments with
      | [] => (Raise (DatabaseError "syntax error at or near WHERE"), w)
      | _ :: _ =>
          (Ok [], set_session
                    (update_table (session w) table
                       (map (fun r => if row_id r =? id then update_row assignments r else r)
                            (session w table))) w)
      end
  | DeleteFrom table id =>
      (Ok [], set_session
                (update_table (session w) table
                   (filter (fun r => negb (row_id r =? id)) (session w table))) w)
  end.

(** A [str] is embedded as its UTF-8 bytes. The comma is one byte and is no
    byte of another character, so [str.split(',')] splits the bytes at the
    commas. *)
Fixpoint split_on (sep : ascii) (s : string) : list string :=
  match s with
  | EmptyString => [EmptyString]
  | String c s' =>
      if Ascii.eqb c sep then EmptyString :: split_on sep s'
      else match split_on sep s' with
           | [] => [String c EmptyString]
           | word :: words => String c word :: words
           end
  end.

(** The white space of [str.strip()] is the characters for which
    [str.isspace()] holds: U+0009 to U+000D, U+001C to U+0020, U+0085, U+00A0,
    U+1680, U+2000 to U+200A, U+2028, U+2029, U+202F, U+205F and U+3000. In
    UTF-8 they take one byte ([is_space]), two ([is_space2]: C2 85, C2 A0) or
    three ([is_space3]: E1 9A 80, E2 80 80 to E2 80 8A, E2 80 A8, E2 80 A9,
    E2 80 AF, E2 81 9F, E3 80 80). *)
Definition is_space (c : ascii) : bool :=
  let n := nat_of_ascii c in
  ((Nat.leb 9 n && Nat.leb n 13) || (Nat.leb 28 n && Nat.leb n 32))%bool.

Definition is_space2 (c d : ascii) : bool :=
  (Nat.eqb (nat_of_ascii c) 194
   && (Nat.eqb (nat_of_ascii d) 133 || Nat.eqb (nat_of_ascii d) 160))%bool.

Definition is_space3 (c d e : ascii) : bool :=
  let c := nat_of_ascii c in
  let d := nat_of_ascii d in
  let e := nat_of_ascii e in
  ((Nat.eqb c 225 && Nat.eqb d 154 && Nat.eqb e 128)
   || (Nat.eqb c 226 && Nat.eqb d 128
       && ((Nat.leb 128 e && Nat.leb e 138)
           || Nat.eqb e 168 || Nat.eqb e 169 || Nat.eqb e 175))
   || (Nat.eqb c 226 && Nat.eqb d 129 && Nat.eqb e 159)
   || (Nat.eqb c 227 && Nat.eqb d 128 && Nat.eqb e 128))%bool.

(** The bytes left when the white space at the front is dropped; [w1], [w2]
    and [w3] tell the white space of one, two and three bytes. *)
Fixpoint strip_front (w1 : ascii -> bool) (w2 : ascii -> ascii -> bool)
  (w3 : ascii -> ascii -> ascii -> bool) (l : list ascii) : list ascii :=
  match l with
  | [] => []
  | c :: l1 =>
      if w1 c then strip_front w1 w2 w3 l1
      else match l1 with
           | [] => l
           | d :: l2 =>
               if w2 c d then strip_front w1 w2 w3 l2
               else match l2 with
                    | [] => l
                    | e :: l3 => if w3 c d e then strip_front w1 w2 w3 l3 else l
                    end
           end
  end.


(** [str.lstrip()] *)
Definition lstrip_bytes (l : list ascii) : list ascii :=
  strip_front is_space is_space2 is_space3 l.

(** [str.rstrip()]: the same from the end, the bytes of a character read
    backwards. *)
Definition rstrip_bytes (l : list ascii) : list ascii :=
  rev (strip_front is_space (fun e d => is_space2 d e) (fun e d c => is_space3 c d e) (rev l)).

Definition lstrip (s : string) : string :=
  string_of_list_ascii (lstrip_bytes (list_ascii_of_string s)).

Definition rstrip (s : string) : string :=
  string_of_list_ascii (rstrip_bytes (list_ascii_of_string s)).

(** [str.strip()] *)
Definition strip (s : string) : string := rstrip (lstrip s).

(** Truth value of a str. *)
Definition nonempty (s : string) : bool :=
  match s with
  | EmptyString => false
  | String _ _ => true
  end.

(** The category to table mapping ([tables] of [get_current_data],
    [delete_data] and [update_data]). *)
Definition tables : list (string * string) :=
  [ ("QnA", "data_trainer_qna");
    ("운동 가이드라인", "data_trainer_workout_guideline");
    ("식단 가이드라인", "data_trainer_diet_guideline");
    ("철학/마인드셋", "data_trainer_philosophy");
    ("부상 관리", "data_trainer_injury");
    ("피드백", "data_trainer_feedback");
    ("식단 예시", "data_trainer_meal_examples");
    ("운동 예시", "data_trainer_workout_examples");
    ("톤/말투", "data_trainer_tones_raw") ].

(** [tables] of [get_category_data]: the table and the columns read. *)
Definition listing_tables : list (string * (string * list string)) :=
  [ ("QnA", ("data_trainer_qna", ["id"; "question"; "answer"; "category"; "risk_level"; "created_at"]));
    ("운동 가이드라인", ("data_trainer_workout_guideline", ["id"; "title"; "content"; "category"; "created_at"]));
    ("식단 가이드라인", ("data_trainer_diet_guideline", ["id"; "title"; "content"; "category"; "created_at"]));
    ("철학/마인드셋", ("data_trainer_philosophy", ["id"; "content"; "category"; "created_at"]));
    ("부상 관리", ("data_trainer_injury", ["id"; "title"; "content"; "body_part"; "risk_level"; "keywords"; "created_at"]));
    ("피드백", ("data_trainer_feedback", ["id"; "user_goal"; "title"; "content"; "category"; "keywords"; "created_at"]));
    ("식단 예시", ("data_trainer_meal_examples", ["id"; "title"; "content"; "category"; "created_at"]));
    ("운동 예시", ("data_trainer_workout_examples", ["id"; "title"; "content"; "category"; "user_level"; "created_at"]));
    ("톤/말투", ("data_trainer_tones_raw", ["id"; "trainer_name"; "raw_data"; "created_at"])) ].

(** The messages the operations return. *)
Definition msg_bad_category : string := "잘못된 카테고리입니다.".
Definition msg_deleted : string := "✅ 삭제되었습니다!".
Definition msg_delete_failed : string := "❌ 삭제 실패: ".
Definition msg_updated : string := "✅ 수정되었습니다!".
Definition msg_update_failed : string := "❌ 수정 실패: ".
Definition msg_added : string := "✅ 데이터가 성공적으로 추가되었습니다!".
Definition msg_add_failed : string := "❌ 에러 발생: ".
Definition msg_tone_added : string := "✅ 톤 데이터가 성공적으로 추가되고 분석되었습니다!".
Definition msg_tone_analysis_failed : string := "⚠️ 톤 데이터는 저장되었으나 분석 실패: ".
Definition msg_tone_call_failed : string := "⚠️ 톤 데이터는 저장되었으나 분석 API 호출 실패: ".
Definition msg_analyzed : string := "✅ 톤 분석/적용이 완료되었습니다.".
Definition msg_analysis_failed : string := "❌ 톤 분석 실패: ".
Definition msg_analysis_error : string := "❌ 톤 분석 요청 오류: ".
Definition msg_listing_failed : string := "데이터 조회 실패: ".

(** *** The operations *)

Section Store.

Variable env : environment.

Local Open Scope store_scope.

(** The open transaction is in the failed state: the store refused a
    statement of it, the one [aborted_by] names. The connections of the
    program do not commit by themselves, so the state lasts until a commit,
    a rollback or a new connection. The state is read against the outside, as
    every failure of a statement is: where the store refuses no statement,
    no transaction is in the failed state. *)
Definition in_failed_transaction (w : world) : bool :=
  match aborted_by w with
  | Some q =>
      match execute_error env q with
      | Some _ => true
      | None => false
      end
  | None => false
  end.

(** What [psycopg2] raises for a statement sent in a failed transaction
    ([InFailedSqlTransaction], a [DatabaseError]). *)
Definition in_failed_sql_transaction : exn :=
  DatabaseError
    "current transaction is aborted, commands ignored until end of transaction block".

(** [cur.execute(q)]: the statement is sent. A statement the outside fails
    raises what the outside says and leaves the transaction in the failed
    state. In a transaction that is in the failed state every statement the
    outside would take raises too. Otherwise the statement acts on the
    store; the two statements that are no SQL are refused there (see
    [apply_statement]), and the program sends them only under a handler that
    rolls back at once, so the state they leave is not kept. *)
Definition execute (q : statement) : M (list (list sql_value)) :=
  fun w =>
    let w1 := set_sql_log (sql_log w ++ [q]) w in
    match execute_error env q with
    | Some e => (Raise e, set_aborted_by (Some q) w1)
    | None =>
        if in_failed_transaction w then (Raise in_failed_sql_transaction, w1)
        else apply_statement q w1
    end.

(** [conn.commit()]. The store ends a failed transaction by rolling it
    back, without an error. *)
Definition commit : M unit :=
  fun w =>
    match commit_error env with
    | Some e => (Raise e, w)
    | None =>
        if in_failed_transaction w
        then (Ok tt, set_aborted_by None (set_session (committed w) w))
        else (Ok tt, set_committed (session w) w)
    end.

(** [conn.rollback()] *)
Definition rollback : M unit :=
  modify (fun w => set_aborted_by None (set_session (committed w) w)).

(** [st.cache_data.clear()] *)
Definition cache_data_clear : M unit := modify (set_data_cache []).

(** [requests.post(url, params=..., timeout=...)] *)
Definition requests_post (rq : http_request) : M (Z * string) :=
  fun w =>
    let w1 := set_http_log (http_log w ++ [rq]) w in
    match post env rq with
    | HttpRaises e => (Raise e, w1)
    | HttpResponse status body => (Ok (status, body), w1)
    end.

(** [get_db_connection], under [st.cache_resource]: the connection is made
    once and kept; a new connection starts from the committed rows. *)
Definition get_db_connection : M unit :=
  fun w =>
    if connected w then (Ok tt, w)
    else match connect_error env with
         | Some e => (Raise e, w)
         | None =>
             (Ok tt, set_connected true (set_aborted_by None (set_session (committed w) w)))
         end.

(** [get_safe_connection]: the connection is probed with [SELECT 1]; on an
    [OperationalError] or [InterfaceError] the resource cache is cleared and
    the connection made again. Any other exception goes to the caller. *)
Definition get_safe_connection : M unit :=
  get_db_connection ;;
  try_except (execute SelectOne ;; ret tt)
    (fun e =>
       match e with
       | OperationalError _ | InterfaceError _ =>
           modify (set_connected false) ;; get_db_connection
       | _ => raise e
       end).

(** The loop of [get_current_data] over [tables.items()]. *)
Fixpoint count_loop (trainer_id : string) (items : list (string * string))
  (data : list (string * Z)) : M (list (string * Z)) :=
  match items with
  | [] => ret data
  | (name, table) :: rest =>
      count <- try_except
                 (fetched <- execute (SelectCount table trainer_id) ;;
                  match fetched with
                  | [SqlInt n :: _] => ret n
                  | _ => raise (DatabaseError "no count")
                  end)
                 (fun _ => ret 0%Z) ;;
      count_loop trainer_id rest (data ++ [(name, count)])
  end.

Definition get_current_data (trainer_id : string) : M (list (string * Z)) :=
  get_safe_connection ;;
  count_loop trainer_id tables [].

(** The body of [get_category_data]. *)
Definition get_category_data_body (trainer_id category : string) : M dataframe :=
  try_except
    (get_safe_connection ;;
     match dict_lookup listing_tables category with
     | None => ret empty_frame
     | Some (table_name, columns) =>
         fetched <- execute (SelectRows table_name columns trainer_id) ;;
         ret {| df_columns := columns; df_rows := fetched |}
     end)
    (fun e =>
       modify (fun w => set_ui_errors (ui_errors w ++ [msg_listing_failed ++ exn_str e]) w) ;;
       ret empty_frame).

(** The newest answer the cache holds for a call. *)
Fixpoint cache_find (c : list cached) (trainer_id category : string) : option cached :=
  match c with
  | [] => None
  | answer :: c' =>
      if (String.eqb (cached_trainer answer) trainer_id
          && String.eqb (cached_category answer) category)%bool
      then Some answer
      else cache_find c' trainer_id category
  end.

Definition cache_lookup (c : list cached) (trainer_id category : string)
  : option dataframe :=
  option_map cached_frame (cache_find c trainer_id category).

(** [ttl=60]: an answer is read from the cache for 60 seconds. *)
Definition ttl : Z := 60.

Definition fresh_answer (w : world) (answer : cached) : bool :=
  now w <? cached_at answer + ttl.

(** A call that the cache does not answer: the body runs, and its answer is
    kept with the messages the body drew and the time. *)
Definition run_and_keep (trainer_id category : string) : M dataframe :=
  fun w =>
    match get_category_data_body trainer_id category w with
    | (Ok df, w') =>
        (Ok df,
         set_data_cache
           ({| cached_trainer := trainer_id;
               cached_category := category;
               cached_frame := df;
               cached_errors := skipn (length (ui_errors w)) (ui_errors w');
               cached_at := now w |} :: data_cache w') w')
    | (Raise e, w') => (Raise e, w')
    end.

(** [get_category_data] under [st.cache_data(ttl=60)]. An answer of the
    cache that is not older than the ttl is returned as it is, and the
    [st.error] messages kept with it are drawn again; nothing else runs.
    Otherwise the body runs, and its answer is kept with the messages the
    body drew. *)
Definition get_category_data (trainer_id category : string) : M dataframe :=
  fun w =>
    match cache_find (data_cache w) trainer_id category with
    | Some answer =>
        if fresh_answer w answer
        then (Ok (cached_frame answer),
              set_ui_errors (ui_errors w ++ cached_errors answer) w)
        else run_and_keep trainer_id category w
    | None => run_and_keep trainer_id category w
    end.

Definition delete_data (category : string) (data_id : Z) : M (bool * string) :=
  get_safe_connection ;;
  match dict_lookup tables category with
  | None => ret (false, msg_bad_category)
  | Some table =>
      try_except
        (execute (DeleteFrom table data_id) ;;
         commit ;;
         cache_data_clear ;;
         ret (true, msg_deleted))
        (fun e => rollback ;; ret (false, msg_delete_failed ++ exn_str e))
  end.

Definition update_data (category : string) (data_id : Z)
  (updated_fields : list (string * sql_value)) : M (bool * string) :=
  get_safe_connection ;;
  match dict_lookup tables category with
  | None => ret (false, msg_bad_category)
  | Some table =>
      try_except
        (execute (UpdateSet table updated_fields data_id) ;;
         commit ;;
         cache_data_clear ;;
         ret (true, msg_updated))
        (fun e => rollback ;; ret (false, msg_update_failed ++ exn_str e))
  end.

(** The request both tone-analysis calls send, up to the timeout. *)
Definition analyze_tone_request (trainer_id : string) (seconds : Z) : http_request :=
  {| url := backend_base_url env ++ "/admin/analyze_tone";
     params := [("trainer_id", trainer_id)];
     timeout := seconds |}.

Definition trigger_tone_analyze (trainer_id : string) : M (bool * string) :=
  try_except
    (resp <- requests_post (analyze_tone_request trainer_id 15) ;;
     if fst resp =? 200 then ret (true, msg_analyzed)
     else ret (false, msg_analysis_failed ++ snd resp))
    (fun e => ret (false, msg_analysis_error ++ exn_str e)).

(** [conn.commit(); cur.close(); return True, ...] at the end of [add_data]. *)
Definition add_data_finish : M (bool * string) :=
  commit ;; ret (true, msg_added).

(** [data_dict[k]] *)
Definition field (data_dict : list (string * string)) (k : string) : M string :=
  lift (dict_getitem data_dict k).

Definition add_data (trainer_id category : string) (data_dict : list (string * string))
  : M (bool * string) :=
  get_safe_connection ;;
  try_except
    (if String.eqb category "QnA" then
       question <- field data_dict "question" ;;
       answer <- field data_dict "answer" ;;
       execute (InsertInto "data_trainer_qna"
                  ["trainer_id"; "question"; "answer"; "category"; "risk_level"; "language"]
                  [SqlText trainer_id; SqlText question; SqlText answer; SqlArray ["general"];
                   SqlText (dict_get data_dict "risk_level" "low"); SqlText "ko"]) ;;
       add_data_finish
     else if String.eqb category "운동 가이드라인" then
       title <- field data_dict "title" ;;
       content <- field data_dict "content" ;;
       execute (InsertInto "data_trainer_workout_guideline"
                  ["trainer_id"; "title"; "content"; "category"; "language"]
                  [SqlText trainer_id; SqlText title; SqlText content; SqlArray ["exercise"];
                   SqlText "ko"]) ;;
       add_data_finish
     else if String.eqb category "식단 가이드라인" then
       title <- field data_dict "title" ;;
       content <- field data_dict "content" ;;
       execute (InsertInto "data_trainer_diet_guideline"
                  ["trainer_id"; "title"; "content"; "category"; "language"]
                  [SqlText trainer_id; SqlText title; SqlText content; SqlArray ["diet"];
                   SqlText "ko"]) ;;
       add_data_finish
     else if String.eqb category "철학/마인드셋" then
       content <- field data_dict "content" ;;
       execute (InsertInto "data_trainer_philosophy"
                  ["trainer_id"; "content"; "category"; "language"]
                  [SqlText trainer_id; SqlText content; SqlArray ["mindset"]; SqlText "ko"]) ;;
       add_data_finish
     else if String.eqb category "부상 관리" then
       title <- field data_dict "title" ;;
       content <- field data_dict "content" ;;
       body_part <- field data_dict "body_part" ;;
       execute (InsertInto "data_trainer_injury"
                  ["trainer_id"; "title"; "content"; "body_part"; "risk_level"; "keywords"; "language"]
                  [SqlText trainer_id; SqlText title; SqlText content; SqlArray [body_part];
                   SqlText (dict_get data_dict "risk_level" "medium");
                   SqlArray (if nonempty (dict_get data_dict "keywords" "")
                             then split_on "," (dict_get data_dict "keywords" "")
                             else []);
                   SqlText "ko"]) ;;
       add_data_finish
     else if String.eqb category "피드백" then
       let keywords_list :=
         filter nonempty (map strip (split_on "," (dict_get data_dict "keywords" ""))) in
       title <- field data_dict "title" ;;
       content <- field data_dict "content" ;;
       feedback_type <- field data_dict "feedback_type" ;;
       execute (InsertInto "data_trainer_feedback"
                  ["trainer_id"; "user_goal"; "title"; "content"; "category"; "keywords"; "language"]
                  [SqlText trainer_id; SqlText (dict_get data_dict "user_goal" "");
                   SqlText title; SqlText content; SqlArray [feedback_type];
                   SqlArray keywords_list; SqlText "ko"]) ;;
       add_data_finish
     else if String.eqb category "식단 예시" then
       title <- field data_dict "title" ;;
       content <- field data_dict "content" ;;
       meal_type <- field data_dict "meal_type" ;;
       execute (InsertInto "data_trainer_meal_examples"
                  ["trainer_id"; "title"; "content"; "category"; "language"]
                  [SqlText trainer_id; SqlText title; SqlText content; SqlArray [meal_type];
                   SqlText (dict_get data_dict "user_level" "beginner"); SqlText "ko"]) ;;
       add_data_finish
     else if String.eqb category "운동 예시" then
       title <- field data_dict "title" ;;
       content <- field data_dict "content" ;;
       workout_type <- field data_dict "workout_type" ;;
       execute (InsertInto "data_trainer_workout_examples"
                  ["trainer_id"; "title"; "content"; "category"; "user_level"; "language"]
                  [SqlText trainer_id; SqlText title; SqlText content; SqlArray [workout_type];
                   SqlText (dict_get data_dict "user_level" "beginner"); SqlText "ko"]) ;;
       add_data_finish
     else if String.eqb category "톤/말투" then
       raw_data <- field data_dict "raw_data" ;;
       execute (InsertInto "data_trainer_tones_raw"
                  ["trainer_id"; "trainer_name"; "raw_data"]
                  [SqlText trainer_id; SqlText (dict_get data_dict "trainer_name" "");
                   SqlText raw_data]) ;;
       commit ;;
       try_except
         (response <- requests_post (analyze_tone_request trainer_id 30) ;;
          if fst response =? 200 then ret (true, msg_tone_added)
          else ret (true, msg_tone_analysis_failed ++ snd response))
         (fun analyze_error => ret (true, msg_tone_call_failed ++ exn_str analyze_error))
     else add_data_finish)
    (fun e => rollback ;; ret (false, msg_add_failed ++ exn_str e)).

End Store.

(** A computation that leaves [st.cache_data] as it found it. *)
Definition keeps_cache {X : Type} (m : M X) : Prop :=
  forall w : world, data_cache (snd (m w)) = data_cache w.

(** The number of rows of a trainer in a table. *)
Definition rows_of (db : database) (trainer_id table : string) : Z :=
  Z.of_nat (length (filter (owned_by trainer_id) (db table))).

(** What the count queries of [get_current_data] give, table by table, on
    a connection that sees [db]: a query the store refuses gives 0 and leaves
    the transaction in the failed state, [failed], in which every query
    after it gives 0 as well; a query that goes through gives the number of
    rows of the trainer. *)
Fixpoint counts_from (env : environment) (trainer_id : string) (db : database)
  (failed : bool) (items : list (string * string)) : list (string * Z) :=
  match items with
  | [] => []
  | (name, table) :: rest =>
      match execute_error env (SelectCount table trainer_id) with
      | Some _ => (name, 0) :: counts_from env trainer_id db true rest
      | None =>
          (name, if failed then 0 else rows_of db trainer_id table)
          :: counts_from env trainer_id db failed rest
      end
  end.

(** The statement that aborted the transaction, after those count queries. *)
Fixpoint aborted_after (env : environment) (trainer_id : string)
  (items : list (string * string)) (aborted : option statement) : option statement :=
  match items with
  | [] => aborted
  | (name, table) :: rest =>
      aborted_after env trainer_id rest
        match execute_error env (SelectCount table trainer_id) with
        | Some _ => Some (SelectCount table trainer_id)
        | None => aborted
        end
  end.

(** The INSERT of the tone branch of [add_data], and the row it stores. *)
Definition tone_insert (trainer_id : string) (data_dict : list (string * string))
  (raw_data : string) : statement :=
  InsertInto "data_trainer_tones_raw"
    ["trainer_id"; "trainer_name"; "raw_data"]
    [SqlText trainer_id; SqlText (dict_get data_dict "trainer_name" ""); SqlText raw_data].

Definition tone_row (id : Z) (trainer_id : string) (data_dict : list (string * string))
  (raw_data : string) : row :=
  {| row_id := id;
     row_fields := [ ("id", SqlInt id); ("created_at", SqlInt id);
                     ("trainer_id", SqlText trainer_id);
                     ("trainer_name", SqlText (dict_get data_dict "trainer_name" ""));
                     ("raw_data", SqlText raw_data) ] |}.

(** The message of the tone branch, by the answer of the backend. *)
Definition tone_message (answer : http_outcome) : string :=
  match answer with
  | HttpResponse status body =>
      if status =? 200 then msg_tone_added else msg_tone_analysis_failed ++ body
  | HttpRaises e => msg_tone_call_failed ++ exn_str e
  end.

(** *** Worlds and environments of the examples *)

(** An outside in which nothing fails and the backend answers 200. *)
Definition quiet : environment :=
  {| backend_base_url := "http://127.0.0.1:8000";
     connect_error := None;
     execute_error := fun _ => None;
     commit_error := None;
     post := fun _ => HttpResponse 200 "ok" |}.

(** The same outside with another answer of the backend. *)
Definition answering (answer : http_outcome) : environment :=
  {| backend_base_url := "http://127.0.0.1:8000";
     connect_error := None;
     execute_error := fun _ => None;
     commit_error := None;
     post := fun _ => answer |}.

(** The same outside in which the statements of one table fail. *)
Definition failing_table (table : string) : environment :=
  {| backend_base_url := "http://127.0.0.1:8000";
     connect_error := None;
     execute_error :=
       fun q =>
         match q with
         | SelectCount t _ =>
             if String.eqb t table then Some (DatabaseError "relation does not exist") else None
         | _ => None
         end;
     commit_error := None;
     post := fun _ => HttpResponse 200 "ok" |}.

Definition empty_database : database := fun _ => [].

(** Nothing stored, nothing cached, no connection yet. *)
Definition fresh : world :=
  {| committed := empty_database;
     session := empty_database;
     connected := false;
     aborted_by := None;
     next_id := 1;
     data_cache := [];
     now := 0;
     sql_log := [];
     http_log := [];
     ui_errors := [] |}.

(** One QnA row of trainer tr_001, and its listing in the cache. *)
Definition qna_row : row :=
  {| row_id := 1;
     row_fields := [ ("id", SqlInt 1); ("created_at", SqlInt 1);
                     ("trainer_id", SqlText "tr_001");
                     ("question", SqlText "q1"); ("answer", SqlText "a1");
                     ("category", SqlArray ["general"]); ("risk_level", SqlText "low");
                     ("language", SqlText "ko") ] |}.

Definition one_row_database : database :=
  update_table empty_database "data_trainer_qna" [qna_row].

Definition one_row_world : world :=
  {| committed := one_row_database;
     session := one_row_database;
     connected := true;
     aborted_by := None;
     next_id := 2;
     data_cache := [];
     now := 0;
     sql_log := [];
     http_log := [];
     ui_errors := [] |}.

(** The QnA row and one tone sample of the same trainer. *)
Definition tone_sample_row : row :=
  {| row_id := 2;
     row_fields := [ ("id", SqlInt 2); ("created_at", SqlInt 2);
                     ("trainer_id", SqlText "tr_001");
                     ("trainer_name", SqlText "kim"); ("raw_data", SqlText "hi") ] |}.

Definition two_tables_database : database :=
  update_table one_row_database "data_trainer_tones_raw" [tone_sample_row].

Definition two_tables_world : world :=
  {| committed := two_tables_database;
     session := two_tables_database;
     connected := true;
     aborted_by := None;
     next_id := 3;
     data_cache := [];
     now := 0;
     sql_log := [];
     http_log := [];
     ui_errors := [] |}.

(** [one_row_world] after its QnA listing was read, and so cached. *)
Definition listed_world : world := snd (get_category_data quiet "tr_001" "QnA" one_row_world).

(** [listed_world] after one more QnA row was added. *)
Definition added_world : world :=
  snd (add_data quiet "tr_001" "QnA" [("question", "q2"); ("answer", "a2")] listed_world).


(** ** [add_data], seen from its callers *)

(** The INSERT [add_data] sends, read off its branches: [Ok None] for a name
    that is no category (nothing is sent), and the [KeyError] of the first
    field the form lacks. [add_data_insert_of] ties it to [add_data]. *)
Definition insert_of (trainer_id category : string) (data_dict : list (string * string))
  : result (option statement) :=
  (if String.eqb category "QnA" then
     question <- dict_getitem data_dict "question" ;;
     answer <- dict_getitem data_dict "answer" ;;
     Ok (Some (InsertInto "data_trainer_qna"
                 ["trainer_id"; "question"; "answer"; "category"; "risk_level"; "language"]
                 [SqlText trainer_id; SqlText question; SqlText answer; SqlArray ["general"];
                  SqlText (dict_get data_dict "risk_level" "low"); SqlText "ko"]))
   else if String.eqb category "운동 가이드라인" then
     title <- dict_getitem data_dict "title" ;;
     content <- dict_getitem data_dict "content" ;;
     Ok (Some (InsertInto "data_trainer_workout_guideline"
                 ["trainer_id"; "title"; "content"; "category"; "language"]
                 [SqlText trainer_id; SqlText title; SqlText content; SqlArray ["exercise"];
                  SqlText "ko"]))
   else if String.eqb category "식단 가이드라인" then
     title <- dict_getitem data_dict "title" ;;
     content <- dict_getitem data_dict "content" ;;
     Ok (Some (InsertInto "data_trainer_diet_guideline"
                 ["trainer_id"; "title"; "content"; "category"; "language"]
                 [SqlText trainer_id; SqlText title; SqlText content; SqlArray ["diet"];
                  SqlText "ko"]))
   else if String.eqb category "철학/마인드셋" then
     content <- dict_getitem data_dict "content" ;;
     Ok (Some (InsertInto "data_trainer_philosophy"
                 ["trainer_id"; "content"; "category"; "language"]
                 [SqlText trainer_id; SqlText content; SqlArray ["mindset"]; SqlText "ko"]))
   else if String.eqb category "부상 관리" then
     title <- dict_getitem data_dict "title" ;;
     content <- dict_getitem data_dict "content" ;;
     body_part <- dict_getitem data_dict "body_part" ;;
     Ok (Some (InsertInto "data_trainer_injury"
                 ["trainer_id"; "title"; "content"; "body_part"; "risk_level"; "keywords"; "language"]
                 [SqlText trainer_id; SqlText title; SqlText content; SqlArray [body_part];
                  SqlText (dict_get data_dict "risk_level" "medium");
                  SqlArray (if nonempty (dict_get data_dict "keywords" "")
                            then split_on "," (dict_get data_dict "keywords" "")
                            else []);
                  SqlText "ko"]))
   else if String.eqb category "피드백" then
     title <- dict_getitem data_dict "title" ;;
     content <- dict_getitem data_dict "content" ;;
     feedback_type <- dict_getitem data_dict "feedback_type" ;;
     Ok (Some (InsertInto "data_trainer_feedback"
                 ["trainer_id"; "user_goal"; "title"; "content"; "category"; "keywords"; "language"]
                 [SqlText trainer_id; SqlText (dict_get data_dict "user_goal" "");
                  SqlText title; SqlText content; SqlArray [feedback_type];
                  SqlArray (filter nonempty
                              (map strip (split_on "," (dict_get data_dict "keywords" ""))));
                  SqlText "ko"]))
   else if String.eqb category "식단 예시" then
     title <- dict_getitem data_dict "title" ;;
     content <- dict_getitem data_dict "content" ;;
     meal_type <- dict_getitem data_dict "meal_type" ;;
     Ok (Some (InsertInto "data_trainer_meal_examples"
                 ["trainer_id"; "title"; "content"; "category"; "language"]
                 [SqlText trainer_id; SqlText title; SqlText content; SqlArray [meal_type];
                  SqlText (dict_get data_dict "user_level" "beginner"); SqlText "ko"]))
   else if String.eqb category "운동 예시" then
     title <- dict_getitem data_dict "title" ;;
     content <- dict_getitem data_dict "content" ;;
     workout_type <- dict_getitem data_dict "workout_type" ;;
     Ok (Some (InsertInto "data_trainer_workout_examples"
                 ["trainer_id"; "title"; "content"; "category"; "user_level"; "language"]
                 [SqlText trainer_id; SqlText title; SqlText content; SqlArray [workout_type];
                  SqlText (dict_get data_dict "user_level" "beginner"); SqlText "ko"]))
   else if String.eqb category "톤/말투" then
     raw_data <- dict_getitem data_dict "raw_data" ;;
     Ok (Some (InsertInto "data_trainer_tones_raw"
                 ["trainer_id"; "trainer_name"; "raw_data"]
                 [SqlText trainer_id; SqlText (dict_get data_dict "trainer_name" "");
                  SqlText raw_data]))
   else Ok None)%result.

(** What [add_data] does once its INSERT was taken: the commit, and for a
    tone sample the call of the backend. *)
Definition after_insert (env : environment) (trainer_id category : string) : M (bool * string) :=
  if String.eqb category "톤/말투" then
    bind (commit env)
      (fun _ =>
         try_except
           (bind (requests_post env (analyze_tone_request env trainer_id 30))
              (fun response =>
                 if fst response =? 200 then ret (true, msg_tone_added)
                 else ret (true, msg_tone_analysis_failed ++ snd response)))
           (fun analyze_error => ret (true, msg_tone_call_failed ++ exn_str analyze_error)))
  else add_data_finish env.






(** ** Keywords *)

(** [[k.strip() for k in text.split(',') if k.strip()]]: the keywords
    [add_data] stores with a feedback row, and those the update of a feedback
    row sends. The text the edit form shows for stored keywords is
    [','.join(keywords)], here [String.concat "," keywords]. *)
Definition keywords_list (text : string) : list string :=
  filter nonempty (map strip (split_on "," text)).


(** ** [get_db_config] *)

(** [st.secrets] is a mapping of sections when there is a secrets file, and
    reading it raises when there is none; [os.getenv] gives [None] for a
    variable that is not set. A value of the configuration is a [str] or
    [None]. *)
Definition secrets : Type := result (list (string * list (string * string))).

(** The [try] block: the five subscripts of the section, when there is one. *)
Definition config_of_secrets (st_secrets : secrets)
  : result (option (list (string * option string))) :=
  (sections <- st_secrets ;;
   if dict_contains sections "database" then
     database <- dict_getitem sections "database" ;;
     host <- dict_getitem database "DB_HOST" ;;
     port <- dict_getitem database "DB_PORT" ;;
     name <- dict_getitem database "DB_NAME" ;;
     user <- dict_getitem database "DB_USER" ;;
     password <- dict_getitem database "DB_PASSWORD" ;;
     Ok (Some [ ("host", Some host); ("port", Some port); ("database", Some name);
                ("user", Some user); ("password", Some password) ])
   else Ok None)%result.

Definition config_of_environ (getenv : string -> option string)
  : list (string * option string) :=
  [ ("host", getenv "DB_HOST"); ("port", getenv "DB_PORT"); ("database", getenv "DB_NAME");
    ("user", getenv "DB_USER"); ("password", getenv "DB_PASSWORD") ].

(** [except: pass] swallows whatever the [try] block raises. *)
Definition get_db_config (st_secrets : secrets) (getenv : string -> option string)
  : list (string * option string) :=
  match config_of_secrets st_secrets with
  | Ok (Some config) => config
  | Ok None => config_of_environ getenv
  | Raise _ => config_of_environ getenv
  end.

(** ** [main] *)

(** *** The header and the gauge *)

Section Header.

Context {F : Type} {A : Arith F}.

(** ["Bronze (60점)" if total_score < 60 else "Silver (75점)" if total_score < 75
    else "Gold (85점)"] *)
Definition next_tier (total_score : F) : string :=
  if ltb total_score (of_int 60) then "Bronze (60점)"
  else if ltb total_score (of_int 75) then "Silver (75점)"
  else "Gold (85점)".

(** [60 if total_score < 60 else 75 if total_score < 75 else 85]: the
    reference of the delta and the threshold line of the gauge. *)
Definition gauge_threshold (total_score : F) : Z :=
  if ltb total_score (of_int 60) then 60
  else if ltb total_score (of_int 75) then 75
  else 85.

End Header.

(** *** The page: the store, what was drawn, and [st.session_state] *)

(** What a handler draws. A message that the source formats from numbers
    keeps the numbers. *)
Inductive ui_event : Type :=
| StError (message : string)
| StSuccess (message : string)
| StWarning (message : string)
| StBalloons
| StTierUp (old_tier new_tier : string)
| StScoreInfo (score_diff old_score new_score : spec_float)
| StRefreshButton
| StRerun.

(** [confirmed] lists the ids [i] for which
    [st.session_state['confirm_delete_i']] is [True]. *)
Record page : Type := {
  store : world;
  drawn : list ui_event;
  confirmed : list Z
}.

Definition P (X : Type) : Type := page -> result X * page.

Definition pret {X : Type} (x : X) : P X := fun p => (Ok x, p).

Definition pbind {X Y : Type} (m : P X) (k : X -> P Y) : P Y :=
  fun p =>
    match m p with
    | (Ok x, p') => k x p'
    | (Raise e, p') => (Raise e, p')
    end.

(** A computation on the store, run on the store of the page. *)
Definition in_store {X : Type} (m : M X) : P X :=
  fun p =>
    (fst (m (store p)),
     {| store := snd (m (store p)); drawn := drawn p; confirmed := confirmed p |}).

Definition draw (e : ui_event) : P unit :=
  fun p => (Ok tt, {| store := store p; drawn := drawn p ++ [e]; confirmed := confirmed p |}).


Declare Scope page_scope.
Delimit Scope page_scope with page.
Notation "x <- e ;; k" := (pbind e (fun x => k))
  (at level 61, e at next level, right associativity) : page_scope.
Notation "e ;; k" := (pbind e (fun _ => k))
  (at level 61, right associativity) : page_scope.

Definition b64_sub : spec_float -> spec_float -> spec_float := SFsub 53 1024.

(** *** The save button of the second tab *)

Definition required_fields : list (string * list string) :=
  [ ("QnA", ["question"; "answer"]);
    ("운동 가이드라인", ["title"; "content"]);
    ("식단 가이드라인", ["title"; "content"]);
    ("철학/마인드셋", ["content"]);
    ("부상 관리", ["title"; "content"; "body_part"]);
    ("피드백", ["title"; "content"; "feedback_type"]);
    ("식단 예시", ["meal_type"; "title"; "content"]);
    ("운동 예시", ["workout_type"; "title"; "content"]);
    ("톤/말투", ["raw_data"]) ].

(** [not data_dict.get(field)]: the field is absent or holds the empty text. *)
Definition blank (data_dict : list (string * string)) (field : string) : bool :=
  negb (nonempty (dict_get data_dict field "")).

(** [[field for field in required_fields[category] if not data_dict.get(field)]] *)
Definition missing_fields (category : string) (data_dict : list (string * string))
  : result (list string) :=
  (fields <- dict_getitem required_fields category ;;
   Ok (filter (blank data_dict) fields))%result.

Definition msg_missing_fields : string := "❌ 필수 필드가 비어있습니다: ".

(** The branch of [main] under the save button; [shown_score] and
    [shown_tier] are the [total_score] and the [tier] the page computed
    before the click. *)
Definition save_clicked (env : environment) (trainer_id category : string)
  (data_dict : list (string * string)) (shown_score : spec_float) (shown_tier : string)
  : P unit :=
  (missing <- in_store (lift (missing_fields category data_dict)) ;;
   match missing with
   | _ :: _ => draw (StError (msg_missing_fields ++ String.concat ", " missing))
   | [] =>
       outcome <- in_store (add_data env trainer_id category data_dict) ;;
       if fst outcome then
         draw (StSuccess (snd outcome)) ;;
         draw StBalloons ;;
         new_data <- in_store (get_current_data env trainer_id) ;;
         scored <- in_store (lift (calculate_score new_data)) ;;
         (if negb (String.eqb (tier scored) shown_tier)
          then draw (StTierUp shown_tier (tier scored))
          else pret tt) ;;
         draw (StScoreInfo (b64_sub (total_score scored) shown_score)
                 shown_score (total_score scored)) ;;
         draw StRefreshButton
       else draw (StError (snd outcome))
   end)%page.

(** *** The delete button of a row of the third tab *)

(** [st.session_state.get(f'confirm_delete_{row["id"]}', False)] *)
Definition is_confirmed (id : Z) (p : page) : bool := existsb (Z.eqb id) (confirmed p).


(** A page as a run of the script starts it: nothing drawn yet. *)
Definition page_of (w : world) (flags : list Z) : page :=
  {| store := w; drawn := []; confirmed := flags |}.

(** *** Pending writes *)

(** No write of the session waits for its commit: every table reads the same
    in the session as in the committed store. *)
Definition settled (w : world) : Prop :=
  forall table : string, session w table = committed w table.

(** A computation that keeps a settled store settled, however it ends. *)
Definition keeps_settled {X : Type} (m : M X) : Prop :=
  forall w : world, settled w -> settled (snd (m w)).

(** A computation that, when it returns, returns with a settled store. *)
Definition returns_settled {X : Type} (m : M X) : Prop :=
  forall (w w' : world) (x : X), m w = (Ok x, w') -> settled w'.

(** *** The statement that aborted the transaction *)

(** The statement [aborted_by] names, when it names one, is a statement the
    store refuses. *)
Definition names_a_refusal (env : environment) (w : world) : Prop :=
  forall q : statement, aborted_by w = Some q -> execute_error env q <> None.

(** A computation that keeps it so, however it ends. *)
Definition keeps_refusal (env : environment) {X : Type} (m : M X) : Prop :=
  forall w : world, names_a_refusal env w -> names_a_refusal env (snd (m w)).

(** *** Checks on the tables *)


(** *** More outsides of the examples *)

(** A store that refuses every write. *)
Definition refusing_writes : environment :=
  {| backend_base_url := "http://127.0.0.1:8000";
     connect_error := None;
     execute_error :=
       fun q => if is_write q then Some (DatabaseError "read-only transaction") else None;
     commit_error := None;
     post := fun _ => HttpResponse 200 "ok" |}.

(** A store that cannot be reached. *)
Definition unreachable : environment :=
  {| backend_base_url := "http://127.0.0.1:8000";
     connect_error := Some (OperationalError "connection refused");
     execute_error := fun _ => None;
     commit_error := None;
     post := fun _ => HttpResponse 200 "ok" |}.



(** A store whose connection was dropped: the probe fails, a new connection
    can be made. *)
Definition dropped_connection : environment :=
  {| backend_base_url := "http://127.0.0.1:8000";
     connect_error := None;
     execute_error :=
       fun q => match q with
                | SelectOne => Some (OperationalError "server closed the connection")
                | _ => None
                end;
     commit_error := None;
     post := fun _ => HttpResponse 200 "ok" |}.

(** * Properties of the scoring engine *)

(** ** Facts about binary64 comparison *)

Lemma SFcompare_antisym (x y : spec_float) (c : comparison) :
  SFcompare x y = Some c -> SFcompare y x = Some (CompOpp c).
Proof.
  destruct x as [sx | sx | | sx mx ex], y as [sy | sy | | sy my ey]; simpl;
    try discriminate;
    try (destruct sx; intros H; inversion H; reflexivity);
    try (destruct sy; intros H; inversion H; reflexivity);
    try (destruct sx, sy; intros H; inversion H; reflexivity).
  intros H. inversion H as [H']. clear H H'. f_equal.
  rewrite (Z.compare_antisym ex ey).
  assert (Hm : Pos.compare_cont Eq my mx = CompOpp (Pos.compare_cont Eq mx my)).
  { rewrite Pos.compare_cont_antisym. reflexivity. }
  rewrite Hm.
  destruct sx, sy; simpl; try reflexivity;
    destruct (ex ?= ey); simpl; try reflexivity;
    destruct (Pos.compare_cont Eq mx my); reflexivity.
Qed.

Lemma SFltb_not_SFleb (x y : spec_float) : SFltb x y = true -> SFleb y x = false.
Proof.
  unfold SFltb, SFleb. destruct (SFcompare x y) as [[ | | ] | ] eqn:E; try discriminate.
  intros _. rewrite (SFcompare_antisym _ _ _ E). reflexivity.
Qed.

Lemma SFcompare_finite_Lt (s1 s2 : bool) (m1 m2 : positive) (e1 e2 : Z) :
  SFcompare (S754_finite s1 m1 e1) (S754_finite s2 m2 e2) = Some Lt <->
  match s1, s2 with
  | true, false => True
  | false, true => False
  | false, false => e1 < e2 \/ (e1 = e2 /\ (m1 < m2)%positive)
  | true, true => e2 < e1 \/ (e1 = e2 /\ (m2 < m1)%positive)
  end.
Proof.
  simpl. change (Pos.compare_cont Eq m1 m2) with (Pos.compare m1 m2).
  destruct s1, s2; try (split; [ intros; exact I | reflexivity ]);
    try (split; [ discriminate | intros [] ]);
    destruct (Z.compare_spec e1 e2) as [He | He | He];
    destruct (Pos.compare_spec m1 m2) as [Hm | Hm | Hm]; simpl;
    split; intros H; try reflexivity; try discriminate; try lia.
Qed.

Lemma SFltb_trans (x y z : spec_float) :
  SFltb x y = true -> SFltb y z = true -> SFltb x z = true.
Proof.
  unfold SFltb.
  destruct (SFcompare x y) as [[ | | ] | ] eqn:Exy; try discriminate.
  destruct (SFcompare y z) as [[ | | ] | ] eqn:Eyz; try discriminate.
  intros _ _.
  assert (Exz : SFcompare x z = Some Lt); [ | rewrite Exz; reflexivity ].
  destruct x as [sx | sx | | sx mx ex], y as [sy | sy | | sy my ey],
    z as [sz | sz | | sz mz ez];
    try discriminate;
    try (destruct sx, sy, sz; simpl in *; congruence).
  apply SFcompare_finite_Lt in Exy. apply SFcompare_finite_Lt in Eyz.
  apply SFcompare_finite_Lt.
  destruct sx, sy, sz; try tauto; lia.
Qed.

(** ** C3: the tiers *)

(** C3. On every binary64 total the thresholds are read from the top and are
    inclusive: [85 <= total] gives Gold, [75 <= total < 85] Silver,
    [60 <= total < 75] Bronze and [total < 60] the tier below Bronze; 60.0 is
    Bronze and 59.999 is not; and the tier [calculate_score] returns is the
    one decided on its total. *)
Theorem decide_tier_thresholds :
  (forall total : spec_float,
      (SFleb (b64_of_int 85) total = true -> fst (decide_tier total) = Gold) /\
      (SFleb (b64_of_int 75) total = true -> SFltb total (b64_of_int 85) = true ->
         fst (decide_tier total) = Silver) /\
      (SFleb (b64_of_int 60) total = true -> SFltb total (b64_of_int 75) = true ->
         fst (decide_tier total) = Bronze) /\
      (SFltb total (b64_of_int 60) = true -> fst (decide_tier total) = Unrated)) /\
  fst (decide_tier (b64_of_decimal (600 # 10))) = Bronze /\
  fst (decide_tier (b64_of_decimal (59999 # 1000))) = Unrated /\
  (forall (current_data : list (string * Z)) (r : score_result spec_float),
      calculate_score current_data = Ok r -> tier r = fst (decide_tier (total_score r))).
Proof.
  assert (H6075 : SFltb (b64_of_int 60) (b64_of_int 75) = true) by (vm_compute; reflexivity).
  assert (H7585 : SFltb (b64_of_int 75) (b64_of_int 85) = true) by (vm_compute; reflexivity).
  split; [ | split; [ | split ] ].
  - intros total. unfold decide_tier.
    change (@leb spec_float binary64) with SFleb.
    change (@of_int spec_float binary64) with b64_of_int.
    repeat split.
    + intros H. rewrite H. reflexivity.
    + intros H75 H85. apply SFltb_not_SFleb in H85. rewrite H85, H75. reflexivity.
    + intros H60 H75.
      pose proof (SFltb_trans _ _ _ H75 H7585) as H85.
      apply SFltb_not_SFleb in H85. apply SFltb_not_SFleb in H75.
      rewrite H85, H75, H60. reflexivity.
    + intros H60.
      pose proof (SFltb_trans _ _ _ H60 H6075) as H75.
      pose proof (SFltb_trans _ _ _ H75 H7585) as H85.
      apply SFltb_not_SFleb in H85. apply SFltb_not_SFleb in H75.
      apply SFltb_not_SFleb in H60.
      rewrite H85, H75, H60. reflexivity.
  - vm_compute. reflexivity.
  - vm_compute. reflexivity.
  - intros current_data r. unfold calculate_score.
    destruct (score_loop current_data (of_int 0) []) as [st | e]; simpl; [ | discriminate ].
    intros H. inversion H. reflexivity.
Qed.

(** The thresholds at concrete totals: 90.0, 80.0, 60.0 and 59.999. *)
Lemma decide_tier_thresholds_witness :
  fst (decide_tier (b64_of_decimal (900 # 10))) = Gold /\
  fst (decide_tier (b64_of_decimal (800 # 10))) = Silver /\
  fst (decide_tier (b64_of_decimal (600 # 10))) = Bronze /\
  fst (decide_tier (b64_of_decimal (59999 # 1000))) = Unrated.
Proof.
  pose proof decide_tier_thresholds as [H _].
  split; [ | split; [ | split ] ].
  - apply (H (b64_of_decimal (900 # 10))). vm_compute. reflexivity.
  - apply (H (b64_of_decimal (800 # 10))); vm_compute; reflexivity.
  - apply (H (b64_of_decimal (600 # 10))); vm_compute; reflexivity.
  - apply (H (b64_of_decimal (59999 # 1000))). vm_compute. reflexivity.
Defined.

(** ** C5: division by zero *)

Lemma target_positive (category : string) (t : Z) :
  dict_lookup target category = Some t -> 0 < t.
Proof.
  unfold target. cbn [dict_lookup].
  repeat match goal with
         | |- context [String.eqb ?a ?b] => destruct (String.eqb a b)
         end;
    intros H; inversion H; lia.
Qed.

(** One turn of the loop of [calculate_score], with its lookups spelled out. *)
Lemma score_loop_step (F : Type) (A : Arith F) (category : string) (current_count : Z)
  (rest : list (string * Z)) (total : F) (rows : list (detail F)) :
  score_loop ((category, current_count) :: rest) total rows =
  match dict_lookup target category with
  | None => Raise (KeyError category)
  | Some target_count =>
      match dict_lookup weights category with
      | None => Raise (KeyError category)
      | Some weight =>
          if target_count =? 0 then Raise ZeroDivisionError
          else if too_large (truediv current_count target_count) then Raise OverflowError
          else
            let achieved :=
              py_min (mul (truediv current_count target_count) (of_int 100)) (of_int 100) in
            score_loop rest (add total (mul achieved weight))
              (rows ++ [ {| d_category := category;
                            d_current := current_count;
                            d_target := target_count;
                            d_achievement := achieved;
                            d_score := mul achieved weight;
                            d_weight := weight |} ])
      end
  end.
Proof.
  cbn [score_loop]. unfold dict_getitem, achievement, py_truediv.
  destruct (dict_lookup target category) as [t | ]; [ | reflexivity ].
  destruct (dict_lookup weights category) as [w | ]; [ | reflexivity ].
  cbn [rbind]. destruct (t =? 0); [ reflexivity | ].
  destruct (too_large (truediv current_count t)); reflexivity.
Qed.

Lemma dict_lookup_None {V : Type} (d : list (string * V)) (k : string) :
  dict_lookup d k = None -> ~ In k (map fst d).
Proof.
  induction d as [ | [k' v'] d IH ]; cbn [dict_lookup map fst In]; [ tauto | ].
  destruct (String.eqb k' k) eqn:E; [ discriminate | ].
  apply String.eqb_neq in E. intros H [Hk | Hk]; [ exact (E Hk) | exact (IH H Hk) ].
Qed.

Lemma score_loop_no_zero_division (F : Type) (A : Arith F) (items : list (string * Z)) :
  forall (total : F) (rows : list (detail F)),
    (exists st, score_loop items total rows = Ok st) \/
    (exists key, In key (map fst items) /\ ~ In key categories /\
                 score_loop items total rows = Raise (KeyError key)) \/
    score_loop items total rows = Raise OverflowError.
Proof.
  induction items as [ | [category current_count] rest IH ]; intros total rows.
  - left. eexists. reflexivity.
  - rewrite score_loop_step.
    destruct (dict_lookup target category) as [t | ] eqn:Et;
      [ | right; left; exists category; split; [ left; reflexivity | ];
          split; [ exact (dict_lookup_None target category Et) | reflexivity ] ].
    destruct (dict_lookup weights category) as [w | ] eqn:Ew;
      [ | right; left; exists category; split; [ left; reflexivity | ];
          split; [ exact (dict_lookup_None weights category Ew) | reflexivity ] ].
    apply target_positive in Et.
    destruct (t =? 0) eqn:E0; [ apply Z.eqb_eq in E0; lia | ].
    destruct (too_large (truediv current_count t)); [ right; right; reflexivity | ].
    cbv zeta.
    match goal with
    | |- context [score_loop rest ?t' ?r'] =>
        destruct (IH t' r') as [H | [[key [Hin [Hno H]]] | H]]
    end.
    + left. exact H.
    + right. left. exists key. split; [ right; exact Hin | ]. split; assumption.
    + right. right. exact H.
Qed.

(** C5. [calculate_score] never divides by zero. The divisor of the
    achievement expression is the target of the category, read from the fixed
    table inside the function, and every target of that table is positive: no
    category has a target of 0, so the case a guard would be for does not
    arise. On every dict of counts [calculate_score] does not raise
    [ZeroDivisionError]: it returns a result, or raises [KeyError] for a key
    of the dict that is no category, or raises [OverflowError] for a count
    whose quotient is beyond the floats. *)
Theorem calculate_score_never_divides_by_zero :
  forall (F : Type) (A : Arith F),
    (forall (category : string) (t : Z), In (category, t) target -> 0 < t) /\
    (forall current_data : list (string * Z),
        calculate_score current_data <> Raise ZeroDivisionError) /\
    (forall current_data : list (string * Z),
        (exists r : score_result F, calculate_score current_data = Ok r) \/
        (exists key : string,
            In key (map fst current_data) /\ ~ In key categories /\
            calculate_score current_data = Raise (KeyError key)) \/
        calculate_score current_data = Raise OverflowError).
Proof.
  intros F A.
  assert (Hways : forall current_data : list (string * Z),
             (exists r : score_result F, calculate_score current_data = Ok r) \/
             (exists key : string,
                 In key (map fst current_data) /\ ~ In key categories /\
                 calculate_score current_data = Raise (KeyError key)) \/
             calculate_score current_data = Raise OverflowError).
  { intros current_data. unfold calculate_score.
    destruct (score_loop_no_zero_division F A current_data (of_int 0) [])
      as [[st H] | [[key [Hin [Hno H]]] | H]]; rewrite H; simpl.
    - left. eexists. reflexivity.
    - right. left. exists key. split; [ exact Hin | ]. split; [ exact Hno | reflexivity ].
    - right. right. reflexivity. }
  split; [ | split; [ | exact Hways ] ].
  - intros category t H. unfold target in H. simpl in H.
    repeat (destruct H as [H | H]; [ inversion H; lia | ]). destruct H.
  - intros current_data Hzero.
    destruct (Hways current_data) as [[r H] | [[key [_ [_ H]]] | H]];
      rewrite H in Hzero; discriminate Hzero.
Qed.

(** ** The bound of the total, over an arithmetic *)

Lemma categories_NoDup : NoDup categories.
Proof.
  unfold categories.
  repeat (constructor; [ cbn [In]; intros H;
                         repeat (destruct H as [H | H]; [ discriminate H | ]); exact H | ]).
  constructor.
Qed.


Lemma percent_sum_app (l1 l2 : list string) :
  percent_sum (l1 ++ l2) = percent_sum l1 + percent_sum l2.
Proof.
  induction l1 as [ | k l1 IH ]; cbn [percent_sum app]; [ reflexivity | ].
  rewrite IH. lia.
Qed.

Lemma percent_nonneg (k : string) : 0 <= percent k.
Proof.
  unfold percent, dict_get, percents. cbn [dict_lookup].
  repeat match goal with
         | |- context [String.eqb ?a ?b] => destruct (String.eqb a b)
         end; lia.
Qed.

Lemma percent_sum_nonneg (l : list string) : 0 <= percent_sum l.
Proof.
  induction l as [ | k l IH ]; cbn [percent_sum]; [ lia | ].
  pose proof (percent_nonneg k). lia.
Qed.

(** Distinct keys drawn from a list weigh no more than the list. *)
Lemma percent_sum_incl (keys : list string) :
  forall universe : list string,
    NoDup keys -> incl keys universe -> percent_sum keys <= percent_sum universe.
Proof.
  induction keys as [ | k keys IH ]; intros universe Hnd Hincl.
  - apply percent_sum_nonneg.
  - inversion Hnd as [ | ? ? Hk Hnd' ]; subst.
    assert (Hin : In k universe) by (apply Hincl; left; reflexivity).
    destruct (in_split _ _ Hin) as [u1 [u2 Hu]]. subst universe.
    assert (Hincl' : incl keys (u1 ++ u2)).
    { intros x Hx. assert (Hxu : In x (u1 ++ k :: u2)) by (apply Hincl; right; exact Hx).
      apply in_app_or in Hxu. apply in_or_app.
      destruct Hxu as [Hxu | [Hxu | Hxu]]; [ left; exact Hxu | | right; exact Hxu ].
      subst x. contradiction. }
    specialize (IH (u1 ++ u2)%list Hnd' Hincl').
    rewrite percent_sum_app in *. cbn [percent_sum]. lia.
Qed.

Lemma percent_sum_categories : percent_sum categories = 100.
Proof. reflexivity. Qed.

(** Every category has a target, a weight and a share of the hundred points,
    as the nine rows of the stated table pair them. *)
Lemma category_tables (F : Type) (A : Arith F) (category : string) :
  In category categories ->
  exists (t p : Z),
    dict_lookup target category = Some t /\
    dict_lookup (weights (F := F)) category = Some (of_decimal (p # 100)) /\
    percent category = p /\ In (t, p # 100) spec_table.
Proof.
  unfold categories. cbn [In].
  intros H.
  repeat (destruct H as [H | H];
          [ subst category; eexists; eexists;
            split; [ reflexivity | split; [ reflexivity | split; [ reflexivity | ] ] ];
            cbn; tauto | ]).
  destruct H.
Qed.

Lemma spec_table_positive (t p : Z) : In (t, p # 100) spec_table -> 0 < t /\ 0 < p <= 100.
Proof.
  unfold spec_table. cbn [In]. intros H.
  repeat (destruct H as [H | H]; [ inversion H; lia | ]). destruct H.
Qed.

(** The loop returns on categories whose quotients are floats. *)
Lemma score_loop_ok (F : Type) (A : Arith F) (items : list (string * Z)) :
  (forall k, In k (map fst items) -> In k categories) ->
  quotients_fit items ->
  forall (total : F) (rows : list (detail F)),
  exists st : F * list (detail F), score_loop items total rows = Ok st.
Proof.
  induction items as [ | [category count] rest IH ]; intros Hkeys Hfit total rows.
  - eexists. reflexivity.
  - rewrite score_loop_step.
    destruct (category_tables F A category (Hkeys category (or_introl eq_refl)))
      as [t [p [Et [Ew [_ Htp]]]]].
    destruct (spec_table_positive t p Htp) as [Ht _].
    rewrite Et, Ew. destruct (t =? 0) eqn:E0; [ apply Z.eqb_eq in E0; lia | ].
    rewrite (Hfit category count t (or_introl eq_refl) Et).
    apply IH.
    + intros k Hk. apply Hkeys. right. exact Hk.
    + intros k c t' Hin. apply Hfit. right. exact Hin.
Qed.

Lemma calculate_score_ok (F : Type) (A : Arith F) (current_data : list (string * Z)) :
  (forall k, In k (map fst current_data) -> In k categories) ->
  quotients_fit current_data ->
  exists r : score_result F, calculate_score current_data = Ok r /\ target_table r = target.
Proof.
  intros Hkeys Hfit. unfold calculate_score.
  destruct (score_loop_ok F A current_data Hkeys Hfit (of_int 0) []) as [st Hst].
  rewrite Hst. cbn [rbind]. eexists. split; reflexivity.
Qed.

Lemma counts_ok_valid (current_data : list (string * Z)) :
  counts_ok current_data -> counts_valid current_data.
Proof.
  intros [Hnd Hok]. split; [ exact Hnd | ].
  intros category count Hin. destruct (Hok category count Hin) as [Hcat [H0 _]]. auto.
Qed.

Lemma counts_valid_keys (current_data : list (string * Z)) :
  counts_valid current_data -> forall k, In k (map fst current_data) -> In k categories.
Proof.
  intros [_ Hok] k Hk. apply in_map_iff in Hk. destruct Hk as [[k' c] [Hk Hin]].
  cbn [fst] in Hk. subst k'. apply (Hok k c Hin).
Qed.

Section ScoreBounds.

Context {F : Type} {A : Arith F}.

(** [within x n] is to say that [x] lies between zero and the integer [n].
    The bound needs of the arithmetic that a category's score lies within its
    share, and that a sum lies within the sum of the two bounds. *)
Variable within : F -> Z -> Prop.

Hypothesis within_zero : within (of_int 0) 0.

Hypothesis within_score :
  forall (count t p : Z),
    0 <= count -> In (t, p # 100) spec_table ->
    within (mul (py_min (mul (truediv count t) (of_int 100)) (of_int 100))
                (of_decimal (p # 100))) p.

Hypothesis within_add :
  forall (x y : F) (a b : Z),
    0 <= a -> 0 <= b -> a + b <= 100 ->
    within x a -> within y b -> within (add x y) (a + b).

Hypothesis within_bounds :
  forall (x : F) (n : Z),
    0 <= n <= 100 -> within x n ->
    leb (of_int 0) x = true /\ leb x (of_int 100) = true.

Lemma score_loop_bounded (items : list (string * Z)) :
  forall (total : F) (rows : list (detail F)) (n : Z) (st : F * list (detail F)),
    counts_valid items ->
    0 <= n -> n + percent_sum (map fst items) <= 100 ->
    within total n ->
    score_loop items total rows = Ok st ->
    within (fst st) (n + percent_sum (map fst items)).
Proof.
  induction items as [ | [category count] rest IH ];
    intros total rows n st [Hnd Hok] Hn Hsum Hw Hrun.
  - cbn [score_loop] in Hrun. inversion Hrun. subst st.
    cbn [map percent_sum fst]. rewrite Z.add_0_r. exact Hw.
  - rewrite score_loop_step in Hrun.
    destruct (Hok category count (or_introl eq_refl)) as [Hcat Hcount].
    destruct (category_tables F A category Hcat) as [t [p [Et [Ew [Ep Htp]]]]].
    destruct (spec_table_positive t p Htp) as [Ht Hp].
    rewrite Et, Ew in Hrun.
    destruct (t =? 0) eqn:E0; [ apply Z.eqb_eq in E0; lia | ].
    destruct (too_large (truediv count t)); [ discriminate Hrun | ].
    cbv zeta in Hrun.
    cbn [map fst percent_sum] in Hsum. rewrite Ep in Hsum.
    pose proof (percent_sum_nonneg (map fst rest)) as Hrest.
    pose proof (within_score count t p Hcount Htp) as Hs.
    pose proof (within_add total _ n p Hn ltac:(lia) ltac:(lia) Hw Hs) as Ha.
    assert (Hnd' : NoDup (map fst rest)) by (inversion Hnd; assumption).
    assert (Hok' : counts_valid rest).
    { split; [ exact Hnd' | ]. intros k c Hin. apply Hok. right. exact Hin. }
    cbn [map fst percent_sum]. rewrite Ep.
    replace (n + (p + percent_sum (map fst rest))) with (n + p + percent_sum (map fst rest)) by lia.
    exact (IH _ _ (n + p) st Hok' ltac:(lia) ltac:(lia) Ha Hrun).
Qed.

Lemma calculate_score_bounded (current_data : list (string * Z)) (r : score_result F) :
  counts_valid current_data ->
  calculate_score current_data = Ok r ->
  leb (of_int 0) (total_score r) = true /\ leb (total_score r) (of_int 100) = true.
Proof.
  intros Hok Hrun.
  assert (Hsum : percent_sum (map fst current_data) <= 100).
  { rewrite <- percent_sum_categories. apply percent_sum_incl.
    - apply Hok.
    - intros k Hk. exact (counts_valid_keys current_data Hok k Hk). }
  pose proof (percent_sum_nonneg (map fst current_data)) as Hnn.
  unfold calculate_score in Hrun.
  destruct (score_loop current_data (of_int 0) []) as [st | e] eqn:Hst;
    [ | discriminate Hrun ].
  cbn [rbind] in Hrun. inversion Hrun. cbn [total_score].
  apply (within_bounds _ (0 + percent_sum (map fst current_data))); [ lia | ].
  exact (score_loop_bounded current_data (of_int 0) [] 0 st Hok ltac:(lia) ltac:(lia)
           within_zero Hst).
Qed.

End ScoreBounds.

(** *** The laws at exact arithmetic *)

Lemma exact_within_score (count t p : Z) :
  0 <= count -> In (t, p # 100) spec_table ->
  Q_within (mul (py_min (mul (truediv count t) (of_int 100)) (of_int 100))
                (@of_decimal Q exact (p # 100))) p.
Proof.
  intros Hc Htp. destruct (spec_table_positive t p Htp) as [Ht [Hp Hp100]].
  unfold Q_within.
  change (@mul Q exact) with Qmult.
  change (@of_int Q exact) with inject_Z. change (@of_decimal Q exact (p # 100)) with (p # 100).
  change (@truediv Q exact count t) with (inject_Z count / inject_Z t)%Q.
  assert (Hq : (0 <= inject_Z count / inject_Z t)%Q).
  { apply Qle_shift_div_l.
    - change 0%Q with (inject_Z 0). rewrite <- Zlt_Qlt. exact Ht.
    - rewrite Qmult_0_l. change 0%Q with (inject_Z 0). rewrite <- Zle_Qle. exact Hc. }
  set (q := (inject_Z count / inject_Z t)%Q) in *.
  assert (Hw : (0 < p # 100)%Q) by (unfold Qlt; cbn [Qnum Qden]; lia).
  assert (Hpw : (inject_Z p == inject_Z 100 * (p # 100))%Q).
  { unfold Qeq, inject_Z, Qmult. cbn [Qnum Qden]. lia. }
  unfold py_min. change (@ltb Q exact) with Q_ltb. unfold Q_ltb.
  destruct (Qle_bool (q * inject_Z 100) (inject_Z 100)) eqn:E; cbn [negb].
  - apply Qle_bool_iff in E.
    split.
    + apply Qmult_le_0_compat; [ | apply Qlt_le_weak; exact Hw ].
      apply Qmult_le_0_compat; [ exact Hq | ]. discriminate.
    + rewrite Hpw. apply Qmult_le_compat_r; [ exact E | apply Qlt_le_weak; exact Hw ].
  - split.
    + apply Qmult_le_0_compat; [ discriminate | apply Qlt_le_weak; exact Hw ].
    + rewrite Hpw. apply Qle_refl.
Qed.

Lemma exact_within_add (x y : Q) (a b : Z) :
  0 <= a -> 0 <= b -> a + b <= 100 ->
  Q_within x a -> Q_within y b -> Q_within (add x y) (a + b).
Proof.
  intros _ _ _. unfold Q_within. change (@add Q exact) with Qplus.
  rewrite inject_Z_plus. intros [H1 H2] [H3 H4]. split; lra.
Qed.

Lemma exact_within_bounds (x : Q) (n : Z) :
  0 <= n <= 100 -> Q_within x n ->
  leb (of_int 0) x = true /\ leb x (of_int 100) = true.
Proof.
  intros [_ Hn] [H0 H1].
  change (@leb Q exact) with Qle_bool. change (@of_int Q exact) with inject_Z.
  rewrite !Qle_bool_iff. split; [ exact H0 | ].
  apply Qle_trans with (inject_Z n); [ exact H1 | ]. rewrite <- Zle_Qle. exact Hn.
Qed.

Lemma exact_within_zero : Q_within (of_int 0) 0.
Proof. unfold Q_within. split; apply Qle_refl. Qed.

Lemma counts_dict_ok (c1 c2 c3 c4 c5 c6 c7 c8 c9 : Z) :
  Forall (fun c => 0 <= c < 2 ^ 53) [c1; c2; c3; c4; c5; c6; c7; c8; c9] ->
  counts_ok (counts_dict [c1; c2; c3; c4; c5; c6; c7; c8; c9]).
Proof.
  intros H.
  repeat match goal with
         | H : Forall _ (_ :: _) |- _ => inversion H; subst; clear H
         end.
  split.
  - exact categories_NoDup.
  - intros category count H. unfold counts_dict, categories in *. cbn [combine In] in *.
    repeat (destruct H as [H | H]; [ inversion H; subst; split; [ tauto | assumption ] | ]).
    destruct H.
Qed.

(** At exact arithmetic the total of a dict of counts is between 0 and 100. *)
Lemma total_score_exact_between_0_and_100 :
  forall current_data : list (string * Z),
    counts_valid current_data ->
    exists r : score_result Q,
      calculate_score current_data = Ok r /\
      (0 <= total_score r)%Q /\ (total_score r <= 100)%Q.
Proof.
  intros current_data Hok.
  destruct (calculate_score_ok Q exact current_data (counts_valid_keys _ Hok))
    as [r [Hr _]]; [ intros k c t _ _; reflexivity | ].
  destruct (@calculate_score_bounded Q exact Q_within exact_within_zero exact_within_score
              exact_within_add exact_within_bounds current_data r Hok Hr) as [H0 H100].
  exists r. split; [ exact Hr | ].
  change (@leb Q exact) with Qle_bool in *. change (@of_int Q exact) with inject_Z in *.
  rewrite Qle_bool_iff in H0, H100. split; assumption.
Qed.
(** ** The shortfall ranking: the loop and the sort *)

(** *** binary64 results are numbers *)

Lemma shr_1_nonneg (mrs : shr_record) : 0 <= shr_m mrs -> 0 <= shr_m (shr_1 mrs).
Proof.
  destruct mrs as [m r s]. destruct m as [ | p | p ]; cbn [shr_m]; intros H.
  - cbn. lia.
  - destruct p; cbn; lia.
  - lia.
Qed.

Lemma iter_shr_1_nonneg (p : positive) :
  forall mrs : shr_record, 0 <= shr_m mrs -> 0 <= shr_m (iter_pos shr_1 p mrs).
Proof.
  induction p as [p IH | p IH | ]; intros mrs H; cbn [iter_pos].
  - apply IH, IH, shr_1_nonneg, H.
  - apply IH, IH, H.
  - apply shr_1_nonneg, H.
Qed.

Lemma shr_fexp_nonneg (m e : Z) (l : location) :
  0 <= m -> 0 <= shr_m (fst (shr_fexp 53 1024 m e l)).
Proof.
  intros H. unfold shr_fexp, shr.
  assert (H0 : 0 <= shr_m (shr_record_of_loc m l)) by (destruct l as [ | [ | | ] ]; exact H).
  destruct (fexp 53 1024 (Zdigits2 m + e) - e) as [ | p | p ]; cbn [fst]; try exact H0.
  apply iter_shr_1_nonneg, H0.
Qed.

Lemma round_nearest_even_nonneg (m : Z) (l : location) : 0 <= m -> 0 <= round_nearest_even m l.
Proof.
  intros H. destruct l as [ | [ | | ] ]; cbn [round_nearest_even]; try lia.
  destruct (Z.even m); lia.
Qed.

Lemma binary_round_aux_not_nan (sx : bool) (mx ex : Z) (lx : location) :
  0 <= mx -> binary_round_aux 53 1024 sx mx ex lx <> S754_nan.
Proof.
  intros H. unfold binary_round_aux.
  pose proof (shr_fexp_nonneg mx ex lx H) as H1.
  destruct (shr_fexp 53 1024 mx ex lx) as [mrs' e']. cbn [fst] in H1.
  pose proof (shr_fexp_nonneg _ e' loc_Exact
                (round_nearest_even_nonneg _ (loc_of_shr_record mrs') H1)) as H2.
  destruct (shr_fexp 53 1024 (round_nearest_even (shr_m mrs') (loc_of_shr_record mrs')) e' loc_Exact)
    as [mrs'' e'']. cbn [fst] in H2.
  destruct (shr_m mrs'') as [ | p | p ]; [ discriminate | | lia ].
  destruct (e'' <=? 1024 - 53); discriminate.
Qed.

Lemma b64_of_int_not_nan (z : Z) : b64_of_int z <> S754_nan.
Proof.
  unfold b64_of_int, binary_normalize. destruct z as [ | p | p ]; [ discriminate | | ];
    unfold binary_round;
    match goal with
    | |- context [shl_align ?m ?e ?e'] => destruct (shl_align m e e') as [mz ez]
    end;
    apply binary_round_aux_not_nan; lia.
Qed.

Lemma b64_div_not_nan (x : spec_float) (s : bool) (m : positive) (e : Z) :
  x <> S754_nan -> b64_div x (S754_finite s m e) <> S754_nan.
Proof.
  intros Hx. unfold b64_div. destruct x as [sx | sx | | sx mx ex]; cbn [SFdiv];
    try discriminate; [ contradiction | ].
  unfold SFdiv_core_binary.
  match goal with
  | |- context [Z.div_eucl ?a ?b] =>
      pose proof (Z.div_eucl_eq a b ltac:(lia)) as Heq;
      pose proof (Z.mod_pos_bound a b ltac:(lia)) as Hmod;
      unfold Z.modulo in Hmod;
      assert (Ha : 0 <= a);
      [ | destruct (Z.div_eucl a b) as [q r] ]
  end.
  { match goal with
    | |- 0 <= match ?s with _ => _ end => destruct s; try lia
    end.
    apply Z.shiftl_nonneg. lia. }
  apply binary_round_aux_not_nan. nia.
Qed.

Lemma b64_mul_not_nan (x : spec_float) (s : bool) (m : positive) (e : Z) :
  x <> S754_nan -> b64_mul x (S754_finite s m e) <> S754_nan.
Proof.
  intros Hx. unfold b64_mul. destruct x as [sx | sx | | sx mx ex]; cbn [SFmul];
    try discriminate; [ contradiction | ].
  apply binary_round_aux_not_nan. lia.
Qed.

Lemma b64_truediv_not_nan (a t : Z) (m : positive) (e : Z) :
  0 < t -> b64_of_int t = S754_finite false m e -> b64_truediv a t <> S754_nan.
Proof.
  intros Ht Hft. unfold b64_truediv.
  destruct ((Z.abs a <? 2 ^ 53) && (Z.abs t <? 2 ^ 53)).
  - rewrite Hft. apply b64_div_not_nan, b64_of_int_not_nan.
  - destruct t as [ | pt | pt ]; try lia. cbn [b64_of_big_int].
    apply b64_div_not_nan. destruct a; discriminate.
Qed.

(** *** The order of binary64 on numbers *)

Lemma SFltb_false_SFleb (x y : spec_float) :
  x <> S754_nan -> y <> S754_nan -> SFltb x y = false -> SFleb y x = true.
Proof.
  intros Hx Hy. unfold SFltb, SFleb.
  destruct (SFcompare x y) as [c | ] eqn:E.
  - rewrite (SFcompare_antisym _ _ _ E). destruct c; simpl; congruence.
  - destruct x, y; simpl in E; try discriminate; contradiction.
Qed.

Lemma SFltb_SFleb (x y : spec_float) : SFltb x y = true -> SFleb x y = true.
Proof.
  unfold SFltb, SFleb. destruct (SFcompare x y) as [[ | | ] | ]; congruence.
Qed.

Lemma SFcompare_finite_Eq (s1 s2 : bool) (m1 m2 : positive) (e1 e2 : Z) :
  SFcompare (S754_finite s1 m1 e1) (S754_finite s2 m2 e2) = Some Eq <->
  s1 = s2 /\ e1 = e2 /\ m1 = m2.
Proof.
  simpl. change (Pos.compare_cont Eq m1 m2) with (Pos.compare m1 m2).
  destruct s1, s2;
    destruct (Z.compare_spec e1 e2) as [He | He | He];
    destruct (Pos.compare_spec m1 m2) as [Hm | Hm | Hm]; simpl;
    split; intros H; try reflexivity; try discriminate;
    try (repeat split; congruence);
    destruct H as [H1 [H2 H3]]; try discriminate; lia.
Qed.

Lemma SFleb_trans (x y z : spec_float) :
  SFleb x y = true -> SFleb y z = true -> SFleb x z = true.
Proof.
  unfold SFleb.
  destruct (SFcompare x y) as [[ | | ] | ] eqn:Exy; try discriminate;
    destruct (SFcompare y z) as [[ | | ] | ] eqn:Eyz; try discriminate; intros _ _.
  - assert (E : SFcompare x z = Some Eq); [ | rewrite E; reflexivity ].
    destruct x as [sx | sx | | sx mx ex], y as [sy | sy | | sy my ey],
      z as [sz | sz | | sz mz ez];
      try discriminate; try (destruct sx, sy, sz; simpl in *; congruence).
    apply SFcompare_finite_Eq in Exy. apply SFcompare_finite_Eq in Eyz.
    apply SFcompare_finite_Eq. intuition congruence.
  - assert (E : SFcompare x z = Some Lt); [ | rewrite E; reflexivity ].
    destruct x as [sx | sx | | sx mx ex], y as [sy | sy | | sy my ey],
      z as [sz | sz | | sz mz ez];
      try discriminate; try (destruct sx, sy, sz; simpl in *; congruence).
    apply SFcompare_finite_Eq in Exy. destruct Exy as [? [? ?]]. subst. exact Eyz.
  - assert (E : SFcompare x z = Some Lt); [ | rewrite E; reflexivity ].
    destruct x as [sx | sx | | sx mx ex], y as [sy | sy | | sy my ey],
      z as [sz | sz | | sz mz ez];
      try discriminate; try (destruct sx, sy, sz; simpl in *; congruence).
    apply SFcompare_finite_Eq in Eyz. destruct Eyz as [? [? ?]]. subst. exact Exy.
  - assert (E : SFltb x z = true).
    { apply (SFltb_trans x y z); unfold SFltb; [ rewrite Exy | rewrite Eyz ]; reflexivity. }
    unfold SFltb in E. destruct (SFcompare x z) as [[ | | ] | ]; congruence.
Qed.


(** *** Lookups *)

Lemma dict_lookup_In {V : Type} (d : list (string * V)) (k : string) (v : V) :
  dict_lookup d k = Some v -> In (k, v) d.
Proof.
  induction d as [ | [k' v'] d IH ]; cbn [dict_lookup]; [ discriminate | ].
  destruct (String.eqb k' k) eqn:E.
  - apply String.eqb_eq in E. subst k'. intros H. inversion H. left. reflexivity.
  - intros H. right. apply IH, H.
Qed.

Lemma dict_lookup_NoDup {V : Type} (d : list (string * V)) (k : string) (v : V) :
  NoDup (map fst d) -> In (k, v) d -> dict_lookup d k = Some v.
Proof.
  induction d as [ | [k' v'] d IH ]; intros Hnd Hin; [ destruct Hin | ].
  cbn [dict_lookup]. cbn [map fst] in Hnd. inversion Hnd as [ | ? ? Hk Hnd' ]; subst.
  destruct Hin as [Hin | Hin].
  - inversion Hin. subst. rewrite String.eqb_refl. reflexivity.
  - destruct (String.eqb k' k) eqn:E.
    + apply String.eqb_eq in E. subst k'. exfalso. apply Hk.
      apply in_map_iff. exists (k, v). split; [ reflexivity | exact Hin ].
    + apply IH; assumption.
Qed.

Lemma is_finite_pos_spec (x : spec_float) :
  is_finite_pos x = true -> exists (m : positive) (e : Z), x = S754_finite false m e.
Proof.
  destruct x as [s | s | | [ | ] m e]; try discriminate. intros _. exists m, e. reflexivity.
Qed.

Lemma target_finite (category : string) (t : Z) :
  dict_lookup target category = Some t ->
  exists (m : positive) (e : Z), b64_of_int t = S754_finite false m e.
Proof.
  intros H. apply dict_lookup_In in H. apply is_finite_pos_spec.
  assert (Hall : forallb (fun kt => is_finite_pos (b64_of_int (snd kt))) target = true)
    by (vm_compute; reflexivity).
  rewrite forallb_forall in Hall. apply (Hall _ H).
Qed.

Lemma weights_finite (category : string) (w : spec_float) :
  dict_lookup weights category = Some w ->
  exists (m : positive) (e : Z), w = S754_finite false m e.
Proof.
  intros H. apply dict_lookup_In in H. apply is_finite_pos_spec.
  assert (Hall : forallb (fun kw => is_finite_pos (snd kw)) (weights (F := spec_float)) = true)
    by (vm_compute; reflexivity).
  rewrite forallb_forall in Hall. apply (Hall _ H).
Qed.

(** *** The loop of [needed_data] *)

Lemma needed_loop_entries (F : Type) (A : Arith F) (current_data : list (string * Z))
  (items : list (string * Z)) :
  forall acc : list (needed_item F),
    (forall k c, In (k, c) items -> dict_lookup current_data k = Some c) ->
    (forall k c t, In (k, c) items -> dict_lookup target k = Some t -> 0 < t - c ->
                   too_large (truediv (t - c) t) = false) ->
    needed_loop (map fst items) current_data target acc
    = Ok (acc ++ flat_map needed_entry items)%list.
Proof.
  induction items as [ | [k c] items IH ]; intros acc Hget Hfit;
    cbn [map fst needed_loop flat_map].
  - rewrite app_nil_r. reflexivity.
  - assert (Hget' : forall k' c', In (k', c') items -> dict_lookup current_data k' = Some c').
    { intros k' c' Hin. apply Hget. right. exact Hin. }
    assert (Hfit' : forall k' c' t', In (k', c') items -> dict_lookup target k' = Some t' ->
                                     0 < t' - c' -> too_large (truediv (t' - c') t') = false).
    { intros k' c' t' Hin. apply Hfit. right. exact Hin. }
    unfold needed_entry at 1. cbn [fst snd].
    unfold dict_contains, dict_getitem.
    rewrite (Hget k c (or_introl eq_refl)).
    destruct (dict_lookup target k) as [t | ] eqn:Et; cbn [andb];
      [ | rewrite IH by assumption; reflexivity ].
    destruct (dict_lookup weights k) as [w | ] eqn:Ew;
      [ | rewrite IH by assumption; reflexivity ].
    cbn [rbind].
    destruct (0 <? t - c) eqn:En; [ | rewrite IH by assumption; reflexivity ].
    unfold py_truediv.
    rewrite (Hfit k c t (or_introl eq_refl) Et ltac:(apply Z.ltb_lt; exact En)).
    apply target_positive in Et.
    destruct (t =? 0) eqn:E0; [ apply Z.eqb_eq in E0; lia | ].
    cbn [rbind]. rewrite IH by assumption. rewrite <- app_assoc. reflexivity.
Qed.

Lemma needed_data_entries (F : Type) (A : Arith F) (current_data : list (string * Z)) :
  NoDup (map fst current_data) ->
  (forall k c t, In (k, c) current_data -> dict_lookup target k = Some t -> 0 < t - c ->
                 too_large (truediv (t - c) t) = false) ->
  needed_data current_data target = Ok (flat_map needed_entry current_data).
Proof.
  intros Hnd Hfit. unfold needed_data.
  rewrite (needed_loop_entries F A current_data current_data []);
    [ reflexivity | | exact Hfit ].
  intros k c Hin. apply dict_lookup_NoDup; assumption.
Qed.

Lemma needed_entry_In (F : Type) (A : Arith F) (kc : string * Z) (e : needed_item F) :
  In e (needed_entry kc) <->
  exists (t : Z) (w : F),
    dict_lookup target (fst kc) = Some t /\ dict_lookup weights (fst kc) = Some w /\
    snd kc < t /\
    e = {| n_category := fst kc; n_needed := t - snd kc;
           n_priority := mul (truediv (t - snd kc) t) w |}.
Proof.
  unfold needed_entry.
  destruct (dict_lookup target (fst kc)) as [t | ];
    [ | split; [ intros [] | intros [t [w [H _]]]; discriminate ] ].
  destruct (dict_lookup weights (fst kc)) as [w | ];
    [ | split; [ intros [] | intros [t' [w [_ [H _]]]]; discriminate ] ].
  destruct (0 <? t - snd kc) eqn:E.
  - apply Z.ltb_lt in E. split.
    + intros [H | []]. exists t, w. repeat split; try reflexivity; try lia. symmetry. exact H.
    + intros [t' [w' [Ht [Hw [_ He]]]]]. inversion Ht. inversion Hw. subst. left. reflexivity.
  - apply Z.ltb_ge in E. split; [ intros [] | ].
    intros [t' [w' [Ht [_ [Hlt _]]]]]. inversion Ht. subst. lia.
Qed.

Lemma needed_entries_number (current_data : list (string * Z)) :
  Forall (fun e : needed_item spec_float => n_priority e <> S754_nan)
         (flat_map needed_entry current_data).
Proof.
  apply Forall_forall. intros e He. apply in_flat_map in He.
  destruct He as [kc [_ He]]. apply needed_entry_In in He.
  destruct He as [t [w [Ht [Hw [_ He]]]]]. subst e. cbn [n_priority].
  destruct (target_finite _ _ Ht) as [mt [et Hft]].
  destruct (weights_finite _ _ Hw) as [mw [ew Hfw]]. subst w.
  change (@mul spec_float binary64) with b64_mul.
  change (@truediv spec_float binary64) with b64_truediv.
  apply b64_mul_not_nan. apply (b64_truediv_not_nan _ t mt et); [ | exact Hft ].
  apply (target_positive _ _ Ht).
Qed.

(** *** The sort *)

Lemma insert_by_priority_perm (F : Type) (A : Arith F) (x : needed_item F)
  (l : list (needed_item F)) :
  Permutation (insert_by_priority x l) (x :: l).
Proof.
  induction l as [ | y l IH ]; cbn [insert_by_priority]; [ apply Permutation_refl | ].
  destruct (ltb (n_priority x) (n_priority y)); [ | apply Permutation_refl ].
  apply Permutation_trans with (y :: x :: l); [ apply perm_skip, IH | apply perm_swap ].
Qed.

Lemma sort_by_priority_perm (F : Type) (A : Arith F) (l : list (needed_item F)) :
  Permutation (sort_by_priority l) l.
Proof.
  induction l as [ | x l IH ]; cbn [sort_by_priority fold_right]; [ apply Permutation_refl | ].
  apply Permutation_trans with (x :: sort_by_priority l);
    [ apply insert_by_priority_perm | apply perm_skip, IH ].
Qed.

Lemma insert_by_priority_sorted (x : needed_item spec_float) (l : list (needed_item spec_float)) :
  n_priority x <> S754_nan ->
  Forall (fun e => n_priority e <> S754_nan) l ->
  Sorted descending l -> Sorted descending (insert_by_priority x l).
Proof.
  intros Hx. induction l as [ | y l IH ]; intros Hl Hs; cbn [insert_by_priority].
  - constructor; constructor.
  - inversion Hl as [ | ? ? Hy Hl' ]; subst. inversion Hs as [ | ? ? Hs' Hhd ]; subst.
    change (@ltb spec_float binary64) with SFltb.
    destruct (SFltb (n_priority x) (n_priority y)) eqn:E.
    + constructor; [ apply IH; assumption | ].
      destruct l as [ | z l ]; cbn [insert_by_priority].
      * constructor. apply SFltb_SFleb, E.
      * change (@ltb spec_float binary64) with SFltb.
        destruct (SFltb (n_priority x) (n_priority z)).
        -- inversion Hhd. constructor. assumption.
        -- constructor. apply SFltb_SFleb, E.
    + constructor; [ exact Hs | ]. constructor.
      apply SFltb_false_SFleb; assumption.
Qed.

Lemma sort_by_priority_sorted (l : list (needed_item spec_float)) :
  Forall (fun e => n_priority e <> S754_nan) l ->
  Sorted descending (sort_by_priority l).
Proof.
  induction l as [ | x l IH ]; intros Hl; cbn [sort_by_priority fold_right]; [ constructor | ].
  inversion Hl as [ | ? ? Hx Hl' ]; subst.
  apply insert_by_priority_sorted; [ exact Hx | | apply IH, Hl' ].
  apply Forall_forall. intros e He.
  apply (Permutation_in _ (sort_by_priority_perm _ _ l)) in He.
  revert e He. apply Forall_forall. exact Hl'.
Qed.

Lemma descending_trans (a b c : needed_item spec_float) :
  descending a b -> descending b c -> descending a c.
Proof. unfold descending. intros H1 H2. apply (SFleb_trans _ _ _ H2 H1). Qed.

(** *** Stability *)

Lemma insert_by_priority_split (F : Type) (A : Arith F) (x : needed_item F)
  (l : list (needed_item F)) :
  exists l1 l2 : list (needed_item F),
    l = (l1 ++ l2)%list /\ insert_by_priority x l = (l1 ++ x :: l2)%list /\
    Forall (fun y => ltb (n_priority x) (n_priority y) = true) l1.
Proof.
  induction l as [ | y l [l1 [l2 [Hl [Hi Hf]]]] ]; cbn [insert_by_priority].
  - exists [], []. repeat split. constructor.
  - destruct (ltb (n_priority x) (n_priority y)) eqn:E.
    + exists (y :: l1), l2. cbn [app]. rewrite Hi, <- Hl. repeat split.
      constructor; assumption.
    + exists [], (y :: l). repeat split. constructor.
Qed.

Lemma precedes_In {X : Type} (l : list X) (a b : X) : precedes l a b -> In a l /\ In b l.
Proof.
  induction l as [ | y l IH ]; cbn [precedes]; [ intros [] | ].
  intros [[Hy Hb] | H].
  - split; [ left; exact Hy | right; exact Hb ].
  - destruct (IH H). split; right; assumption.
Qed.

Lemma precedes_insert {X : Type} (l1 l2 : list X) (x a b : X) :
  precedes (l1 ++ x :: l2) a b ->
  precedes (l1 ++ l2) a b \/ (a = x /\ In b l2) \/ (b = x /\ In a l1).
Proof.
  induction l1 as [ | y l1 IH ]; cbn [app precedes].
  - intros [[Hx Hb] | H]; [ right; left; split; [ symmetry; exact Hx | exact Hb ] | left; exact H ].
  - intros [[Hy Hb] | H].
    + apply in_app_or in Hb. destruct Hb as [Hb | [Hb | Hb]].
      * left. left. split; [ exact Hy | apply in_or_app; left; exact Hb ].
      * right. right. split; [ symmetry; exact Hb | left; exact Hy ].
      * left. left. split; [ exact Hy | apply in_or_app; right; exact Hb ].
    + destruct (IH H) as [H' | [[Ha Hb] | [Hb Ha]]].
      * left. right. exact H'.
      * right. left. split; assumption.
      * right. right. split; [ exact Hb | right; exact Ha ].
Qed.

(** Two entries that the sorted list shows in one order, the second not of
    strictly smaller priority, stood in that order before the sort. *)
Lemma sort_by_priority_stable (F : Type) (A : Arith F) (l : list (needed_item F))
  (a b : needed_item F) :
  precedes (sort_by_priority l) a b ->
  ltb (n_priority b) (n_priority a) = false ->
  precedes l a b.
Proof.
  intros H Htie. induction l as [ | x l IH ]; cbn [sort_by_priority fold_right] in H.
  - destruct H.
  - fold (sort_by_priority l) in H.
    destruct (insert_by_priority_split F A x (sort_by_priority l)) as [l1 [l2 [Hl [Hi Hf]]]].
    rewrite Hi in H. apply precedes_insert in H. rewrite <- Hl in H.
    destruct H as [H | [[Ha Hb] | [Hb Ha]]].
    + right. apply IH, H.
    + left. split; [ symmetry; exact Ha | ].
      apply (Permutation_in _ (sort_by_priority_perm F A l)).
      rewrite Hl. apply in_or_app. right. exact Hb.
    + exfalso. subst b. rewrite Forall_forall in Hf. rewrite (Hf a Ha) in Htie. discriminate.
Qed.

Lemma needed_entries_category (F : Type) (A : Arith F) (current_data : list (string * Z))
  (e : needed_item F) :
  In e (flat_map needed_entry current_data) -> In (n_category e) (map fst current_data).
Proof.
  intros H. apply in_flat_map in H. destruct H as [kc [Hkc He]].
  apply needed_entry_In in He. destruct He as [t [w [_ [_ [_ He]]]]]. subst e.
  cbn [n_category]. apply in_map. exact Hkc.
Qed.

Lemma needed_entries_order (F : Type) (A : Arith F) (current_data : list (string * Z))
  (a b : needed_item F) :
  precedes (flat_map needed_entry current_data) a b ->
  precedes (map fst current_data) (n_category a) (n_category b).
Proof.
  induction current_data as [ | kc rest IH ]; cbn [flat_map map precedes]; [ intros [] | ].
  intros H.
  assert (Hcases : (In a (needed_entry kc) /\ In b (flat_map needed_entry rest)) \/
                   precedes (flat_map needed_entry rest) a b).
  { unfold needed_entry in *.
    destruct (dict_lookup target (fst kc)) as [t | ]; [ | right; exact H ].
    destruct (dict_lookup weights (fst kc)) as [w | ]; [ | right; exact H ].
    destruct (0 <? t - snd kc); [ | right; exact H ].
    cbn [app precedes] in H. destruct H as [[Ha Hb] | H]; [ left | right; exact H ].
    split; [ left; exact Ha | exact Hb ]. }
  destruct Hcases as [[Ha Hb] | H'].
  - left. apply needed_entry_In in Ha. destruct Ha as [t [w [_ [_ [_ Ha]]]]]. subst a.
    split; [ reflexivity | ]. apply (needed_entries_category F A), Hb.
  - right. apply IH, H'.
Qed.

Lemma surfaced_flags (F : Type) (A : Arith F) (ranking : list (needed_item F)) :
  surfaced ranking
  = combine [urgent; urgent; urgent; important; important] (firstn 5 ranking).
Proof.
  unfold surfaced.
  destruct ranking as [ | a [ | b [ | c [ | d [ | e rest ] ] ] ] ]; reflexivity.
Qed.

Lemma SFeqb_not_SFltb (x y : spec_float) : SFeqb x y = true -> SFltb y x = false.
Proof.
  unfold SFeqb, SFltb. destruct (SFcompare x y) as [[ | | ] | ] eqn:E; try discriminate.
  intros _. rewrite (SFcompare_antisym _ _ _ E). reflexivity.
Qed.

(** * Rounding at binary64 *)

(** The facts of rounding the bound of the total needs: a rounded sum keeps
    a representable bound of the exact sum, a rounded quotient or product
    keeps a representable lower bound, and ints below 2^53 and their
    quotients are numbers of the format. *)

(** *** Powers of two and the digits of a mantissa *)

Lemma fexp_eq (e : Z) : fexp 53 1024 e = Z.max (e - 53) (-1074).
Proof. reflexivity. Qed.

Lemma pow2_pos (k : Z) : 0 <= k -> 0 < 2 ^ k.
Proof. intros H. apply Z.pow_pos_nonneg; lia. Qed.

Lemma pow2_add (a b : Z) : 0 <= a -> 0 <= b -> 2 ^ (a + b) = 2 ^ a * 2 ^ b.
Proof. intros Ha Hb. apply Z.pow_add_r; assumption. Qed.

Lemma pow2_le (a b : Z) : 0 <= a <= b -> 2 ^ a <= 2 ^ b.
Proof. intros H. apply Z.pow_le_mono_r; lia. Qed.

Lemma pow2_lt (a b : Z) : 0 <= a < b -> 2 ^ a < 2 ^ b.
Proof. intros H. apply Z.pow_lt_mono_r; lia. Qed.

Lemma digits2_pos_bounds (p : positive) :
  2 ^ (Zpos (digits2_pos p) - 1) <= Zpos p < 2 ^ Zpos (digits2_pos p).
Proof.
  induction p as [p IH | p IH | ]; cbn [digits2_pos];
    try pose proof (Pos2Z.is_pos (digits2_pos p)) as Hd.
  - rewrite Pos2Z.inj_succ, (Pos2Z.inj_xI p).
    replace (Z.succ (Zpos (digits2_pos p)) - 1) with (Z.succ (Zpos (digits2_pos p) - 1)) by lia.
    rewrite !Z.pow_succ_r; lia.
  - rewrite Pos2Z.inj_succ, (Pos2Z.inj_xO p).
    replace (Z.succ (Zpos (digits2_pos p)) - 1) with (Z.succ (Zpos (digits2_pos p) - 1)) by lia.
    rewrite !Z.pow_succ_r; lia.
  - cbn. lia.
Qed.

Lemma digits2_pos_unique (p : positive) (k : Z) :
  2 ^ (k - 1) <= Zpos p < 2 ^ k -> Zpos (digits2_pos p) = k.
Proof.
  intros [Hlo Hhi]. pose proof (digits2_pos_bounds p) as [Dlo Dhi].
  assert (Hk : 0 < k).
  { destruct (Z_lt_le_dec 0 k) as [H | H]; [ exact H | ].
    exfalso. destruct (Z.eq_dec k 0) as [E | E].
    - subst k. cbn in Hhi. lia.
    - rewrite Z.pow_neg_r in Hhi by lia. lia. }
  destruct (Z.lt_trichotomy (Zpos (digits2_pos p)) k) as [H | [H | H]]; [ | exact H | ].
  - exfalso. pose proof (pow2_le (Zpos (digits2_pos p)) (k - 1) ltac:(lia)). lia.
  - exfalso. pose proof (pow2_le k (Zpos (digits2_pos p) - 1) ltac:(lia)). lia.
Qed.

(** A mantissa under [2^53] at a lower exponent is below one of at least
    [2^52] at a higher exponent. *)
Lemma lower_exponent_is_smaller (a b i j : Z) :
  0 <= a < 2 ^ 53 -> 2 ^ 52 <= b -> 0 <= i < j -> a * 2 ^ i < b * 2 ^ j.
Proof.
  intros Ha Hb Hij.
  assert (Hi : 0 < 2 ^ i) by (apply pow2_pos; lia).
  assert (Hj : 2 ^ (i + 1) <= 2 ^ j) by (apply pow2_le; lia).
  rewrite pow2_add in Hj by lia. change (2 ^ 1) with 2 in Hj.
  change (2 ^ 53) with (2 * 2 ^ 52) in Ha.
  assert (H52 : 0 < 2 ^ 52) by reflexivity.
  nia.
Qed.

(** *** Shifting a mantissa to the right *)

Lemma iter_pos_comm {X : Type} (f : X -> X) (p : positive) :
  forall x : X, iter_pos f p (f x) = f (iter_pos f p x).
Proof.
  induction p as [p IH | p IH | ]; intros x; cbn [iter_pos].
  - rewrite !IH. reflexivity.
  - rewrite !IH. reflexivity.
  - reflexivity.
Qed.

Lemma iter_pos_succ {X : Type} (f : X -> X) (p : positive) (x : X) :
  iter_pos f (Pos.succ p) x = f (iter_pos f p x).
Proof.
  revert x. induction p as [p IH | p IH | ]; intros x; cbn [Pos.succ iter_pos].
  - rewrite !IH, !iter_pos_comm. reflexivity.
  - rewrite !iter_pos_comm. reflexivity.
  - reflexivity.
Qed.

Lemma shr_1_spec (m : Z) (r s : bool) :
  0 <= m ->
  shr_m (shr_1 (Build_shr_record m r s)) = m / 2 /\
  shr_r (shr_1 (Build_shr_record m r s)) = Z.odd m /\
  shr_s (shr_1 (Build_shr_record m r s)) = (r || s)%bool.
Proof.
  intros Hm. rewrite <- Z.div2_div.
  destruct m as [ | p | p ]; [ | destruct p | lia ]; cbn; repeat split; reflexivity.
Qed.

Lemma iter_shr_1_spec (p : positive) (m : Z) (r s : bool) :
  0 <= m ->
  shr_m (iter_pos shr_1 p (Build_shr_record m r s)) = m / 2 ^ Zpos p /\
  (r = false -> s = false -> m mod 2 ^ Zpos p = 0 ->
   shr_r (iter_pos shr_1 p (Build_shr_record m r s)) = false /\
   shr_s (iter_pos shr_1 p (Build_shr_record m r s)) = false).
Proof.
  intros Hm. induction p as [ | p IH ] using Pos.peano_ind.
  - cbn [iter_pos]. destruct (shr_1_spec m r s Hm) as [H1 [H2 H3]].
    change (2 ^ 1) with 2. split; [ exact H1 | ].
    intros Hr Hs Hmod. rewrite H2, H3, Hr, Hs. split; [ | reflexivity ].
    rewrite Zodd_mod, Hmod. reflexivity.
  - rewrite iter_pos_succ. destruct IH as [IHm IHe].
    destruct (iter_pos shr_1 p (Build_shr_record m r s)) as [m' r' s'] eqn:E.
    cbn [shr_m shr_r shr_s] in *.
    assert (Hm' : 0 <= m') by (subst m'; apply Z.div_pos; [ exact Hm | apply pow2_pos; lia ]).
    destruct (shr_1_spec m' r' s' Hm') as [H1 [H2 H3]].
    rewrite Pos2Z.inj_succ, Z.pow_succ_r by lia.
    split.
    + rewrite H1, IHm. rewrite Z.div_div by (try apply pow2_pos; lia).
      f_equal. lia.
    + intros Hr Hs Hmod.
      assert (Hp : 0 < 2 ^ Zpos p) by (apply pow2_pos; lia).
      assert (Hmod' : m mod 2 ^ Zpos p = 0).
      { apply Z.mod_divide in Hmod; [ | lia ]. apply Z.mod_divide; [ lia | ].
        destruct Hmod as [k Hk]. exists (k * 2). lia. }
      destruct (IHe Hr Hs Hmod') as [Hr' Hs'].
      rewrite H2, H3, Hr', Hs'. split; [ | reflexivity ].
      rewrite Zodd_mod. subst m'.
      apply Z.mod_divide in Hmod; [ | lia ]. destruct Hmod as [k Hk].
      assert (Hm2 : m = k * 2 * 2 ^ Zpos p) by (rewrite Hk; ring).
      rewrite Hm2, Z.div_mul by lia.
      rewrite Z.mod_mul by lia. reflexivity.
Qed.

Lemma loc_of_shr_record_of_loc (m : Z) (l : location) :
  loc_of_shr_record (shr_record_of_loc m l) = l.
Proof. destruct l as [ | [ | | ] ]; reflexivity. Qed.

Lemma round_nearest_even_bounds (m : Z) (l : location) :
  m <= round_nearest_even m l <= m + 1 /\ (l = loc_Exact -> round_nearest_even m l = m).
Proof.
  destruct l as [ | [ | | ] ]; cbn [round_nearest_even]; try (split; [ lia | ]);
    try (intros H; discriminate H); try reflexivity.
  destruct (Z.even m); split; try lia; intros H; discriminate H.
Qed.

(** *** Numbers of the format and their order *)

Lemma bounded_spec (m : positive) (e : Z) :
  bounded 53 1024 m e = true ->
  -1074 <= e <= 971 /\ Zpos m < 2 ^ 53 /\ (-1074 < e -> 2 ^ 52 <= Zpos m).
Proof.
  unfold bounded, canonical_mantissa. rewrite andb_true_iff, Z.eqb_eq, Z.leb_le, fexp_eq.
  intros [Hc He]. pose proof (digits2_pos_bounds m) as [Dlo Dhi].
  pose proof (Pos2Z.is_pos (digits2_pos m)) as Hd.
  assert (Hd53 : Zpos (digits2_pos m) <= 53) by lia.
  split; [ lia | split ].
  - pose proof (pow2_le (Zpos (digits2_pos m)) 53 ltac:(lia)). lia.
  - intros Hn. assert (E : Zpos (digits2_pos m) = 53) by lia. rewrite E in Dlo. exact Dlo.
Qed.

Lemma bounded_intro (m : positive) (e : Z) :
  -1074 <= e <= 971 -> Zpos m < 2 ^ 53 -> (-1074 < e -> 2 ^ 52 <= Zpos m) ->
  bounded 53 1024 m e = true.
Proof.
  intros He Hm Hn. unfold bounded, canonical_mantissa.
  rewrite andb_true_iff, Z.eqb_eq, Z.leb_le, fexp_eq. split; [ | lia ].
  pose proof (digits2_pos_bounds m) as [Dlo Dhi].
  pose proof (Pos2Z.is_pos (digits2_pos m)) as Hd.
  assert (Hd53 : Zpos (digits2_pos m) <= 53).
  { destruct (Z_le_gt_dec (Zpos (digits2_pos m)) 53) as [H | H]; [ exact H | ].
    pose proof (pow2_le 53 (Zpos (digits2_pos m) - 1) ltac:(lia)). lia. }
  destruct (Z.eq_dec e (-1074)) as [E | E]; [ lia | ].
  assert (E53 : Zpos (digits2_pos m) = 53); [ | lia ].
  apply digits2_pos_unique. split; [ apply Hn; lia | exact Hm ].
Qed.

Lemma SFleb_finite_pos (m1 m2 : positive) (e1 e2 : Z) :
  SFleb (S754_finite false m1 e1) (S754_finite false m2 e2) = true <->
  e1 < e2 \/ (e1 = e2 /\ Zpos m1 <= Zpos m2).
Proof.
  unfold SFleb. cbn [SFcompare].
  change (Pos.compare_cont Eq m1 m2) with (Pos.compare m1 m2).
  destruct (Z.compare_spec e1 e2) as [He | He | He];
    destruct (Pos.compare_spec m1 m2) as [Hm | Hm | Hm];
    split; intros H; try reflexivity; try discriminate; try lia.
Qed.

Lemma SFleb_scaled (m1 m2 : positive) (e1 e2 : Z) :
  bounded 53 1024 m1 e1 = true -> bounded 53 1024 m2 e2 = true ->
  (SFleb (S754_finite false m1 e1) (S754_finite false m2 e2) = true <->
   b64_scaled m1 e1 <= b64_scaled m2 e2).
Proof.
  intros B1 B2. apply bounded_spec in B1, B2.
  destruct B1 as [He1 [Hm1 Hn1]]. destruct B2 as [He2 [Hm2 Hn2]].
  rewrite SFleb_finite_pos. unfold b64_scaled.
  destruct (Z.lt_trichotomy e1 e2) as [H | [H | H]].
  - pose proof (lower_exponent_is_smaller (Zpos m1) (Zpos m2) (e1 + 1074) (e2 + 1074)
                  ltac:(lia) ltac:(apply Hn2; lia) ltac:(lia)).
    split; intros _; lia.
  - subst e2. assert (Hp : 0 < 2 ^ (e1 + 1074)) by (apply pow2_pos; lia).
    split; [ intros [Hlt | [_ Hle]]; [ lia | nia ] | intros Hle; right; split; [ reflexivity | nia ] ].
  - pose proof (lower_exponent_is_smaller (Zpos m2) (Zpos m1) (e2 + 1074) (e1 + 1074)
                  ltac:(lia) ltac:(apply Hn1; lia) ltac:(lia)).
    split; [ intros [Hlt | [Heq _]]; lia | intros Hle; lia ].
Qed.

(** *** One rounding *)

Lemma shr_fexp_spec (m : positive) (e : Z) (l : location) :
  e <= fexp 53 1024 (Zpos (digits2_pos m) + e) ->
  exists mrs : shr_record,
    shr_fexp 53 1024 (Zpos m) e l = (mrs, fexp 53 1024 (Zpos (digits2_pos m) + e)) /\
    shr_m mrs = Zpos m / 2 ^ (fexp 53 1024 (Zpos (digits2_pos m) + e) - e) /\
    (l = loc_Exact ->
     Zpos m mod 2 ^ (fexp 53 1024 (Zpos (digits2_pos m) + e) - e) = 0 ->
     loc_of_shr_record mrs = loc_Exact).
Proof.
  intros Hpre. unfold shr_fexp, shr. cbn [Zdigits2].
  destruct (fexp 53 1024 (Zpos (digits2_pos m) + e) - e) as [ | n | n ] eqn:En.
  - exists (shr_record_of_loc (Zpos m) l). split; [ f_equal; lia | split ].
    + change (2 ^ 0) with 1. rewrite Z.div_1_r. destruct l as [ | [ | | ] ]; reflexivity.
    + intros Hl _. rewrite loc_of_shr_record_of_loc. exact Hl.
  - exists (iter_pos shr_1 n (shr_record_of_loc (Zpos m) l)).
    split; [ f_equal; lia | ].
    assert (Hrec : exists r s, shr_record_of_loc (Zpos m) l = Build_shr_record (Zpos m) r s /\
                               (l = loc_Exact -> r = false /\ s = false)).
    { destruct l as [ | [ | | ] ]; eexists; eexists; (split; [ reflexivity | ]);
        intros H; try discriminate H; split; reflexivity. }
    destruct Hrec as [r [s [Hrec Hex]]]. rewrite Hrec.
    destruct (iter_shr_1_spec n (Zpos m) r s ltac:(lia)) as [Hm He].
    split; [ exact Hm | ].
    intros Hl Hmod. destruct (Hex Hl) as [Hr Hs]. destruct (He Hr Hs Hmod) as [Hr' Hs'].
    destruct (iter_pos shr_1 n (Build_shr_record (Zpos m) r s)) as [m' r' s'].
    cbn [shr_r shr_s] in *. subst r' s'. reflexivity.
  - lia.
Qed.

(** The mantissa cut to the exponent of the format has at most 53 digits,
    and exactly 53 above the least exponent. *)
Lemma cut_mantissa_bounds (m : positive) (e : Z) :
  -1074 <= e ->
  e <= fexp 53 1024 (Zpos (digits2_pos m) + e) ->
  1 <= Zpos m / 2 ^ (fexp 53 1024 (Zpos (digits2_pos m) + e) - e) < 2 ^ 53 /\
  (-1074 < fexp 53 1024 (Zpos (digits2_pos m) + e) ->
   2 ^ 52 <= Zpos m / 2 ^ (fexp 53 1024 (Zpos (digits2_pos m) + e) - e)).
Proof.
  intros Hemin Hpre.
  set (d := Zpos (digits2_pos m)) in *.
  set (e1 := fexp 53 1024 (d + e)) in *.
  set (n := e1 - e) in *.
  assert (He1 : e1 = Z.max (d + e - 53) (-1074)) by (unfold e1; apply fexp_eq).
  pose proof (digits2_pos_bounds m) as [Dlo Dhi]. fold d in Dlo, Dhi.
  pose proof (Pos2Z.is_pos (digits2_pos m)) as Hd. fold d in Hd.
  assert (Hn : 0 <= n) by (unfold n; lia).
  assert (Hpn : 0 < 2 ^ n) by (apply pow2_pos; exact Hn).
  assert (Hhi : Zpos m / 2 ^ n < 2 ^ 53).
  { apply Z.div_lt_upper_bound; [ exact Hpn | ].
    rewrite <- pow2_add by lia.
    pose proof (pow2_le d (n + 53) ltac:(unfold n; lia)). lia. }
  destruct (Z.eq_dec e1 (-1074)) as [E | E].
  - assert (n = 0) by (unfold n; lia).
    split; [ | lia ]. replace n with 0 in * by lia. change (2 ^ 0) with 1 in *.
    rewrite Z.div_1_r in *. lia.
  - assert (Hn53 : n = d - 53) by (unfold n; lia).
    assert (H52 : 2 ^ 52 <= Zpos m / 2 ^ n).
    { apply Z.div_le_lower_bound; [ exact Hpn | ].
      rewrite Z.mul_comm, <- pow2_add by lia.
      replace (52 + n) with (d - 1) by lia. exact Dlo. }
    split; [ | intros _; exact H52 ].
    assert (0 < 2 ^ 52) by reflexivity. lia.
Qed.

(** [binary_round_aux] on a positive mantissa [m] at exponent [e], no coarser
    than the format: the mantissa is cut to [m1 = m / 2^n] at the exponent
    [e1] of the format and rounded to [m2], which is [m1] or [m1 + 1], and
    [m1] when nothing was cut off; the result is the number [m2 * 2^e1], or
    infinity when that is [2^1024] or more. *)
Lemma binary_round_aux_spec (m : positive) (e : Z) (l : location) :
  -1074 <= e ->
  e <= fexp 53 1024 (Zpos (digits2_pos m) + e) ->
  exists m2 : Z,
    Zpos m / 2 ^ (fexp 53 1024 (Zpos (digits2_pos m) + e) - e) <= m2
      <= Zpos m / 2 ^ (fexp 53 1024 (Zpos (digits2_pos m) + e) - e) + 1 /\
    (l = loc_Exact ->
     Zpos m mod 2 ^ (fexp 53 1024 (Zpos (digits2_pos m) + e) - e) = 0 ->
     m2 = Zpos m / 2 ^ (fexp 53 1024 (Zpos (digits2_pos m) + e) - e)) /\
    ((binary_round_aux 53 1024 false (Zpos m) e l = S754_infinity false /\
      2 ^ (1024 + 1074) <= m2 * 2 ^ (fexp 53 1024 (Zpos (digits2_pos m) + e) + 1074)) \/
     (exists (mr : positive) (er : Z),
         binary_round_aux 53 1024 false (Zpos m) e l = S754_finite false mr er /\
         bounded 53 1024 mr er = true /\
         b64_scaled mr er = m2 * 2 ^ (fexp 53 1024 (Zpos (digits2_pos m) + e) + 1074))).
Proof.
  intros Hemin Hpre.
  destruct (shr_fexp_spec m e l Hpre) as [mrs' [Hshr [Hm1 Hl1]]].
  set (d := Zpos (digits2_pos m)) in *.
  set (e1 := fexp 53 1024 (d + e)) in *.
  set (n := e1 - e) in *.
  assert (He1 : e1 = Z.max (d + e - 53) (-1074)) by (unfold e1; apply fexp_eq).
  pose proof (digits2_pos_bounds m) as [Dlo Dhi]. fold d in Dlo, Dhi.
  pose proof (Pos2Z.is_pos (digits2_pos m)) as Hd. fold d in Hd.
  assert (Hn : 0 <= n) by (unfold n; lia).
  assert (Hpn : 0 < 2 ^ n) by (apply pow2_pos; exact Hn).
  set (m1 := Zpos m / 2 ^ n) in *.
  destruct (cut_mantissa_bounds m e Hemin Hpre) as [[Hm1pos Hm1hi] Hm1norm].
  fold d e1 n m1 in Hm1pos, Hm1hi, Hm1norm.
  destruct (round_nearest_even_bounds m1 (loc_of_shr_record mrs')) as [[Hr1 Hr2] Hrex].
  set (m2 := round_nearest_even m1 (loc_of_shr_record mrs')) in *.
  exists m2.
  split; [ split; assumption | ].
  split; [ intros Hl Hmod; apply Hrex, Hl1; assumption | ].
  unfold binary_round_aux. rewrite Hshr. rewrite Hm1. fold n m1 m2.
  assert (Hm2pos : 0 < m2) by lia.
  destruct m2 as [ | p2 | p2 ] eqn:Em2; try lia.
  pose proof (digits2_pos_bounds p2) as [D2lo D2hi].
  pose proof (Pos2Z.is_pos (digits2_pos p2)) as Hd2.
  destruct (Z_lt_le_dec (Zpos p2) (2 ^ 53)) as [Hlt | Hge].
  - (* no carry: the rounded mantissa fits *)
    assert (Hd2le : Zpos (digits2_pos p2) <= 53).
    { destruct (Z_le_gt_dec (Zpos (digits2_pos p2)) 53) as [H | H]; [ exact H | ].
      pose proof (pow2_le 53 (Zpos (digits2_pos p2) - 1) ltac:(lia)). lia. }
    assert (Hcanon : fexp 53 1024 (Zpos (digits2_pos p2) + e1) = e1).
    { rewrite fexp_eq. destruct (Z.eq_dec e1 (-1074)) as [E | E]; [ lia | ].
      assert (E53 : Zpos (digits2_pos p2) = 53); [ | lia ].
      apply digits2_pos_unique. split; [ | exact Hlt ].
      pose proof (Hm1norm ltac:(lia)). lia. }
    destruct (shr_fexp_spec p2 e1 loc_Exact ltac:(lia)) as [mrs'' [Hshr2 [Hm2' _]]].
    rewrite Hshr2, Hm2', Hcanon. replace (e1 - e1) with 0 by lia.
    change (2 ^ 0) with 1. rewrite Z.div_1_r.
    destruct (e1 <=? 1024 - 53) eqn:Eov.
    + apply Z.leb_le in Eov. right. exists p2, e1.
      split; [ reflexivity | split; [ | reflexivity ] ].
      apply bounded_intro; [ lia | exact Hlt | ].
      intros Hnorm. pose proof (Hm1norm Hnorm). lia.
    + apply Z.leb_gt in Eov. left. split; [ reflexivity | ].
      pose proof (Hm1norm ltac:(lia)) as H52.
      pose proof (pow2_le (1024 + 1074 - 52) (e1 + 1074) ltac:(lia)) as Hp.
      replace (1024 + 1074) with (52 + (1024 + 1074 - 52)) by lia.
      rewrite pow2_add by lia.
      assert (0 < 2 ^ (1024 + 1074 - 52)) by (apply pow2_pos; lia).
      assert (0 < 2 ^ 52) by reflexivity. nia.
  - (* carry: the rounded mantissa is 2^53 *)
    assert (Ep2 : Zpos p2 = 2 ^ 53) by lia.
    assert (Hd2eq : Zpos (digits2_pos p2) = 54).
    { apply digits2_pos_unique. rewrite Ep2. split; [ lia | ].
      apply pow2_lt. lia. }
    assert (Hnext : fexp 53 1024 (Zpos (digits2_pos p2) + e1) = e1 + 1).
    { rewrite fexp_eq. lia. }
    destruct (shr_fexp_spec p2 e1 loc_Exact ltac:(lia)) as [mrs'' [Hshr2 [Hm2' _]]].
    rewrite Hshr2, Hm2', Hnext. replace (e1 + 1 - e1) with 1 by lia.
    rewrite Ep2. change (2 ^ 53 / 2 ^ 1) with (Zpos (2 ^ 52)).
    destruct (e1 + 1 <=? 1024 - 53) eqn:Eov.
    + apply Z.leb_le in Eov. right. exists (2 ^ 52)%positive, (e1 + 1).
      split; [ reflexivity | split ].
      * apply bounded_intro; [ lia | reflexivity | intros _; apply Z.le_refl ].
      * unfold b64_scaled. replace (e1 + 1 + 1074) with (1 + (e1 + 1074)) by lia.
        rewrite pow2_add by lia.
        change (Zpos (2 ^ 52)) with (2 ^ 52). change (2 ^ 53) with (2 ^ 52 * 2 ^ 1). ring.
    + apply Z.leb_gt in Eov. left. split; [ reflexivity | ].
      pose proof (pow2_le (1024 + 1074 - 53) (e1 + 1074) ltac:(lia)) as Hp.
      replace (1024 + 1074) with (53 + (1024 + 1074 - 53)) by lia.
      rewrite pow2_add by lia.
      assert (0 < 2 ^ (1024 + 1074 - 53)) by (apply pow2_pos; lia).
      assert (0 < 2 ^ 53) by reflexivity. nia.
Qed.

(** A number of the format that is at most the value given to the rounding is
    at most its result. *)
Lemma round_lower (m : positive) (e : Z) (l : location) (mB : positive) (eB : Z) :
  -1074 <= e ->
  e <= fexp 53 1024 (Zpos (digits2_pos m) + e) ->
  bounded 53 1024 mB eB = true ->
  b64_scaled mB eB <= Zpos m * 2 ^ (e + 1074) ->
  binary_round_aux 53 1024 false (Zpos m) e l = S754_infinity false \/
  exists (mr : positive) (er : Z),
    binary_round_aux 53 1024 false (Zpos m) e l = S754_finite false mr er /\
    bounded 53 1024 mr er = true /\
    b64_scaled mB eB <= b64_scaled mr er.
Proof.
  intros Hemin Hpre HB Hle.
  destruct (binary_round_aux_spec m e l Hemin Hpre) as [m2 [[Hlo Hhi] [_ Hres]]].
  destruct (cut_mantissa_bounds m e Hemin Hpre) as [[Hm1pos Hm1hi] Hm1norm].
  set (e1 := fexp 53 1024 (Zpos (digits2_pos m) + e)) in *.
  set (n := e1 - e) in *.
  set (m1 := Zpos m / 2 ^ n) in *.
  assert (Hn : 0 <= n) by (unfold n; lia).
  assert (Hpn : 0 < 2 ^ n) by (apply pow2_pos; exact Hn).
  assert (Hu : 0 < 2 ^ (e + 1074)) by (apply pow2_pos; lia).
  assert (Hg : 2 ^ (e1 + 1074) = 2 ^ n * 2 ^ (e + 1074)).
  { rewrite <- pow2_add by lia. f_equal. unfold n. lia. }
  apply bounded_spec in HB as HB'. destruct HB' as [HeB [HmB HnB]].
  assert (Hcut : b64_scaled mB eB <= m1 * 2 ^ (e1 + 1074)).
  { unfold b64_scaled in *. destruct (Z_le_gt_dec e1 eB) as [Hc | Hc].
    - assert (Hsplit : 2 ^ (eB + 1074) = 2 ^ (eB - e1) * 2 ^ (e1 + 1074)).
      { rewrite <- pow2_add by lia. f_equal. lia. }
      assert (Hk : 0 < 2 ^ (eB - e1)) by (apply pow2_pos; lia).
      assert (Hkm : Zpos mB * 2 ^ (eB - e1) <= m1).
      { unfold m1. apply Z.div_le_lower_bound; [ exact Hpn | ].
        rewrite Hsplit, Hg in Hle. nia. }
      rewrite Hsplit. assert (0 < 2 ^ (e1 + 1074)) by (apply pow2_pos; lia). nia.
    - pose proof (lower_exponent_is_smaller (Zpos mB) m1 (eB + 1074) (e1 + 1074)
                    ltac:(lia) ltac:(apply Hm1norm; lia) ltac:(lia)). lia. }
  assert (Hm2 : m1 * 2 ^ (e1 + 1074) <= m2 * 2 ^ (e1 + 1074)).
  { assert (0 < 2 ^ (e1 + 1074)) by (apply pow2_pos; lia). nia. }
  destruct Hres as [[Hinf _] | [mr [er [Hfin [Hb Hv]]]]].
  - left. exact Hinf.
  - right. exists mr, er. split; [ exact Hfin | split; [ exact Hb | ] ]. lia.
Qed.

(** A number of the format that is at least the value given exactly to the
    rounding is at least its result, which is a number of the format. *)
Lemma round_upper (m : positive) (e : Z) (mB : positive) (eB : Z) :
  -1074 <= e ->
  e <= fexp 53 1024 (Zpos (digits2_pos m) + e) ->
  bounded 53 1024 mB eB = true ->
  Zpos m * 2 ^ (e + 1074) <= b64_scaled mB eB ->
  exists (mr : positive) (er : Z),
    binary_round_aux 53 1024 false (Zpos m) e loc_Exact = S754_finite false mr er /\
    bounded 53 1024 mr er = true /\
    b64_scaled mr er <= b64_scaled mB eB.
Proof.
  intros Hemin Hpre HB Hle.
  destruct (binary_round_aux_spec m e loc_Exact Hemin Hpre) as [m2 [[Hlo Hhi] [Hex Hres]]].
  destruct (cut_mantissa_bounds m e Hemin Hpre) as [[Hm1pos Hm1hi] Hm1norm].
  set (e1 := fexp 53 1024 (Zpos (digits2_pos m) + e)) in *.
  set (n := e1 - e) in *.
  set (m1 := Zpos m / 2 ^ n) in *.
  assert (Hn : 0 <= n) by (unfold n; lia).
  assert (Hpn : 0 < 2 ^ n) by (apply pow2_pos; exact Hn).
  assert (Hu : 0 < 2 ^ (e + 1074)) by (apply pow2_pos; lia).
  assert (Hg1 : 0 < 2 ^ (e1 + 1074)) by (apply pow2_pos; lia).
  assert (Hg : 2 ^ (e1 + 1074) = 2 ^ n * 2 ^ (e + 1074)).
  { rewrite <- pow2_add by lia. f_equal. unfold n. lia. }
  apply bounded_spec in HB as HB'. destruct HB' as [HeB [HmB HnB]].
  pose proof (Z.div_mod (Zpos m) (2 ^ n) ltac:(lia)) as Hdm. fold m1 in Hdm.
  pose proof (Z.mod_pos_bound (Zpos m) (2 ^ n) Hpn) as Hmod.
  assert (Hround : m2 * 2 ^ (e1 + 1074) <= b64_scaled mB eB).
  { unfold b64_scaled in *.
    destruct (Z.eq_dec (Zpos m mod 2 ^ n) 0) as [Hz | Hnz].
    - rewrite (Hex eq_refl Hz). rewrite Hg. nia.
    - destruct (Z_le_gt_dec e1 eB) as [Hc | Hc].
      + assert (Hsplit : 2 ^ (eB + 1074) = 2 ^ (eB - e1) * 2 ^ (e1 + 1074)).
        { rewrite <- pow2_add by lia. f_equal. lia. }
        assert (Hk : 0 < 2 ^ (eB - e1)) by (apply pow2_pos; lia).
        assert (Hkm : m1 + 1 <= Zpos mB * 2 ^ (eB - e1)).
        { rewrite Hsplit, Hg in Hle.
          assert (Hlt : m1 * 2 ^ n < Zpos mB * 2 ^ (eB - e1) * 2 ^ n) by nia.
          nia. }
        rewrite Hsplit. nia.
      + exfalso.
        pose proof (lower_exponent_is_smaller (Zpos mB) m1 (eB + 1074) (e1 + 1074)
                      ltac:(lia) ltac:(apply Hm1norm; lia) ltac:(lia)) as Hsmall.
        rewrite Hg in Hsmall. nia. }
  destruct Hres as [[_ Hbig] | [mr [er [Hfin [Hb Hv]]]]].
  - exfalso. unfold b64_scaled in Hround.
    pose proof (pow2_le (eB + 1074) (971 + 1074) ltac:(lia)) as Hp.
    assert (Hlim : Zpos mB * 2 ^ (eB + 1074) < 2 ^ 53 * 2 ^ (971 + 1074)).
    { assert (0 < 2 ^ (eB + 1074)) by (apply pow2_pos; lia). nia. }
    rewrite <- pow2_add in Hlim by lia. change (53 + (971 + 1074)) with (1024 + 1074) in Hlim.
    lia.
  - exists mr, er. split; [ exact Hfin | split; [ exact Hb | ] ]. lia.
Qed.

(** *** The operations *)

Lemma iter_xO_scaled (m k : positive) : Zpos (Pos.iter xO m k) = Zpos m * 2 ^ Zpos k.
Proof.
  induction k as [ | k IH ] using Pos.peano_ind.
  - cbn [Pos.iter]. rewrite Pos2Z.inj_xO. change (2 ^ 1) with 2. lia.
  - rewrite Pos.iter_succ, Pos2Z.inj_xO, IH, Pos2Z.inj_succ, Z.pow_succ_r by lia. lia.
Qed.

(** The mantissa that [shl_align] returns, and the value it keeps. *)
Lemma shl_align_spec (m : positive) (e e' : Z) :
  (e' < e ->
   snd (shl_align m e e') = e' /\ Zpos (fst (shl_align m e e')) = Zpos m * 2 ^ (e - e')) /\
  (e <= e' -> shl_align m e e' = (m, e)).
Proof.
  unfold shl_align. destruct (e' - e) as [ | k | k ] eqn:E; split; intros H; try lia;
    try reflexivity.
  cbn [fst snd]. split; [ reflexivity | ]. rewrite iter_xO_scaled. f_equal. f_equal. lia.
Qed.

Lemma digits2_pos_shift (m mz : positive) (k : Z) :
  0 <= k -> Zpos mz = Zpos m * 2 ^ k -> Zpos (digits2_pos mz) = Zpos (digits2_pos m) + k.
Proof.
  intros Hk Hmz. apply digits2_pos_unique. rewrite Hmz.
  pose proof (digits2_pos_bounds m) as [Dlo Dhi].
  pose proof (Pos2Z.is_pos (digits2_pos m)) as Hd.
  assert (Hp : 0 < 2 ^ k) by (apply pow2_pos; exact Hk).
  replace (Zpos (digits2_pos m) + k - 1) with (Zpos (digits2_pos m) - 1 + k) by lia.
  rewrite !pow2_add by lia. nia.
Qed.

(** [binary_round] is one rounding of the same value, the mantissa first
    brought to the exponent of the format where it was coarser. *)
Lemma binary_round_normalized (m : positive) (e : Z) :
  -1074 <= e ->
  exists (mz : positive) (ez : Z),
    binary_round 53 1024 false m e = binary_round_aux 53 1024 false (Zpos mz) ez loc_Exact /\
    -1074 <= ez /\
    ez <= fexp 53 1024 (Zpos (digits2_pos mz) + ez) /\
    Zpos mz * 2 ^ (ez + 1074) = Zpos m * 2 ^ (e + 1074).
Proof.
  intros Hemin. unfold binary_round.
  pose proof (fexp_eq (Zpos (digits2_pos m) + e)) as Hf.
  set (f := fexp 53 1024 (Zpos (digits2_pos m) + e)) in *.
  destruct (shl_align_spec m e f) as [Hshift Hkeep].
  destruct (Z_lt_le_dec f e) as [Hlt | Hle].
  - destruct (Hshift Hlt) as [Hez Hmz].
    destruct (shl_align m e f) as [mz ez].
    cbn [fst snd] in Hez, Hmz. subst ez.
    exists mz, f.
    assert (Hdz : Zpos (digits2_pos mz) = Zpos (digits2_pos m) + (e - f)).
    { apply (digits2_pos_shift m mz (e - f)); [ lia | exact Hmz ]. }
    split; [ reflexivity | split; [ lia | split ] ].
    + rewrite Hdz.
      replace (Zpos (digits2_pos m) + (e - f) + f) with (Zpos (digits2_pos m) + e) by lia.
      fold f. lia.
    + rewrite Hmz, <- Z.mul_assoc, <- pow2_add by lia. f_equal. f_equal. lia.
  - rewrite (Hkeep Hle). exists m, e. split; [ reflexivity | split; [ exact Hemin | split ] ].
    + exact Hle.
    + reflexivity.
Qed.

Lemma b64_of_int_lower (c : positive) (mB : positive) (eB : Z) :
  bounded 53 1024 mB eB = true ->
  b64_scaled mB eB <= Zpos c * 2 ^ 1074 ->
  b64_of_int (Zpos c) = S754_infinity false \/
  exists (mr : positive) (er : Z),
    b64_of_int (Zpos c) = S754_finite false mr er /\
    bounded 53 1024 mr er = true /\
    b64_scaled mB eB <= b64_scaled mr er.
Proof.
  intros HB Hle. unfold b64_of_int. cbn [binary_normalize].
  destruct (binary_round_normalized c 0 ltac:(lia)) as [mz [ez [Hr [Hez [Hpre Hv]]]]].
  rewrite Hr. apply round_lower; try assumption.
  rewrite Hv. exact Hle.
Qed.

(** The quotient of two normal numbers of the format, the first at least the
    second, is at least one. *)
Lemma b64_div_lower (mx my : positive) (ex ey : Z) :
  bounded 53 1024 mx ex = true -> bounded 53 1024 my ey = true ->
  2 ^ 52 <= Zpos mx -> 2 ^ 52 <= Zpos my ->
  b64_scaled my ey <= b64_scaled mx ex ->
  b64_div (S754_finite false mx ex) (S754_finite false my ey) = S754_infinity false \/
  exists (mr : positive) (er : Z),
    b64_div (S754_finite false mx ex) (S754_finite false my ey) = S754_finite false mr er /\
    bounded 53 1024 mr er = true /\
    2 ^ 1074 <= b64_scaled mr er.
Proof.
  intros Bx By Nx Ny Hle.
  apply bounded_spec in Bx as Bx'. destruct Bx' as [Hex [Hmx _]].
  apply bounded_spec in By as By'. destruct By' as [Hey [Hmy _]].
  assert (Hdx : Zpos (digits2_pos mx) = 53) by (apply digits2_pos_unique; split; assumption).
  assert (Hdy : Zpos (digits2_pos my) = 53) by (apply digits2_pos_unique; split; assumption).
  assert (Hexp : ey <= ex).
  { destruct (Z_le_gt_dec ey ex) as [H | H]; [ exact H | ]. exfalso.
    pose proof (lower_exponent_is_smaller (Zpos mx) (Zpos my) (ex + 1074) (ey + 1074)
                  ltac:(lia) Ny ltac:(lia)).
    unfold b64_scaled in Hle. lia. }
  unfold b64_div. cbn [SFdiv xorb]. unfold SFdiv_core_binary. cbn [Zdigits2].
  rewrite Hdx, Hdy.
  replace (53 + ex - (53 + ey)) with (ex - ey) by lia.
  assert (Hfe : fexp 53 1024 (ex - ey) = ex - ey - 53) by (rewrite fexp_eq; lia).
  rewrite Hfe. rewrite Z.min_l by lia.
  replace (ex - ey - (ex - ey - 53)) with 53 by lia.
  rewrite Z.shiftl_mul_pow2 by lia.
  pose proof (Z.div_eucl_eq (Zpos mx * 2 ^ 53) (Zpos my) ltac:(lia)) as Heq.
  pose proof (Z.mod_pos_bound (Zpos mx * 2 ^ 53) (Zpos my) ltac:(lia)) as Hmod.
  assert (Hq : fst (Z.div_eucl (Zpos mx * 2 ^ 53) (Zpos my)) = Zpos mx * 2 ^ 53 / Zpos my)
    by reflexivity.
  destruct (Z.div_eucl (Zpos mx * 2 ^ 53) (Zpos my)) as [q r]. cbn [fst] in Hq.
  assert (H52 : 0 < 2 ^ 52) by reflexivity.
  assert (H53 : 2 ^ 53 = 2 * 2 ^ 52) by reflexivity.
  assert (Hq52 : 2 ^ 52 <= q).
  { rewrite Hq. apply Z.div_le_lower_bound; [ lia | ]. nia. }
  destruct q as [ | pq | pq ]; try lia.
  pose proof (digits2_pos_bounds pq) as [Dlo Dhi].
  assert (Hdq : 53 <= Zpos (digits2_pos pq)).
  { destruct (Z_le_gt_dec 53 (Zpos (digits2_pos pq))) as [H | H]; [ exact H | ].
    pose proof (Pos2Z.is_pos (digits2_pos pq)).
    pose proof (pow2_le (Zpos (digits2_pos pq)) 52 ltac:(lia)). lia. }
  apply (round_lower pq (ex - ey - 53) (new_location (Zpos my) r) (2 ^ 52)%positive (-52)).
  - lia.
  - rewrite fexp_eq. lia.
  - reflexivity.
  - change (b64_scaled (2 ^ 52) (-52)) with (2 ^ 1074).
    unfold b64_scaled in Hle.
    set (dl := ex - ey) in *.
    assert (Hmxy : Zpos my <= Zpos mx * 2 ^ dl).
    { replace (ex + 1074) with (dl + (ey + 1074)) in Hle by (unfold dl; lia).
      rewrite (pow2_add dl (ey + 1074)) in Hle by (unfold dl; lia).
      assert (0 < 2 ^ (ey + 1074)) by (apply pow2_pos; lia). nia. }
    destruct (Z_le_gt_dec dl 53) as [Hd | Hd].
    + assert (Hqlow : 2 ^ (53 - dl) <= Zpos pq).
      { rewrite Hq. apply Z.div_le_lower_bound; [ lia | ].
        replace (2 ^ 53) with (2 ^ (dl + (53 - dl))) by (f_equal; lia).
        rewrite (pow2_add dl (53 - dl)) by (unfold dl; lia).
        assert (0 < 2 ^ (53 - dl)) by (apply pow2_pos; lia). nia. }
      replace (2 ^ 1074) with (2 ^ ((53 - dl) + (dl - 53 + 1074))) by (f_equal; lia).
      rewrite (pow2_add (53 - dl) (dl - 53 + 1074)) by (unfold dl; lia).
      assert (0 < 2 ^ (dl - 53 + 1074)) by (apply pow2_pos; unfold dl; lia). nia.
    + pose proof (pow2_le 1074 (dl - 53 + 1074) ltac:(lia)).
      assert (0 < 2 ^ (dl - 53 + 1074)) by (apply pow2_pos; lia). nia.
Qed.

(** A number of the format that is at least one, times 100.0, is at least
    100.0. *)
Lemma b64_mul_100_lower (mx : positive) (ex : Z) :
  bounded 53 1024 mx ex = true ->
  2 ^ 1074 <= b64_scaled mx ex ->
  SFleb (b64_of_int 100) (b64_mul (S754_finite false mx ex) (b64_of_int 100)) = true.
Proof.
  intros Bx Hone.
  apply bounded_spec in Bx as Bx'. destruct Bx' as [Hex [Hmx Hnx]].
  unfold b64_scaled in Hone.
  assert (Hex52 : -53 < ex).
  { destruct (Z_lt_le_dec (-53) ex) as [H | H]; [ exact H | ]. exfalso.
    pose proof (pow2_le (ex + 1074) 1021 ltac:(lia)) as Hp.
    assert (Hsplit : 2 ^ 1074 = 2 ^ 53 * 2 ^ 1021) by reflexivity.
    assert (0 < 2 ^ (ex + 1074)) by (apply pow2_pos; lia). nia. }
  pose proof (Hnx ltac:(lia)) as Hnorm.
  change (b64_of_int 100) with (S754_finite false 7036874417766400 (-46)).
  unfold b64_mul. cbn [SFmul xorb].
  assert (H52 : 0 < 2 ^ 52) by reflexivity.
  pose proof (digits2_pos_bounds (mx * 7036874417766400)) as [Dlo Dhi].
  assert (Hd : 105 <= Zpos (digits2_pos (mx * 7036874417766400))).
  { destruct (Z_le_gt_dec 105 (Zpos (digits2_pos (mx * 7036874417766400)))) as [H | H];
      [ exact H | ].
    pose proof (Pos2Z.is_pos (digits2_pos (mx * 7036874417766400))).
    pose proof (pow2_le (Zpos (digits2_pos (mx * 7036874417766400))) 104 ltac:(lia)) as Hp.
    rewrite Pos2Z.inj_mul in Dhi.
    assert (H104 : 2 ^ 104 = 2 ^ 52 * 2 ^ 52) by reflexivity.
    assert (2 ^ 52 <= 7036874417766400) by (vm_compute; discriminate).
    nia. }
  destruct (round_lower (mx * 7036874417766400) (ex + -46) loc_Exact 7036874417766400 (-46))
    as [Hinf | [mr [er [Hfin [Hb Hv]]]]].
  - lia.
  - rewrite fexp_eq. lia.
  - reflexivity.
  - unfold b64_scaled. rewrite Pos2Z.inj_mul.
    replace (ex + -46 + 1074) with ((ex + 53) + 975) by lia.
    change (2 ^ (-46 + 1074)) with (2 ^ 53 * 2 ^ 975).
    rewrite (pow2_add (ex + 53) 975) by lia.
    assert (Hx : 2 ^ 53 <= Zpos mx * 2 ^ (ex + 53)).
    { replace (ex + 1074) with ((ex + 53) + 1021) in Hone by lia.
      change (2 ^ 1074) with (2 ^ 53 * 2 ^ 1021) in Hone.
      rewrite (pow2_add (ex + 53) 1021) in Hone by lia.
      assert (0 < 2 ^ 1021) by reflexivity. nia. }
    assert (0 < 2 ^ 975) by reflexivity.
    assert (0 < 7036874417766400) by reflexivity.
    nia.
  - rewrite Hinf. reflexivity.
  - rewrite Hfin. apply SFleb_scaled; [ reflexivity | exact Hb | exact Hv ].
Qed.

(** The sum of two numbers of the format stays under a number of the format
    that their exact sum does not pass. *)
Lemma b64_add_upper (mx my mB : positive) (ex ey eB : Z) :
  bounded 53 1024 mx ex = true -> bounded 53 1024 my ey = true ->
  bounded 53 1024 mB eB = true ->
  b64_scaled mx ex + b64_scaled my ey <= b64_scaled mB eB ->
  exists (mr : positive) (er : Z),
    b64_add (S754_finite false mx ex) (S754_finite false my ey) = S754_finite false mr er /\
    bounded 53 1024 mr er = true /\
    b64_scaled mr er <= b64_scaled mB eB.
Proof.
  intros Bx By BB Hle.
  apply bounded_spec in Bx as Bx'. destruct Bx' as [Hex _].
  apply bounded_spec in By as By'. destruct By' as [Hey _].
  unfold b64_add. cbn [SFadd cond_Zopp].
  set (ez := Z.min ex ey).
  assert (Hx : Zpos (fst (shl_align mx ex ez)) = Zpos mx * 2 ^ (ex - ez)).
  { destruct (shl_align_spec mx ex ez) as [Hs Hk].
    destruct (Z_lt_le_dec ez ex) as [H | H].
    - apply (Hs H).
    - rewrite (Hk H). cbn [fst]. replace (ex - ez) with 0 by (unfold ez in *; lia).
      change (2 ^ 0) with 1. lia. }
  assert (Hy : Zpos (fst (shl_align my ey ez)) = Zpos my * 2 ^ (ey - ez)).
  { destruct (shl_align_spec my ey ez) as [Hs Hk].
    destruct (Z_lt_le_dec ez ey) as [H | H].
    - apply (Hs H).
    - rewrite (Hk H). cbn [fst]. replace (ey - ez) with 0 by (unfold ez in *; lia).
      change (2 ^ 0) with 1. lia. }
  change (Zpos (fst (shl_align mx ex ez)) + Zpos (fst (shl_align my ey ez)))
    with (Zpos (fst (shl_align mx ex ez) + fst (shl_align my ey ez))).
  cbn [binary_normalize].
  destruct (binary_round_normalized (fst (shl_align mx ex ez) + fst (shl_align my ey ez)) ez
              ltac:(unfold ez; lia)) as [mz [e' [Hr [He' [Hpre Hv]]]]].
  rewrite Hr. apply round_upper; try assumption.
  rewrite Hv, Pos2Z.inj_add, Hx, Hy. unfold b64_scaled in Hle.
  rewrite Z.mul_add_distr_r, <- !Z.mul_assoc.
  rewrite <- (pow2_add (ex - ez) (ez + 1074)) by (unfold ez; lia).
  rewrite <- (pow2_add (ey - ez) (ez + 1074)) by (unfold ez; lia).
  replace (ex - ez + (ez + 1074)) with (ex + 1074) by lia.
  replace (ey - ez + (ez + 1074)) with (ey + 1074) by lia.
  exact Hle.
Qed.

(** *** The achievement of a count at or above the target *)

Lemma py_min_capped (w : spec_float) :
  SFleb (b64_of_int 100) w = true -> py_min w (b64_of_int 100) = b64_of_int 100.
Proof.
  intros H. unfold py_min. change (@ltb spec_float binary64) with SFltb.
  destruct (SFltb (b64_of_int 100) w) eqn:E; [ reflexivity | ].
  unfold SFleb in H. unfold SFltb in E.
  destruct (SFcompare (b64_of_int 100) w) as [[ | | ] | ] eqn:C; try discriminate.
  change (b64_of_int 100) with (S754_finite false 7036874417766400 (-46)) in *.
  destruct w as [s | s | | s m e]; try (destruct s; discriminate C); try discriminate C.
  apply SFcompare_finite_Eq in C. destruct C as [Hs [He Hm]]. subst. reflexivity.
Qed.

Lemma b64_exact_int_spec (k : Z) :
  b64_exact_int k = true ->
  exists (m : positive) (e : Z),
    b64_of_int k = S754_finite false m e /\ bounded 53 1024 m e = true /\
    2 ^ 52 <= Zpos m /\ b64_scaled m e = k * 2 ^ 1074.
Proof.
  unfold b64_exact_int. destruct (b64_of_int k) as [s | s | | [ | ] m e]; try discriminate.
  rewrite !andb_true_iff, Z.leb_le, Z.eqb_eq. intros [[H1 H2] H3].
  exists m, e. auto.
Qed.

Lemma targets_exact : forallb (fun tq => b64_exact_int (fst tq)) spec_table = true.
Proof. vm_compute. reflexivity. Qed.

(** *** Ints below 2^53 and their quotients *)

(** An int below 2^53 converts exactly, to a normal number. *)
Lemma b64_of_int_small (c : positive) :
  Zpos c < 2 ^ 53 ->
  exists (m : positive) (e : Z),
    b64_of_int (Zpos c) = S754_finite false m e /\ bounded 53 1024 m e = true /\
    2 ^ 52 <= Zpos m /\ -52 <= e <= 0 /\ b64_scaled m e = Zpos c * 2 ^ 1074.
Proof.
  intros Hc. unfold b64_of_int. cbn [binary_normalize].
  destruct (binary_round_normalized c 0 ltac:(lia)) as [mz [ez [Hr [Hez [Hpre Hv]]]]].
  rewrite Hr. change (0 + 1074) with 1074 in Hv.
  pose proof (digits2_pos_bounds c) as [Dlo Dhi].
  pose proof (Pos2Z.is_pos (digits2_pos c)) as Dpos.
  assert (Hd : Zpos (digits2_pos c) <= 53).
  { destruct (Z_le_gt_dec (Zpos (digits2_pos c)) 53) as [H | H]; [ exact H | ].
    pose proof (pow2_le 53 (Zpos (digits2_pos c) - 1) ltac:(lia)). lia. }
  assert (Hez0 : ez <= 0).
  { destruct (Z_le_gt_dec ez 0) as [H | H]; [ exact H | ]. exfalso.
    assert (Hcz : Zpos c = Zpos mz * 2 ^ ez).
    { rewrite (pow2_add ez 1074) in Hv by lia.
      assert (0 < 2 ^ 1074) by reflexivity. nia. }
    rewrite <- (digits2_pos_shift mz c ez ltac:(lia) Hcz) in Hpre.
    rewrite fexp_eq in Hpre. lia. }
  assert (Hmz : Zpos mz = Zpos c * 2 ^ (- ez)).
  { replace 1074 with (- ez + (ez + 1074)) in Hv at 2 by lia.
    rewrite (pow2_add (- ez) (ez + 1074)) in Hv by lia.
    assert (0 < 2 ^ (ez + 1074)) by (apply pow2_pos; lia). nia. }
  pose proof (digits2_pos_shift c mz (- ez) ltac:(lia) Hmz) as Hdz.
  assert (Hfe : fexp 53 1024 (Zpos (digits2_pos mz) + ez) = Zpos (digits2_pos c) - 53).
  { rewrite Hdz, fexp_eq. lia. }
  destruct (binary_round_aux_spec mz ez loc_Exact Hez Hpre) as [m2 [_ [Hexact Hres]]].
  rewrite Hfe in Hpre, Hexact, Hres.
  set (fe := Zpos (digits2_pos c) - 53) in *.
  assert (Hsplit : Zpos mz = Zpos c * 2 ^ (- fe) * 2 ^ (fe - ez)).
  { rewrite Hmz. replace (- ez) with (- fe + (fe - ez)) by lia.
    rewrite (pow2_add (- fe) (fe - ez)) by (unfold fe; lia). ring. }
  assert (Hk : 0 < 2 ^ (fe - ez)) by (apply pow2_pos; lia).
  assert (Hm2 : m2 = Zpos c * 2 ^ (- fe)).
  { rewrite Hexact; [ | reflexivity | rewrite Hsplit; apply Z.mod_mul; lia ].
    rewrite Hsplit. apply Z.div_mul. lia. }
  assert (Hval : m2 * 2 ^ (fe + 1074) = Zpos c * 2 ^ 1074).
  { rewrite Hm2. replace 1074 with (- fe + (fe + 1074)) at 2 by lia.
    rewrite (pow2_add (- fe) (fe + 1074)) by (unfold fe; lia). ring. }
  assert (H1074 : 0 < 2 ^ 1074) by reflexivity.
  assert (Hbig : 2 ^ 53 * 2 ^ 1074 < 2 ^ (1024 + 1074)) by reflexivity.
  destruct Hres as [[_ Hinf] | [mr [er [Hfin [Br Vr]]]]]; [ rewrite Hval in Hinf; nia | ].
  exists mr, er. rewrite Vr, Hval.
  assert (Her : -52 <= er <= 0).
  { unfold b64_scaled in Vr. rewrite Hval in Vr.
    apply bounded_spec in Br as Br'. destruct Br' as [Hrange [Hmr _]].
    split.
    - destruct (Z_le_gt_dec (-52) er) as [H | H]; [ exact H | ]. exfalso.
      pose proof (pow2_le (er + 1074) 1021 ltac:(lia)) as Hp.
      assert (0 < 2 ^ (er + 1074)) by (apply pow2_pos; lia).
      change (2 ^ 1074) with (2 ^ 53 * 2 ^ 1021) in Vr.
      assert (0 < 2 ^ 1021) by reflexivity. nia.
    - destruct (Z_le_gt_dec er 0) as [H | H]; [ exact H | ]. exfalso.
      pose proof (pow2_le 1075 (er + 1074) ltac:(lia)) as Hp.
      change (2 ^ 1075) with (2 * 2 ^ 1074) in Hp.
      apply bounded_spec in Br as [_ [_ Hn]]. specialize (Hn ltac:(lia)).
      assert (H52 : 2 ^ 53 = 2 * 2 ^ 52) by reflexivity. nia. }
  split; [ exact Hfin | ]. split; [ exact Br | ].
  split; [ apply bounded_spec in Br as [_ [_ Hn]]; apply Hn; lia | ].
  split; [ exact Her | reflexivity ].
Qed.

(** The quotient of two normal numbers whose exponents are not far apart is
    a number of the format. *)
Lemma b64_div_finite (mx my : positive) (ex ey : Z) :
  bounded 53 1024 mx ex = true -> bounded 53 1024 my ey = true ->
  2 ^ 52 <= Zpos mx -> 2 ^ 52 <= Zpos my ->
  -1021 <= ex - ey <= 1021 ->
  exists (mr : positive) (er : Z),
    b64_div (S754_finite false mx ex) (S754_finite false my ey) = S754_finite false mr er.
Proof.
  intros Bx By Nx Ny Hexp.
  apply bounded_spec in Bx as Bx'. destruct Bx' as [Hex [Hmx _]].
  apply bounded_spec in By as By'. destruct By' as [Hey [Hmy _]].
  assert (Hdx : Zpos (digits2_pos mx) = 53) by (apply digits2_pos_unique; split; assumption).
  assert (Hdy : Zpos (digits2_pos my) = 53) by (apply digits2_pos_unique; split; assumption).
  unfold b64_div. cbn [SFdiv xorb]. unfold SFdiv_core_binary. cbn [Zdigits2].
  rewrite Hdx, Hdy.
  replace (53 + ex - (53 + ey)) with (ex - ey) by lia.
  assert (Hfe : fexp 53 1024 (ex - ey) = ex - ey - 53) by (rewrite fexp_eq; lia).
  rewrite Hfe. rewrite Z.min_l by lia.
  replace (ex - ey - (ex - ey - 53)) with 53 by lia.
  rewrite Z.shiftl_mul_pow2 by lia.
  pose proof (Z.mod_pos_bound (Zpos mx * 2 ^ 53) (Zpos my) ltac:(lia)) as Hmod.
  assert (Hq : fst (Z.div_eucl (Zpos mx * 2 ^ 53) (Zpos my)) = Zpos mx * 2 ^ 53 / Zpos my)
    by reflexivity.
  destruct (Z.div_eucl (Zpos mx * 2 ^ 53) (Zpos my)) as [q r]. cbn [fst] in Hq.
  assert (H52 : 0 < 2 ^ 52) by reflexivity.
  assert (H53 : 2 ^ 53 = 2 * 2 ^ 52) by reflexivity.
  assert (H54 : 2 ^ 54 = 4 * 2 ^ 52) by reflexivity.
  assert (Hq52 : 2 ^ 52 <= q).
  { rewrite Hq. apply Z.div_le_lower_bound; [ lia | ]. nia. }
  assert (Hq54 : q < 2 ^ 54).
  { rewrite Hq. apply Z.div_lt_upper_bound; [ lia | ]. nia. }
  destruct q as [ | pq | pq ]; try lia.
  pose proof (digits2_pos_bounds pq) as [Dlo Dhi].
  pose proof (Pos2Z.is_pos (digits2_pos pq)) as Dpos.
  assert (Hdq : 53 <= Zpos (digits2_pos pq) <= 54).
  { split.
    - destruct (Z_le_gt_dec 53 (Zpos (digits2_pos pq))) as [H | H]; [ exact H | ].
      pose proof (pow2_le (Zpos (digits2_pos pq)) 52 ltac:(lia)). lia.
    - destruct (Z_le_gt_dec (Zpos (digits2_pos pq)) 54) as [H | H]; [ exact H | ].
      pose proof (pow2_le 54 (Zpos (digits2_pos pq) - 1) ltac:(lia)). lia. }
  set (e := ex - ey - 53) in *.
  assert (Hpre : e <= fexp 53 1024 (Zpos (digits2_pos pq) + e)) by (rewrite fexp_eq; lia).
  destruct (binary_round_aux_spec pq e (new_location (Zpos my) r)
              ltac:(unfold e; lia) Hpre) as [m2 [[_ Hm2] [_ Hres]]].
  destruct (cut_mantissa_bounds pq e ltac:(unfold e; lia) Hpre) as [[_ Hcut] _].
  destruct Hres as [[_ Hinf] | [mr [er [Hfin _]]]]; [ exfalso | exists mr, er; exact Hfin ].
  assert (Hfq : fexp 53 1024 (Zpos (digits2_pos pq) + e) + 1074 <= 2043).
  { rewrite fexp_eq. unfold e. lia. }
  assert (Hfq0 : 0 <= fexp 53 1024 (Zpos (digits2_pos pq) + e) + 1074).
  { rewrite fexp_eq. lia. }
  pose proof (pow2_le _ 2043 (conj Hfq0 Hfq)) as Hp.
  assert (0 < 2 ^ (fexp 53 1024 (Zpos (digits2_pos pq) + e) + 1074)) by (apply pow2_pos; lia).
  change (2 ^ (1024 + 1074)) with (4 * (2 ^ 53 * 2 ^ 2043)) in Hinf.
  assert (0 < 2 ^ 2043) by reflexivity.
  assert (0 < 2 ^ 53) by reflexivity.
  nia.
Qed.

(** The quotient of two ints of any size, the first at least the second,
    rounded once: it is at least one. *)
Lemma b64_div_big_lower (c t : positive) :
  Zpos t <= Zpos c ->
  SFdiv 53 1024 (S754_finite false c 0) (S754_finite false t 0) = S754_infinity false \/
  exists (mr : positive) (er : Z),
    SFdiv 53 1024 (S754_finite false c 0) (S754_finite false t 0) = S754_finite false mr er /\
    bounded 53 1024 mr er = true /\
    2 ^ 1074 <= b64_scaled mr er.
Proof.
  intros Hle.
  pose proof (digits2_pos_bounds c) as [Clo Chi].
  pose proof (digits2_pos_bounds t) as [Tlo Thi].
  pose proof (Pos2Z.is_pos (digits2_pos c)) as Cpos.
  pose proof (Pos2Z.is_pos (digits2_pos t)) as Tpos.
  set (d1 := Zpos (digits2_pos c)) in *. set (d2 := Zpos (digits2_pos t)) in *.
  assert (Hd : d2 <= d1).
  { destruct (Z_le_gt_dec d2 d1) as [H | H]; [ exact H | ].
    pose proof (pow2_le d1 (d2 - 1) ltac:(lia)). lia. }
  set (s := Z.max 0 (53 - (d1 - d2))).
  assert (Hs : 0 <= s <= 53) by (unfold s; lia).
  assert (Hcore : SFdiv_core_binary 53 1024 (Zpos c) 0 (Zpos t) 0
                  = (Zpos c * 2 ^ s / Zpos t, - s,
                     new_location (Zpos t) ((Zpos c * 2 ^ s) mod Zpos t))).
  { unfold SFdiv_core_binary. cbn [Zdigits2]. fold d1 d2.
    replace (d1 + 0 - (d2 + 0)) with (d1 - d2) by lia.
    rewrite fexp_eq. change (0 - 0) with 0.
    destruct (Z_le_gt_dec 53 (d1 - d2)) as [Hbig | Hsmall].
    - rewrite Z.min_r by lia. change (0 - 0) with 0. cbv iota.
      replace s with 0 by (unfold s; lia).
      change (2 ^ 0) with 1. rewrite Z.mul_1_r.
      unfold Z.div, Z.modulo.
      destruct (Z.div_eucl (Zpos c) (Zpos t)) as [q r]. reflexivity.
    - rewrite Z.min_l by lia.
      replace (Z.max (d1 - d2 - 53) (-1074)) with (- s) by (unfold s; lia).
      replace (0 - - s) with s by lia.
      destruct s as [ | ps | ps ] eqn:Es; try lia.
      rewrite Z.shiftl_mul_pow2 by lia.
      unfold Z.div, Z.modulo.
      destruct (Z.div_eucl (Zpos c * 2 ^ Zpos ps) (Zpos t)) as [q r]. reflexivity. }
  cbn [SFdiv xorb]. rewrite Hcore. clear Hcore.
  assert (H2s : 0 < 2 ^ s) by (apply pow2_pos; lia).
  assert (H52 : 0 < 2 ^ 52) by reflexivity.
  assert (Hq52 : 2 ^ 52 <= Zpos c * 2 ^ s / Zpos t).
  { apply Z.div_le_lower_bound; [ lia | ].
    assert (Hpow : 2 ^ 52 * 2 ^ d2 <= 2 ^ (d1 - 1) * 2 ^ s).
    { rewrite <- (pow2_add 52 d2) by lia. rewrite <- (pow2_add (d1 - 1) s) by lia.
      apply pow2_le. unfold s. lia. }
    nia. }
  assert (Hqs : 2 ^ s <= Zpos c * 2 ^ s / Zpos t).
  { apply Z.div_le_lower_bound; [ lia | ]. nia. }
  destruct (Zpos c * 2 ^ s / Zpos t) as [ | pq | pq ] eqn:Eq; try lia.
  pose proof (digits2_pos_bounds pq) as [Dlo Dhi].
  assert (Hdq : 53 <= Zpos (digits2_pos pq)).
  { destruct (Z_le_gt_dec 53 (Zpos (digits2_pos pq))) as [H | H]; [ exact H | ].
    pose proof (Pos2Z.is_pos (digits2_pos pq)).
    pose proof (pow2_le (Zpos (digits2_pos pq)) 52 ltac:(lia)). lia. }
  apply (round_lower pq (- s) _ (2 ^ 52)%positive (-52)).
  - lia.
  - rewrite fexp_eq. lia.
  - reflexivity.
  - change (b64_scaled (2 ^ 52) (-52)) with (2 ^ 1074).
    replace 1074 with (s + (- s + 1074)) at 1 by lia.
    rewrite (pow2_add s (- s + 1074)) by lia.
    assert (0 < 2 ^ (- s + 1074)) by (apply pow2_pos; lia). nia.
Qed.

Lemma b64_truediv_big (a b : Z) :
  2 ^ 53 <= a -> 0 < b ->
  b64_truediv a b = SFdiv 53 1024 (b64_of_big_int a) (b64_of_big_int b).
Proof.
  intros Ha Hb. unfold b64_truediv.
  rewrite (Z.abs_eq a) by (assert (0 < 2 ^ 53) by reflexivity; lia).
  destruct (Z.ltb_spec a (2 ^ 53)); [ lia | ]. reflexivity.
Qed.

Lemma b64_truediv_small (a b : Z) :
  0 <= a < 2 ^ 53 -> 0 <= b < 2 ^ 53 ->
  b64_truediv a b = b64_div (b64_of_int a) (b64_of_int b).
Proof.
  intros Ha Hb. unfold b64_truediv.
  rewrite !Z.abs_eq by lia.
  destruct (Z.ltb_spec a (2 ^ 53)); [ | lia ].
  destruct (Z.ltb_spec b (2 ^ 53)); [ | lia ].
  reflexivity.
Qed.

(** The quotient of two ints below 2^53, the second positive, is a float:
    [a / b] does not raise. *)
Lemma b64_truediv_fits (a b : Z) :
  0 <= a < 2 ^ 53 -> 0 < b < 2 ^ 53 -> b64_is_infinite (b64_truediv a b) = false.
Proof.
  intros Ha Hb. rewrite b64_truediv_small by lia.
  destruct b as [ | pb | pb ]; try lia.
  destruct (b64_of_int_small pb ltac:(lia)) as [mb [eb [Hfb [Bb [Nb [Eb _]]]]]].
  rewrite Hfb.
  destruct a as [ | pa | pa ]; try lia.
  - reflexivity.
  - destruct (b64_of_int_small pa ltac:(lia)) as [ma [ea [Hfa [Ba [Na [Ea _]]]]]].
    rewrite Hfa.
    destruct (b64_div_finite ma mb ea eb Ba Bb Na Nb ltac:(lia)) as [mr [er Hr]].
    rewrite Hr. reflexivity.
Qed.

Lemma spec_table_small (t : Z) (q : Q) : In (t, q) spec_table -> 0 < t < 2 ^ 53.
Proof.
  unfold spec_table. cbn [In]. intros H.
  assert (H53 : 60 < 2 ^ 53) by reflexivity.
  repeat (destruct H as [H | H]; [ inversion H; lia | ]). destruct H.
Qed.

(** A count at or above the target of a row gives the achievement 100.0,
    when its quotient is a float and when it is not. *)
Lemma achievement_capped (count t : Z) (q : Q) :
  In (t, q) spec_table -> t <= count ->
  py_min (mul (truediv count t) (of_int 100)) (of_int 100) = b64_of_int 100.
Proof.
  intros Hin Hle.
  change (@mul spec_float binary64) with b64_mul.
  change (@of_int spec_float binary64) with b64_of_int.
  change (@truediv spec_float binary64 count t) with (b64_truediv count t).
  pose proof (spec_table_small t q Hin) as Htsmall.
  destruct (Z_lt_le_dec count (2 ^ 53)) as [Hsmall | Hbig];
    [ rewrite b64_truediv_small by lia
    | rewrite b64_truediv_big by lia;
      destruct count as [ | c | c ]; try lia; destruct t as [ | pt | pt ]; try lia;
      cbn [b64_of_big_int]; apply py_min_capped;
      destruct (b64_div_big_lower c pt Hle) as [Hinf | [mq [eq [Hq [Bq Vq]]]]];
      [ rewrite Hinf; reflexivity | rewrite Hq; apply b64_mul_100_lower; assumption ] ].
  pose proof targets_exact as Hall. rewrite forallb_forall in Hall.
  destruct (b64_exact_int_spec t (Hall _ Hin)) as [mT [eT [HT [BT [NT VT]]]]].
  assert (Ht : 0 < t).
  { unfold b64_scaled in VT. assert (0 < 2 ^ (eT + 1074)).
    { apply pow2_pos. apply bounded_spec in BT. lia. }
    assert (0 < 2 ^ 1074) by reflexivity. nia. }
  destruct count as [ | c | c ]; try lia.
  apply py_min_capped.
  destruct (b64_of_int_lower c mT eT BT ltac:(rewrite VT; assert (0 < 2 ^ 1074) by reflexivity; nia))
    as [Hinf | [mc [ec [Hc [Bc Vc]]]]].
  - rewrite Hinf, HT. reflexivity.
  - rewrite Hc, HT.
    assert (Nc : 2 ^ 52 <= Zpos mc).
    { apply bounded_spec in Bc as Bc'. destruct Bc' as [Hec [Hmc Hnc]]. apply Hnc.
      destruct (Z_lt_le_dec (-1074) ec) as [H | H]; [ exact H | ]. exfalso.
      assert (ec = -1074) by lia. subst ec. unfold b64_scaled in Vc, VT.
      change (2 ^ (-1074 + 1074)) with 1 in Vc.
      apply bounded_spec in BT as [HeT _].
      assert (0 < 2 ^ (eT + 1074)) by (apply pow2_pos; lia).
      assert (Hbig : 2 ^ 53 <= 2 ^ 1074) by (apply pow2_le; lia).
      assert (Hone : 2 ^ 1074 <= Zpos mT * 2 ^ (eT + 1074)).
      { rewrite VT. assert (0 < 2 ^ 1074) by reflexivity. nia. }
      lia. }
    destruct (b64_div_lower mc mT ec eT Bc BT Nc NT Vc) as [Hinf | [mq [eq [Hq [Bq Vq]]]]].
    + rewrite Hinf. reflexivity.
    + rewrite Hq. apply b64_mul_100_lower; assumption.
Qed.

(** *** The laws of the bound at binary64 *)

Lemma b64_within_b_spec (x : spec_float) (n : Z) : b64_within_b x n = true -> b64_within x n.
Proof.
  unfold b64_within_b, b64_within. destruct x as [s | s | | [ | ] m e]; try discriminate.
  - intros _. exact I.
  - rewrite andb_true_iff, Z.leb_le. auto.
Qed.

Lemma Z_range_In (n c : Z) : 0 <= c < n -> In c (Z_range n).
Proof.
  intros H. unfold Z_range. apply in_map_iff. exists (Z.to_nat c).
  split; [ lia | ]. apply in_seq. lia.
Qed.

Lemma table_rows_ok : forallb b64_row_ok spec_table = true.
Proof. vm_compute. reflexivity. Qed.

Lemma b64_within_zero : b64_within (of_int 0) 0.
Proof. exact I. Qed.

Lemma b64_within_fit (count t p : Z) :
  0 <= count < 2 ^ 53 -> In (t, p # 100) spec_table ->
  @too_large spec_float binary64 (truediv count t) = false.
Proof.
  intros Hc Hin. apply b64_truediv_fits; [ exact Hc | ].
  apply (spec_table_small t (p # 100) Hin).
Qed.

Lemma b64_within_score (count t p : Z) :
  0 <= count -> In (t, p # 100) spec_table ->
  b64_within (mul (py_min (mul (truediv count t) (of_int 100)) (of_int 100))
                  (@of_decimal spec_float binary64 (p # 100))) p.
Proof.
  intros Hc Hin. pose proof table_rows_ok as Hall. rewrite forallb_forall in Hall.
  specialize (Hall _ Hin). unfold b64_row_ok in Hall. cbn [fst snd Qnum] in Hall.
  rewrite andb_true_iff, forallb_forall in Hall. destruct Hall as [Hbelow Hcap].
  apply b64_within_b_spec.
  destruct (Z_lt_le_dec count t) as [Hlt | Hge].
  - apply (Hbelow count). apply Z_range_In. lia.
  - rewrite (achievement_capped count t (p # 100) Hin Hge). exact Hcap.
Qed.

Lemma integers_exact : forallb b64_exact_int (map (Z.add 1) (Z_range 100)) = true.
Proof. vm_compute. reflexivity. Qed.

Lemma b64_of_int_exact (k : Z) :
  1 <= k <= 100 ->
  exists (m : positive) (e : Z),
    b64_of_int k = S754_finite false m e /\ bounded 53 1024 m e = true /\
    b64_scaled m e = k * 2 ^ 1074.
Proof.
  intros Hk. pose proof integers_exact as Hall. rewrite forallb_forall in Hall.
  destruct (b64_exact_int_spec k) as [m [e [H1 [H2 [_ H3]]]]].
  - apply Hall. apply in_map_iff. exists (k - 1). split; [ lia | ].
    apply Z_range_In. lia.
  - exists m, e. auto.
Qed.

Lemma b64_within_add (x y : spec_float) (a b : Z) :
  0 <= a -> 0 <= b -> a + b <= 100 ->
  b64_within x a -> b64_within y b -> b64_within (add x y) (a + b).
Proof.
  intros Ha Hb Hab Hx Hy. change (@add spec_float binary64) with b64_add.
  assert (Hp : 0 < 2 ^ 1074) by reflexivity.
  destruct x as [sx | sx | | [ | ] mx ex]; try contradiction;
    destruct y as [sy | sy | | [ | ] my ey]; try contradiction.
  - destruct sx, sy; exact I.
  - unfold b64_add. cbn [SFadd]. destruct Hy as [By Vy]. split; [ exact By | nia ].
  - unfold b64_add. cbn [SFadd]. destruct Hx as [Bx Vx]. split; [ exact Bx | nia ].
  - destruct Hx as [Bx Vx]. destruct Hy as [By Vy].
    assert (Hposx : 0 < b64_scaled mx ex).
    { unfold b64_scaled. apply bounded_spec in Bx as [He _].
      assert (0 < 2 ^ (ex + 1074)) by (apply pow2_pos; lia). nia. }
    assert (Hposy : 0 < b64_scaled my ey).
    { unfold b64_scaled. apply bounded_spec in By as [He _].
      assert (0 < 2 ^ (ey + 1074)) by (apply pow2_pos; lia). nia. }
    destruct (b64_of_int_exact (a + b) ltac:(nia)) as [mB [eB [_ [BB VB]]]].
    destruct (b64_add_upper mx my mB ex ey eB Bx By BB ltac:(rewrite VB; nia))
      as [mr [er [Hr [Br Vr]]]].
    rewrite Hr. split; [ exact Br | ]. rewrite <- VB. exact Vr.
Qed.

Lemma b64_within_bounds (x : spec_float) (n : Z) :
  0 <= n <= 100 -> b64_within x n ->
  leb (of_int 0) x = true /\ leb x (@of_int spec_float binary64 100) = true.
Proof.
  intros Hn Hx. change (@leb spec_float binary64) with SFleb.
  change (@of_int spec_float binary64) with b64_of_int.
  destruct x as [s | s | | [ | ] m e]; try contradiction.
  - destruct s; split; reflexivity.
  - destruct Hx as [Bx Vx]. split; [ reflexivity | ].
    change (b64_of_int 100) with (S754_finite false 7036874417766400 (-46)).
    apply SFleb_scaled; [ exact Bx | reflexivity | ].
    change (b64_scaled 7036874417766400 (-46)) with (100 * 2 ^ 1074).
    assert (0 < 2 ^ 1074) by reflexivity. nia.
Qed.


(** * The scoring engine at binary64 *)

(** ** Counts of rows never leave the floats *)

Lemma b64_quotients_fit (current_data : list (string * Z)) :
  counts_ok current_data -> quotients_fit (F := spec_float) current_data.
Proof.
  intros [_ Hok] category count t Hin Et.
  destruct (Hok category count Hin) as [Hcat Hcount].
  destruct (category_tables spec_float binary64 category Hcat) as [t' [p [Et' [_ [_ Htp]]]]].
  rewrite Et in Et'. inversion Et'. subst t'.
  exact (b64_within_fit count t p Hcount Htp).
Qed.

Lemma b64_shortfalls_fit (current_data : list (string * Z)) :
  counts_ok current_data ->
  forall (k : string) (c t : Z),
    In (k, c) current_data -> dict_lookup target k = Some t -> 0 < t - c ->
    @too_large spec_float binary64 (truediv (t - c) t) = false.
Proof.
  intros [_ Hok] k c t Hin Et Hneeded.
  destruct (Hok k c Hin) as [Hcat Hcount].
  destruct (category_tables spec_float binary64 k Hcat) as [t' [p [Et' [_ [_ Htp]]]]].
  rewrite Et in Et'. inversion Et'. subst t'.
  pose proof (spec_table_small t (p # 100) Htp) as Ht.
  apply b64_truediv_fits; lia.
Qed.

(** ** C1: the score of the stated algorithm *)

(** The nine turns of the loop on the dict [get_current_data] builds. *)
Lemma calculate_score_counts_dict (F : Type) (A : Arith F) (c1 c2 c3 c4 c5 c6 c7 c8 c9 : Z) :
  quotients_fit (counts_dict [c1; c2; c3; c4; c5; c6; c7; c8; c9]) ->
  exists r : score_result F,
    calculate_score (counts_dict [c1; c2; c3; c4; c5; c6; c7; c8; c9]) = Ok r /\
    stated_algorithm [c1; c2; c3; c4; c5; c6; c7; c8; c9] r.
Proof.
  intros Hfit.
  assert (H1 : too_large (truediv c1 60) = false)
    by (apply (Hfit "QnA"); [ cbn; tauto | reflexivity ]).
  assert (H2 : too_large (truediv c2 30) = false)
    by (apply (Hfit "운동 가이드라인"); [ cbn; tauto | reflexivity ]).
  assert (H3 : too_large (truediv c3 20) = false)
    by (apply (Hfit "식단 가이드라인"); [ cbn; tauto | reflexivity ]).
  assert (H4 : too_large (truediv c4 15) = false)
    by (apply (Hfit "철학/마인드셋"); [ cbn; tauto | reflexivity ]).
  assert (H5 : too_large (truediv c5 12) = false)
    by (apply (Hfit "부상 관리"); [ cbn; tauto | reflexivity ]).
  assert (H6 : too_large (truediv c6 10) = false)
    by (apply (Hfit "피드백"); [ cbn; tauto | reflexivity ]).
  assert (H7 : too_large (truediv c7 15) = false)
    by (apply (Hfit "식단 예시"); [ cbn; tauto | reflexivity ]).
  assert (H8 : too_large (truediv c8 20) = false)
    by (apply (Hfit "운동 예시"); [ cbn; tauto | reflexivity ]).
  assert (H9 : too_large (truediv c9 8) = false)
    by (apply (Hfit "톤/말투"); [ cbn; tauto | reflexivity ]).
  clear Hfit.
  unfold calculate_score, counts_dict, categories. cbn [combine].
  rewrite score_loop_step.
  change (dict_lookup target "QnA") with (Some 60).
  change (dict_lookup (@weights F A) "QnA") with (Some (@of_decimal F A (23 # 100))).
  cbv beta iota. change (60 =? 0) with false. cbv iota. rewrite H1. cbv iota zeta.
  rewrite score_loop_step.
  change (dict_lookup target "운동 가이드라인") with (Some 30).
  change (dict_lookup (@weights F A) "운동 가이드라인") with (Some (@of_decimal F A (18 # 100))).
  cbv beta iota. change (30 =? 0) with false. cbv iota. rewrite H2. cbv iota zeta.
  rewrite score_loop_step.
  change (dict_lookup target "식단 가이드라인") with (Some 20).
  change (dict_lookup (@weights F A) "식단 가이드라인") with (Some (@of_decimal F A (13 # 100))).
  cbv beta iota. change (20 =? 0) with false. cbv iota. rewrite H3. cbv iota zeta.
  rewrite score_loop_step.
  change (dict_lookup target "철학/마인드셋") with (Some 15).
  change (dict_lookup (@weights F A) "철학/마인드셋") with (Some (@of_decimal F A (9 # 100))).
  cbv beta iota. change (15 =? 0) with false. cbv iota. rewrite H4. cbv iota zeta.
  rewrite score_loop_step.
  change (dict_lookup target "부상 관리") with (Some 12).
  change (dict_lookup (@weights F A) "부상 관리") with (Some (@of_decimal F A (9 # 100))).
  cbv beta iota. change (12 =? 0) with false. cbv iota. rewrite H5. cbv iota zeta.
  rewrite score_loop_step.
  change (dict_lookup target "피드백") with (Some 10).
  change (dict_lookup (@weights F A) "피드백") with (Some (@of_decimal F A (4 # 100))).
  cbv beta iota. change (10 =? 0) with false. cbv iota. rewrite H6. cbv iota zeta.
  rewrite score_loop_step.
  change (dict_lookup target "식단 예시") with (Some 15).
  change (dict_lookup (@weights F A) "식단 예시") with (Some (@of_decimal F A (4 # 100))).
  cbv beta iota. change (15 =? 0) with false. cbv iota. rewrite H7. cbv iota zeta.
  rewrite score_loop_step.
  change (dict_lookup target "운동 예시") with (Some 20).
  change (dict_lookup (@weights F A) "운동 예시") with (Some (@of_decimal F A (10 # 100))).
  cbv beta iota. change (20 =? 0) with false. cbv iota. rewrite H8. cbv iota zeta.
  rewrite score_loop_step.
  change (dict_lookup target "톤/말투") with (Some 8).
  change (dict_lookup (@weights F A) "톤/말투") with (Some (@of_decimal F A (10 # 100))).
  cbv beta iota. change (8 =? 0) with false. cbv iota. rewrite H9. cbv iota zeta.
  cbn [score_loop rbind].
  eexists. split; [ reflexivity | ].
  unfold stated_algorithm. repeat split; reflexivity.
Qed.

(** C1. [calculate_score] computes the stated algorithm. At binary64, for the
    nine categories with counts of rows [c1 .. c9] it returns the sum, taken
    in declaration order, of [min(count / target * 100, 100) * weight] with
    the stated targets and weights; the achievements and scores of [details]
    are those of the formula and the tier is the one of the total. The same
    holds over any arithmetic in which no quotient is out of range. Counts
    equal to the targets give [total_score = 100.0] and tier Gold; counts all
    zero except QnA = 30 give QnA achievement 50.0, QnA score 11.5,
    [total_score = 11.5] and the tier below Bronze. *)
Theorem calculate_score_stated_algorithm :
  (forall c1 c2 c3 c4 c5 c6 c7 c8 c9 : Z,
      let counts := [c1; c2; c3; c4; c5; c6; c7; c8; c9] in
      Forall (fun c => 0 <= c < 2 ^ 53) counts ->
      exists r : score_result spec_float,
        calculate_score (counts_dict counts) = Ok r /\ stated_algorithm counts r) /\
  (forall (F : Type) (A : Arith F) (c1 c2 c3 c4 c5 c6 c7 c8 c9 : Z),
      let counts := [c1; c2; c3; c4; c5; c6; c7; c8; c9] in
      quotients_fit (counts_dict counts) ->
      exists r : score_result F,
        calculate_score (counts_dict counts) = Ok r /\ stated_algorithm counts r) /\
  (exists r : score_result spec_float,
      calculate_score (counts_dict [60; 30; 20; 15; 12; 10; 15; 20; 8]) = Ok r /\
      total_score r = b64_of_decimal (1000 # 10) /\
      tier r = Gold) /\
  (exists (r : score_result spec_float) (qna : detail spec_float),
      calculate_score (counts_dict [30; 0; 0; 0; 0; 0; 0; 0; 0]) = Ok r /\
      hd_error (details r) = Some qna /\
      d_category qna = "QnA" /\
      d_achievement qna = b64_of_decimal (500 # 10) /\
      d_score qna = b64_of_decimal (115 # 10) /\
      total_score r = b64_of_decimal (115 # 10) /\
      tier r = Unrated).
Proof.
  split; [ | split; [ | split ] ].
  - intros c1 c2 c3 c4 c5 c6 c7 c8 c9 counts Hcounts.
    apply calculate_score_counts_dict, b64_quotients_fit, counts_dict_ok, Hcounts.
  - intros F A c1 c2 c3 c4 c5 c6 c7 c8 c9 counts Hfit.
    apply calculate_score_counts_dict, Hfit.
  - eexists. split; [ vm_compute; reflexivity | ].
    split; vm_compute; reflexivity.
  - eexists. eexists. split; [ vm_compute; reflexivity | ].
    repeat split; vm_compute; reflexivity.
Qed.

(** ** C2: the total is between 0 and 100 *)

(** A count that no table of rows holds: its quotient is beyond the floats
    and the division raises. *)
Lemma calculate_score_huge_count :
  @calculate_score spec_float binary64 [("QnA", 2 ^ 1030)] = Raise OverflowError.
Proof. vm_compute. reflexivity. Qed.

(** C2. For every dict that gives a count, none negative, to categories (the
    nine of them in any order, or some of them), the total [calculate_score]
    returns is at least 0 and at most 100, the arithmetic being that of
    binary64 with its rounding: the clamp makes a category's score at most
    its share, the shares are integers that add up to 100, and a rounded sum
    does not pass an integer bound that the exact sum keeps. The call returns
    unless a quotient is beyond the floats, where Python's division raises
    [OverflowError]; it returns on every dict of counts of rows, which are
    below 2^53. *)
Theorem total_score_between_0_and_100 :
  forall current_data : list (string * Z),
    counts_valid current_data ->
    (forall r : score_result spec_float,
        calculate_score current_data = Ok r ->
        SFleb (b64_of_int 0) (total_score r) = true /\
        SFleb (total_score r) (b64_of_int 100) = true) /\
    ((exists r : score_result spec_float, calculate_score current_data = Ok r) \/
     @calculate_score spec_float binary64 current_data = Raise OverflowError) /\
    (counts_ok current_data ->
     exists r : score_result spec_float, calculate_score current_data = Ok r).
Proof.
  intros current_data Hvalid. split; [ | split ].
  - intros r Hr.
    exact (@calculate_score_bounded spec_float binary64 b64_within b64_within_zero
             b64_within_score b64_within_add b64_within_bounds current_data r Hvalid Hr).
  - unfold calculate_score.
    destruct (score_loop_no_zero_division spec_float binary64 current_data (of_int 0) [])
      as [[st H] | [[key [Hin [Hno H]]] | H]]; rewrite H; cbn [rbind].
    + left. eexists. reflexivity.
    + exfalso. apply Hno. exact (counts_valid_keys current_data Hvalid key Hin).
    + right. reflexivity.
  - intros Hok.
    destruct (calculate_score_ok spec_float binary64 current_data
                (counts_valid_keys current_data Hvalid) (b64_quotients_fit current_data Hok))
      as [r [Hr _]].
    exists r. exact Hr.
Qed.

(** The total of the dict with 30 QnA rows and nothing else. *)
Lemma total_score_between_0_and_100_witness :
  exists r : score_result spec_float,
    calculate_score (counts_dict [30; 0; 0; 0; 0; 0; 0; 0; 0]) = Ok r /\
    SFleb (b64_of_int 0) (total_score r) = true /\
    SFleb (total_score r) (b64_of_int 100) = true.
Proof.
  assert (Hok : counts_ok (counts_dict [30; 0; 0; 0; 0; 0; 0; 0; 0])).
  { apply counts_dict_ok.
    repeat (constructor; [ split; [ lia | reflexivity ] | ]). constructor. }
  destruct (total_score_between_0_and_100 (counts_dict [30; 0; 0; 0; 0; 0; 0; 0; 0])
              (counts_ok_valid _ Hok)) as [Hbounds [_ Hreturns]].
  destruct (Hreturns Hok) as [r Hr].
  exists r. split; [ exact Hr | exact (Hbounds r Hr) ].
Defined.

(** ** C4: the shortfall ranking *)

(** C4. For a dict of counts of rows over categories, the ranking that
    [main] shows lists a category exactly when its count is below its target;
    an entry carries [needed = target - count] and
    [priority = (needed / target) * weight]; the list is in descending order
    of priority; two entries of equal priority
    keep the order of the dict's keys, which is the declaration order for the
    dict [get_current_data] builds; the lines written are the first five
    entries at most, the first three flagged urgent and the next two
    important. *)
Theorem shortfall_priority_ranking :
  forall current_data : list (string * Z),
    counts_ok current_data ->
    exists ranking : list (needed_item spec_float),
      priority_ranking current_data = Ok ranking /\
      (forall category : string,
          In category (map n_category ranking) <->
          exists count t : Z,
            In (category, count) current_data /\
            dict_lookup target category = Some t /\ count < t) /\
      (forall e : needed_item spec_float,
          In e ranking ->
          exists (count t : Z) (w : spec_float),
            In (n_category e, count) current_data /\
            dict_lookup target (n_category e) = Some t /\
            dict_lookup weights (n_category e) = Some w /\
            n_needed e = t - count /\
            n_priority e = b64_mul (b64_truediv (t - count) t) w) /\
      StronglySorted descending ranking /\
      (forall a b : needed_item spec_float,
          precedes ranking a b ->
          SFeqb (n_priority a) (n_priority b) = true ->
          precedes (map fst current_data) (n_category a) (n_category b)) /\
      (map fst current_data = categories ->
       forall a b : needed_item spec_float,
          precedes ranking a b ->
          SFeqb (n_priority a) (n_priority b) = true ->
          precedes categories (n_category a) (n_category b)) /\
      surfaced ranking
        = combine [urgent; urgent; urgent; important; important] (firstn 5 ranking) /\
      (length (surfaced ranking) <= 5)%nat.
Proof.
  intros current_data Hok.
  pose proof (proj1 Hok) as Hnd.
  assert (Hkeys : forall k, In k (map fst current_data) -> In k categories).
  { intros k Hk. apply in_map_iff in Hk. destruct Hk as [[k' c] [Hk Hin]].
    cbn [fst] in Hk. subst k'. apply (proj2 Hok k c Hin). }
  destruct (calculate_score_ok spec_float binary64 current_data Hkeys
              (b64_quotients_fit current_data Hok)) as [r [Hr Ht]].
  exists (sort_by_priority (flat_map needed_entry current_data)).
  pose proof (sort_by_priority_perm spec_float binary64 (flat_map needed_entry current_data))
    as Hperm.
  assert (Hin : forall e : needed_item spec_float,
             In e (sort_by_priority (flat_map needed_entry current_data)) <->
                          exists kc, In kc current_data /\ In e (needed_entry kc)).
  { intros e. rewrite <- in_flat_map. split; intros H.
    - apply (Permutation_in _ Hperm), H.
    - apply (Permutation_in _ (Permutation_sym Hperm)), H. }
  assert (Hties : forall a b : needed_item spec_float,
             precedes (sort_by_priority (flat_map needed_entry current_data)) a b ->
             SFeqb (n_priority a) (n_priority b) = true ->
             precedes (map fst current_data) (n_category a) (n_category b)).
  { intros a b Hab Htie. apply (needed_entries_order spec_float binary64).
    apply (sort_by_priority_stable spec_float binary64); [ exact Hab | ].
    apply SFeqb_not_SFltb, Htie. }
  split; [ | split; [ | split; [ | split; [ | split; [ | split; [ | split ] ] ] ] ] ].
  - unfold priority_ranking. rewrite Hr. cbn [rbind]. rewrite Ht.
    rewrite (needed_data_entries spec_float binary64 current_data Hnd
               (b64_shortfalls_fit current_data Hok)).
    reflexivity.
  - intros category. rewrite in_map_iff. split.
    + intros [e [Hcat He]]. apply Hin in He. destruct He as [[k c] [Hkc He]].
      apply needed_entry_In in He. cbn [fst snd] in He.
      destruct He as [t [w [Et [_ [Hlt He]]]]]. subst e. cbn [n_category] in Hcat. subst k.
      exists c, t. auto.
    + intros [count [t [Hkc [Et Hlt]]]].
      assert (Hcat : In category categories).
      { apply Hkeys. apply in_map_iff. exists (category, count). split; [ reflexivity | exact Hkc ]. }
      destruct (category_tables spec_float binary64 category Hcat) as [t' [p [Et' [Ew _]]]].
      exists {| n_category := category; n_needed := t - count;
                n_priority := mul (truediv (t - count) t) (of_decimal (p # 100)) |}.
      split; [ reflexivity | ]. apply Hin. exists (category, count). split; [ exact Hkc | ].
      apply needed_entry_In. cbn [fst snd]. exists t, (of_decimal (p # 100)).
      repeat split; assumption.
  - intros e He. apply Hin in He. destruct He as [[k c] [Hkc He]].
    apply needed_entry_In in He. cbn [fst snd] in He.
    destruct He as [t [w [Et [Ew [_ He]]]]]. subst e. cbn [n_category n_needed n_priority].
    exists c, t, w. repeat split; assumption.
  - apply Sorted_StronglySorted.
    + intros a b c. apply descending_trans.
    + apply sort_by_priority_sorted, needed_entries_number.
  - exact Hties.
  - intros Hcats a b Hab Htie. rewrite <- Hcats. apply Hties; assumption.
  - apply (surfaced_flags spec_float binary64).
  - rewrite (surfaced_flags spec_float binary64). rewrite length_combine. cbn [length]. apply Nat.le_min_l.
Qed.

(** The ranking of the dict with 30 QnA rows and nothing else. *)
Lemma shortfall_priority_ranking_witness :
  exists ranking : list (needed_item spec_float),
    priority_ranking (counts_dict [30; 0; 0; 0; 0; 0; 0; 0; 0]) = Ok ranking /\
    StronglySorted descending ranking /\
    (length (surfaced ranking) <= 5)%nat.
Proof.
  assert (Hok : counts_ok (counts_dict [30; 0; 0; 0; 0; 0; 0; 0; 0])).
  { apply counts_dict_ok.
    repeat (constructor; [ split; [ lia | reflexivity ] | ]). constructor. }
  destruct (shortfall_priority_ranking (counts_dict [30; 0; 0; 0; 0; 0; 0; 0; 0]) Hok)
    as [ranking [H1 [_ [_ [H2 [_ [_ [_ H3]]]]]]]].
  exists ranking. split; [ exact H1 | split; [ exact H2 | exact H3 ] ].
Defined.

(** * Properties of the row store gateway *)

(** ** Worlds *)

Lemma set_sql_log_twice (l1 l2 : list statement) (w : world) :
  set_sql_log l2 (set_sql_log l1 w) = set_sql_log l2 w.
Proof. reflexivity. Qed.

Lemma set_sql_log_same (w : world) : set_sql_log (sql_log w) w = w.
Proof. destruct w. reflexivity. Qed.

(** ** The cache and the transaction *)

Lemma cache_lookup_None (c : list cached) (trainer_id category : string) :
  cache_lookup c trainer_id category = None -> cache_find c trainer_id category = None.
Proof.
  unfold cache_lookup. destruct (cache_find c trainer_id category); [ discriminate | reflexivity ].
Qed.

(** A call that the cache holds no answer for runs the body. *)
Lemma get_category_data_miss (env : environment) (trainer_id category : string) (w : world) :
  cache_lookup (data_cache w) trainer_id category = None ->
  get_category_data env trainer_id category w = run_and_keep env trainer_id category w.
Proof.
  intros H. unfold get_category_data. rewrite (cache_lookup_None _ _ _ H). reflexivity.
Qed.


(** A statement that the store takes, sent in a transaction that is not in
    the failed state, acts on the store. *)
Lemma execute_taken (env : environment) (q : statement) (w : world) :
  in_failed_transaction env w = false ->
  execute_error env q = None ->
  execute env q w = apply_statement q (set_sql_log (sql_log w ++ [q]) w).
Proof.
  intros Hw Hq. unfold execute. rewrite Hq, Hw. reflexivity.
Qed.

(** The connection [get_safe_connection] hands out is in no failed
    transaction: its probe went through, or it is new. *)
Lemma get_safe_connection_healthy (env : environment) (w w1 : world) :
  get_safe_connection env w = (Ok tt, w1) -> in_failed_transaction env w1 = false.
Proof.
  unfold get_safe_connection. unfold bind at 1.
  destruct (get_db_connection env w) as [[[] | e0] w0] eqn:Hget; [ | discriminate ].
  unfold try_except. unfold bind at 1. unfold execute.
  destruct (execute_error env SelectOne) as [e | ] eqn:Hprobe.
  - assert (Hnew : forall w2 : world,
               bind (modify (set_connected false)) (fun _ => get_db_connection env)
                 (set_aborted_by (Some SelectOne) (set_sql_log (sql_log w0 ++ [SelectOne]) w0))
               = (Ok tt, w2) ->
               in_failed_transaction env w2 = false).
    { intros w2. unfold bind, modify, get_db_connection. cbn [connected set_connected].
      destruct (connect_error env); [ discriminate | ].
      intros H. inversion H. reflexivity. }
    destruct e; try discriminate; apply Hnew.
  - destruct (in_failed_transaction env w0) eqn:Hfailed; [ discriminate | ].
    cbn [apply_statement ret]. intros H. inversion H. subst w1. exact Hfailed.
Qed.

(** Rewrites the tests of the state of the transaction with [Hh], which
    says that the transaction is not in the failed state. *)
Ltac healthy Hh :=
  repeat match goal with
         | |- context [in_failed_transaction ?env ?w'] =>
             rewrite (Hh : in_failed_transaction env w' = false)
         end.

(** ** Unknown categories (C6) *)

Lemma delete_data_unknown_category (env : environment) (category : string) (data_id : Z)
  (w w1 : world) :
  get_safe_connection env w = (Ok tt, w1) ->
  dict_lookup tables category = None ->
  delete_data env category data_id w = (Ok (false, msg_bad_category), w1).
Proof.
  intros Hconn Hcat. unfold delete_data, bind. rewrite Hconn, Hcat. reflexivity.
Qed.

Lemma update_data_unknown_category (env : environment) (category : string) (data_id : Z)
  (updated_fields : list (string * sql_value)) (w w1 : world) :
  get_safe_connection env w = (Ok tt, w1) ->
  dict_lookup tables category = None ->
  update_data env category data_id updated_fields w = (Ok (false, msg_bad_category), w1).
Proof.
  intros Hconn Hcat. unfold update_data, bind. rewrite Hconn, Hcat. reflexivity.
Qed.

Lemma get_category_data_unknown_category (env : environment) (trainer_id category : string)
  (w : world) :
  dict_lookup listing_tables category = None ->
  cache_lookup (data_cache w) trainer_id category = None ->
  fst (get_category_data env trainer_id category w) = Ok empty_frame.
Proof.
  intros Hcat Hcache. rewrite (get_category_data_miss env _ _ _ Hcache).
  unfold run_and_keep, get_category_data_body, try_except, bind. rewrite Hcat.
  destruct (get_safe_connection env w) as [[[] | e] w1]; reflexivity.
Qed.

(** A name that is no key of [tables] fails every test of the chain of
    [add_data]. *)
Lemma unknown_category_tests (category : string) :
  dict_lookup tables category = None ->
  Forall (fun name => String.eqb category name = false) categories.
Proof.
  unfold tables. cbn [dict_lookup]. intros H.
  unfold categories.
  repeat match type of H with
         | (if String.eqb ?a category then _ else _) = None =>
             let E := fresh "E" in
             destruct (String.eqb a category) eqn:E; [ discriminate H | ];
             rewrite String.eqb_sym in E
         end.
  repeat (constructor; [ assumption | ]). constructor.
Qed.

Lemma add_data_unknown_category (env : environment) (trainer_id category : string)
  (data_dict : list (string * string)) (w w1 : world) :
  get_safe_connection env w = (Ok tt, w1) ->
  commit_error env = None ->
  dict_lookup tables category = None ->
  add_data env trainer_id category data_dict w
  = (Ok (true, msg_added), set_committed (session w1) w1).
Proof.
  intros Hconn Hcommit Hcat.
  pose proof (unknown_category_tests category Hcat) as Htests.
  unfold categories in Htests.
  repeat match type of Htests with
         | Forall _ (_ :: _) =>
             let E := fresh "E" in
             inversion Htests as [ | ? ? E Htests' ]; subst; clear Htests;
             rename Htests' into Htests
         end.
  unfold add_data, bind. rewrite Hconn. unfold try_except.
  repeat match goal with
         | E : String.eqb category _ = false |- _ => rewrite E; clear E
         end.
  unfold add_data_finish, bind, commit.
  rewrite Hcommit, (get_safe_connection_healthy env w w1 Hconn). reflexivity.
Qed.

Lemma dict_lookup_not_In {V : Type} (d : list (string * V)) (k : string) :
  ~ In k (map fst d) -> dict_lookup d k = None.
Proof.
  induction d as [ | [k' v] d IH ]; cbn [dict_lookup map fst In]; [ reflexivity | ].
  intros H. destruct (String.eqb k' k) eqn:E.
  - apply String.eqb_eq in E. tauto.
  - apply IH. tauto.
Qed.

(** C6 (the failing input). [add_data] with a category outside the nine sends
    no INSERT and still reports success: it commits the session as it is and
    returns [(True, the message of an insert)]. [delete_data], [update_data]
    and [get_category_data] turn the same name down. So it is for every name
    outside the nine, and for the name recipes in a store where nothing
    fails. *)
Theorem add_data_accepts_unknown_category :
  (forall (env : environment) (trainer_id category : string)
          (data_dict : list (string * string)) (data_id : Z)
          (updated_fields : list (string * sql_value)) (w w1 : world),
      ~ In category categories ->
      get_safe_connection env w = (Ok tt, w1) ->
      commit_error env = None ->
      add_data env trainer_id category data_dict w
        = (Ok (true, msg_added), set_committed (session w1) w1) /\
      delete_data env category data_id w = (Ok (false, msg_bad_category), w1) /\
      update_data env category data_id updated_fields w = (Ok (false, msg_bad_category), w1) /\
      (cache_lookup (data_cache w) trainer_id category = None ->
       fst (get_category_data env trainer_id category w) = Ok empty_frame)) /\
  dict_lookup tables "recipes" = None /\
  fst (add_data quiet "tr_001" "recipes" [] fresh) = Ok (true, msg_added) /\
  filter is_write (sql_log (snd (add_data quiet "tr_001" "recipes" [] fresh))) = [] /\
  fst (delete_data quiet "recipes" 1 fresh) = Ok (false, msg_bad_category) /\
  fst (update_data quiet "recipes" 1 [] fresh) = Ok (false, msg_bad_category) /\
  fst (get_category_data quiet "tr_001" "recipes" fresh) = Ok empty_frame.
Proof.
  split.
  - intros env trainer_id category data_dict data_id updated_fields w w1 Hno Hconn Hcommit.
    assert (Htables : dict_lookup tables category = None)
      by (apply dict_lookup_not_In; exact Hno).
    assert (Hlisting : dict_lookup listing_tables category = None)
      by (apply dict_lookup_not_In; exact Hno).
    split; [ exact (add_data_unknown_category env trainer_id category data_dict w w1
                      Hconn Hcommit Htables) | ].
    split; [ exact (delete_data_unknown_category env category data_id w w1 Hconn Htables) | ].
    split; [ exact (update_data_unknown_category env category data_id updated_fields w w1
                      Hconn Htables) | ].
    exact (get_category_data_unknown_category env trainer_id category w Hlisting).
  - repeat split; vm_compute; reflexivity.
Qed.

(** ** The read cache (C7) *)

Lemma keeps_cache_ret {X : Type} (x : X) : keeps_cache (ret x).
Proof. intros w. reflexivity. Qed.

Lemma keeps_cache_raise {X : Type} (e : exn) : keeps_cache (raise (X := X) e).
Proof. intros w. reflexivity. Qed.

Lemma keeps_cache_lift {X : Type} (r : result X) : keeps_cache (lift r).
Proof. intros w. reflexivity. Qed.

Lemma keeps_cache_bind {X Y : Type} (m : M X) (k : X -> M Y) :
  keeps_cache m -> (forall x, keeps_cache (k x)) -> keeps_cache (bind m k).
Proof.
  intros Hm Hk w. unfold bind. specialize (Hm w).
  destruct (m w) as [[x | e] w1]; cbn [snd] in *.
  - rewrite (Hk x w1). exact Hm.
  - exact Hm.
Qed.

Lemma keeps_cache_try_except {X : Type} (body : M X) (handler : exn -> M X) :
  keeps_cache body -> (forall e, keeps_cache (handler e)) -> keeps_cache (try_except body handler).
Proof.
  intros Hb Hh w. unfold try_except. specialize (Hb w).
  destruct (body w) as [[x | e] w1]; cbn [snd] in *.
  - exact Hb.
  - rewrite (Hh e w1). exact Hb.
Qed.

Lemma keeps_cache_execute (env : environment) (q : statement) : keeps_cache (execute env q).
Proof.
  intros w. unfold execute. destruct (execute_error env q); [ reflexivity | ].
  destruct (in_failed_transaction env w); [ reflexivity | ].
  destruct q as [ | | | table columns values | table assignments id | ];
    cbn [apply_statement]; try reflexivity.
  - destruct (Nat.eqb _ _); reflexivity.
  - destruct assignments; reflexivity.
Qed.

Lemma keeps_cache_commit (env : environment) : keeps_cache (commit env).
Proof.
  intros w. unfold commit. destruct (commit_error env); [ reflexivity | ].
  destruct (in_failed_transaction env w); reflexivity.
Qed.

Lemma keeps_cache_rollback : keeps_cache rollback.
Proof. intros w. reflexivity. Qed.

Lemma keeps_cache_requests_post (env : environment) (rq : http_request) :
  keeps_cache (requests_post env rq).
Proof. intros w. unfold requests_post. destruct (post env rq); reflexivity. Qed.

Lemma keeps_cache_get_db_connection (env : environment) : keeps_cache (get_db_connection env).
Proof.
  intros w. unfold get_db_connection.
  destruct (connected w); [ reflexivity | ]. destruct (connect_error env); reflexivity.
Qed.

Lemma keeps_cache_get_safe_connection (env : environment) :
  keeps_cache (get_safe_connection env).
Proof.
  unfold get_safe_connection.
  apply keeps_cache_bind; [ apply keeps_cache_get_db_connection | intros _ ].
  apply keeps_cache_try_except.
  - apply keeps_cache_bind; [ apply keeps_cache_execute | intros _; apply keeps_cache_ret ].
  - intros e. destruct e; try apply keeps_cache_raise;
      (apply keeps_cache_bind; [ intros w; reflexivity | intros _; apply keeps_cache_get_db_connection ]).
Qed.

Ltac keeps_cache_step :=
  first
    [ apply keeps_cache_ret
    | apply keeps_cache_raise
    | apply keeps_cache_lift
    | apply keeps_cache_execute
    | apply keeps_cache_commit
    | apply keeps_cache_rollback
    | apply keeps_cache_requests_post
    | apply keeps_cache_get_safe_connection
    | apply keeps_cache_bind; [ | intros ? ]
    | apply keeps_cache_try_except; [ | intros ? ]
    | match goal with
      | |- keeps_cache (if ?c then _ else _) => destruct c
      end ].

(** [add_data] never touches [st.cache_data]: whatever it is given and
    whatever happens, the cache is afterwards what it was. *)
Lemma add_data_keeps_cache (env : environment) (trainer_id category : string)
  (data_dict : list (string * string)) :
  keeps_cache (add_data env trainer_id category data_dict).
Proof.
  unfold add_data, add_data_finish, field. repeat keeps_cache_step.
Qed.

(** A delete or an update that succeeds leaves the cache empty. *)
Lemma delete_data_clears_cache (env : environment) (category : string) (data_id : Z)
  (w : world) (message : string) :
  fst (delete_data env category data_id w) = Ok (true, message) ->
  data_cache (snd (delete_data env category data_id w)) = [].
Proof.
  unfold delete_data, bind.
  destruct (get_safe_connection env w) as [[[] | e] w1]; [ | discriminate ].
  destruct (dict_lookup tables category) as [table | ]; [ | discriminate ].
  unfold try_except, bind.
  destruct (execute env (DeleteFrom table data_id) w1) as [[rows | e] w2];
    [ | cbn; discriminate ].
  destruct (commit env w2) as [[[] | e] w3]; [ | cbn; discriminate ].
  intros _. reflexivity.
Qed.

Lemma update_data_clears_cache (env : environment) (category : string) (data_id : Z)
  (updated_fields : list (string * sql_value)) (w : world) (message : string) :
  fst (update_data env category data_id updated_fields w) = Ok (true, message) ->
  data_cache (snd (update_data env category data_id updated_fields w)) = [].
Proof.
  unfold update_data, bind.
  destruct (get_safe_connection env w) as [[[] | e] w1]; [ | discriminate ].
  destruct (dict_lookup tables category) as [table | ]; [ | discriminate ].
  unfold try_except, bind.
  destruct (execute env (UpdateSet table updated_fields data_id) w1) as [[rows | e] w2];
    [ | cbn; discriminate ].
  destruct (commit env w2) as [[[] | e] w3]; [ | cbn; discriminate ].
  intros _. reflexivity.
Qed.

(** C7 (the failing input). [add_data] never touches [st.cache_data],
    whatever it is given and whatever it returns. With the QnA listing of
    tr_001 in the cache, a successful [add_data] leaves the cache as it was:
    the store then holds two rows and [get_category_data] still answers with
    the cached listing of one. [delete_data] and [update_data] on the same
    world empty the cache. *)
Theorem add_data_leaves_cached_listing :
  (forall (env : environment) (trainer_id category : string)
          (data_dict : list (string * string)) (w : world),
      data_cache (snd (add_data env trainer_id category data_dict w)) = data_cache w) /\
  length (data_cache listed_world) = 1%nat /\
  fst (add_data quiet "tr_001" "QnA" [("question", "q2"); ("answer", "a2")] listed_world)
    = Ok (true, msg_added) /\
  data_cache added_world = data_cache listed_world /\
  length (committed added_world "data_trainer_qna") = 2%nat /\
  (exists df : dataframe,
      fst (get_category_data quiet "tr_001" "QnA" added_world) = Ok df /\
      length (df_rows df) = 1%nat) /\
  data_cache (snd (delete_data quiet "QnA" 1 listed_world)) = [] /\
  data_cache (snd (update_data quiet "QnA" 1 [("answer", SqlText "a3")] listed_world)) = [].
Proof.
  split; [ intros env trainer_id category data_dict w; apply add_data_keeps_cache | ].
  split; [ vm_compute; reflexivity | ].
  split; [ vm_compute; reflexivity | ].
  split; [ apply add_data_keeps_cache | ].
  split; [ vm_compute; reflexivity | ].
  split; [ eexists; split; vm_compute; reflexivity | ].
  split; vm_compute; reflexivity.
Qed.

(** ** The tone-analysis trigger (C8) *)

Lemma pair_of_fst {X Y : Type} (p : X * Y) (x : X) : fst p = x -> p = (x, snd p).
Proof. intros H. destruct p. cbn in *. subst. reflexivity. Qed.

(** The branch of [add_data] for tone samples. *)
Lemma add_data_tone_branch (env : environment) (trainer_id : string)
  (data_dict : list (string * string)) :
  add_data env trainer_id "톤/말투" data_dict
  = bind (get_safe_connection env)
      (fun _ =>
         try_except
           (bind (field data_dict "raw_data")
              (fun raw_data =>
                 bind (execute env (tone_insert trainer_id data_dict raw_data))
                   (fun _ =>
                      bind (commit env)
                        (fun _ =>
                           try_except
                             (bind (requests_post env (analyze_tone_request env trainer_id 30))
                                (fun response =>
                                   if fst response =? 200 then ret (true, msg_tone_added)
                                   else ret (true, msg_tone_analysis_failed ++ snd response)))
                             (fun analyze_error =>
                                ret (true, msg_tone_call_failed ++ exn_str analyze_error))))))
           (fun e => bind rollback (fun _ => ret (false, msg_add_failed ++ exn_str e)))).
Proof. reflexivity. Qed.

(** C8 (a 2xx status that is no success). A response with status 204 is
    reported as a failure by the manual trigger, and as a failed analysis by
    [add_data]. *)
Lemma status_204_is_reported_as_failure :
  fst (trigger_tone_analyze (answering (HttpResponse 204 "")) "tr_001" fresh)
    = Ok (false, msg_analysis_failed) /\
  fst (add_data (answering (HttpResponse 204 "")) "tr_001" "톤/말투" [("raw_data", "hi")] fresh)
    = Ok (true, msg_tone_analysis_failed).
Proof. split; vm_compute; reflexivity. Qed.

(** C8 (as amended). Once the row of a tone sample is inserted and committed,
    [add_data] returns success whatever the analysis call does: the message
    is the plain one for status 200 and a warning for any other status and for
    an exception; the row stays committed; one request was sent, with a
    timeout of 30. The manual trigger sends one request with a timeout of 15
    and reports success exactly for status 200. *)
Theorem tone_analysis_failure_is_soft :
  forall (env : environment) (trainer_id raw_data : string)
         (data_dict : list (string * string)) (w w1 : world),
    get_safe_connection env w = (Ok tt, w1) ->
    dict_lookup data_dict "raw_data" = Some raw_data ->
    execute_error env (tone_insert trainer_id data_dict raw_data) = None ->
    commit_error env = None ->
    (exists w' : world,
        add_data env trainer_id "톤/말투" data_dict w
        = (Ok (true, tone_message (post env (analyze_tone_request env trainer_id 30))), w') /\
        committed w' "data_trainer_tones_raw"
        = tone_row (next_id w1) trainer_id data_dict raw_data
            :: session w1 "data_trainer_tones_raw" /\
        session w' "data_trainer_tones_raw" = committed w' "data_trainer_tones_raw" /\
        http_log w' = (http_log w1 ++ [analyze_tone_request env trainer_id 30])%list) /\
    (exists ok message,
        trigger_tone_analyze env trainer_id w
        = (Ok (ok, message),
           set_http_log (http_log w ++ [analyze_tone_request env trainer_id 15]) w) /\
        (ok = true <->
         exists body, post env (analyze_tone_request env trainer_id 15) = HttpResponse 200 body)).
Proof.
  intros env trainer_id raw_data data_dict w w1 Hconn Hraw Hexec Hcommit. split.
  - pose proof (get_safe_connection_healthy env w w1 Hconn) as Hh.
    rewrite add_data_tone_branch. unfold bind at 1. rewrite Hconn.
    unfold try_except at 1. unfold bind at 1. unfold field, lift, dict_getitem. rewrite Hraw.
    unfold bind at 1. unfold execute. rewrite Hexec. healthy Hh.
    unfold tone_insert at 1. cbn [apply_statement length Nat.eqb].
    unfold bind at 1. unfold commit. rewrite Hcommit. healthy Hh.
    unfold try_except, bind, requests_post.
    destruct (post env (analyze_tone_request env trainer_id 30)) as [e | status body];
      cbn [tone_message fst snd].
    + eexists. split; [ reflexivity | ]. cbn. repeat split; reflexivity.
    + destruct (status =? 200); eexists; (split; [ reflexivity | ]); cbn;
        repeat split; reflexivity.
  - unfold trigger_tone_analyze, try_except, bind, requests_post.
    destruct (post env (analyze_tone_request env trainer_id 15)) as [e | status body] eqn:E.
    + eexists. eexists. split; [ reflexivity | ]. split; [ discriminate | ].
      intros [body' H]. discriminate.
    + cbn [fst snd]. destruct (status =? 200) eqn:Es; eexists; eexists;
        (split; [ reflexivity | ]).
      * apply Z.eqb_eq in Es. subst status. split; [ intros _; eexists; reflexivity | reflexivity ].
      * apply Z.eqb_neq in Es. split; [ discriminate | ].
        intros [body' H]. inversion H. contradiction.
Qed.

(** The tone sample is kept when the backend answers 500. *)
Lemma tone_analysis_failure_is_soft_witness :
  fst (add_data (answering (HttpResponse 500 "boom")) "tr_001" "톤/말투"
         [("raw_data", "hi")] fresh)
  = Ok (true, msg_tone_analysis_failed ++ "boom").
Proof.
  destruct (tone_analysis_failure_is_soft (answering (HttpResponse 500 "boom"))
              "tr_001" "hi" [("raw_data", "hi")] fresh
              (snd (get_safe_connection (answering (HttpResponse 500 "boom")) fresh))
              (pair_of_fst _ _ eq_refl) eq_refl eq_refl eq_refl) as [[w' [H _]] _].
  rewrite H. reflexivity.
Defined.

(** ** Counting by owner (C9) *)

Lemma count_loop_counts (env : environment) (trainer_id : string)
  (items : list (string * string)) :
  forall (data : list (string * Z)) (w : world),
    count_loop env trainer_id items data w
    = (Ok (data ++ counts_from env trainer_id (session w) (in_failed_transaction env w) items)%list,
       set_aborted_by (aborted_after env trainer_id items (aborted_by w))
         (set_sql_log (sql_log w ++ map (fun nt => SelectCount (snd nt) trainer_id) items) w)).
Proof.
  induction items as [ | [name table] items IH ]; intros data w.
  - cbn [count_loop map counts_from aborted_after]. rewrite !app_nil_r.
    destruct w. reflexivity.
  - cbn [count_loop map fst snd counts_from aborted_after].
    unfold bind at 1. unfold try_except, bind, execute.
    destruct (execute_error env (SelectCount table trainer_id)) as [e | ] eqn:E.
    + cbn [ret]. rewrite IH.
      replace (in_failed_transaction env
                 (set_aborted_by (Some (SelectCount table trainer_id))
                    (set_sql_log (sql_log w ++ [SelectCount table trainer_id]) w)))
        with true
        by (unfold in_failed_transaction; cbn [aborted_by set_aborted_by]; rewrite E;
            reflexivity).
      cbn [sql_log set_sql_log set_aborted_by session aborted_by].
      rewrite <- !app_assoc. reflexivity.
    + destruct (in_failed_transaction env w) eqn:F.
      * cbn [ret]. rewrite IH.
        rewrite (F : in_failed_transaction env
                       (set_sql_log (sql_log w ++ [SelectCount table trainer_id]) w) = true).
        cbn [sql_log set_sql_log session aborted_by]. rewrite <- !app_assoc. reflexivity.
      * cbn [apply_statement ret]. rewrite IH.
        rewrite (F : in_failed_transaction env
                       (set_sql_log (sql_log w ++ [SelectCount table trainer_id]) w) = false).
        cbn [sql_log set_sql_log session aborted_by]. rewrite <- !app_assoc. reflexivity.
Qed.

Lemma counts_from_keys (env : environment) (trainer_id : string) (db : database)
  (items : list (string * string)) :
  forall failed : bool, map fst (counts_from env trainer_id db failed items) = map fst items.
Proof.
  induction items as [ | [name table] items IH ]; intros failed; [ reflexivity | ].
  cbn [counts_from]. destruct (execute_error env (SelectCount table trainer_id));
    cbn [map fst]; rewrite IH; reflexivity.
Qed.

(** In the failed state every count is 0. *)
Lemma counts_from_failed (env : environment) (trainer_id : string) (db : database)
  (items : list (string * string)) :
  counts_from env trainer_id db true items = map (fun nt => (fst nt, 0)) items.
Proof.
  induction items as [ | [name table] items IH ]; [ reflexivity | ].
  cbn [counts_from map fst]. rewrite IH.
  destruct (execute_error env (SelectCount table trainer_id)); reflexivity.
Qed.

(** Up to the first query the store refuses the counts are the rows; from
    that query on they are 0. *)
Lemma counts_from_first_failure (env : environment) (trainer_id name table : string)
  (db : database) (before after : list (string * string)) :
  (forall nt, In nt before -> execute_error env (SelectCount (snd nt) trainer_id) = None) ->
  execute_error env (SelectCount table trainer_id) <> None ->
  counts_from env trainer_id db false (before ++ (name, table) :: after)
  = (map (fun nt => (fst nt, rows_of db trainer_id (snd nt))) before
     ++ map (fun nt => (fst nt, 0)) ((name, table) :: after))%list.
Proof.
  intros Hbefore Hfails.
  induction before as [ | [name' table'] before IH ].
  - cbn [app counts_from map fst].
    destruct (execute_error env (SelectCount table trainer_id)); [ | tauto ].
    rewrite counts_from_failed. reflexivity.
  - cbn [app counts_from map fst snd].
    pose proof (Hbefore (name', table') (or_introl eq_refl)) as Hfirst. cbn [snd] in Hfirst.
    rewrite Hfirst.
    rewrite IH; [ reflexivity | ]. intros nt Hnt. apply Hbefore. right. exact Hnt.
Qed.

Lemma counts_from_no_failure (env : environment) (trainer_id : string) (db : database)
  (items : list (string * string)) :
  (forall nt, In nt items -> execute_error env (SelectCount (snd nt) trainer_id) = None) ->
  counts_from env trainer_id db false items
  = map (fun nt => (fst nt, rows_of db trainer_id (snd nt))) items.
Proof.
  induction items as [ | [name table] items IH ]; intros Hnone; [ reflexivity | ].
  cbn [counts_from map fst snd].
  pose proof (Hnone (name, table) (or_introl eq_refl)) as Hfirst. cbn [snd] in Hfirst.
  rewrite Hfirst.
  rewrite IH; [ reflexivity | ]. intros nt Hnt. apply Hnone. right. exact Hnt.
Qed.

Lemma aborted_after_none (env : environment) (trainer_id : string)
  (items : list (string * string)) (aborted : option statement) :
  (forall nt, In nt items -> execute_error env (SelectCount (snd nt) trainer_id) = None) ->
  aborted_after env trainer_id items aborted = aborted.
Proof.
  revert aborted. induction items as [ | [name table] items IH ]; intros aborted Hnone;
    [ reflexivity | ].
  cbn [aborted_after].
  pose proof (Hnone (name, table) (or_introl eq_refl)) as Hfirst. cbn [snd] in Hfirst.
  rewrite Hfirst.
  apply IH. intros nt Hnt. apply Hnone. right. exact Hnt.
Qed.

(** After a count query that the store refused the transaction is in the
    failed state. *)
Lemma aborted_after_failure (env : environment) (trainer_id : string)
  (items : list (string * string)) :
  forall aborted : option statement,
    (exists q, aborted = Some q /\ execute_error env q <> None) \/
    (exists nt, In nt items /\ execute_error env (SelectCount (snd nt) trainer_id) <> None) ->
    exists q, aborted_after env trainer_id items aborted = Some q /\
              execute_error env q <> None.
Proof.
  induction items as [ | [name table] items IH ]; intros aborted H.
  - destruct H as [H | [nt [[] _]]]. exact H.
  - cbn [aborted_after]. apply IH.
    destruct (execute_error env (SelectCount table trainer_id)) as [e | ] eqn:E.
    + left. eexists. split; [ reflexivity | ]. rewrite E. discriminate.
    + destruct H as [H | [nt [[Hnt | Hnt] Hfail]]].
      * left. exact H.
      * subst nt. cbn [snd] in Hfail. rewrite E in Hfail. exfalso. apply Hfail. reflexivity.
      * right. exists nt. split; assumption.
Qed.

Lemma get_safe_connection_connected (env : environment) (w w1 : world) :
  get_safe_connection env w = (Ok tt, w1) -> connected w1 = true.
Proof.
  unfold get_safe_connection. unfold bind at 1.
  assert (Hget : forall w0 w2 : world,
             get_db_connection env w0 = (Ok tt, w2) -> connected w2 = true).
  { intros w0 w2. unfold get_db_connection. destruct (connected w0) eqn:E.
    - intros H. inversion H. subst w2. exact E.
    - destruct (connect_error env); [ discriminate | ]. intros H. inversion H. reflexivity. }
  destruct (get_db_connection env w) as [[[] | e0] w0] eqn:H0; [ | discriminate ].
  apply Hget in H0.
  unfold try_except. unfold bind at 1.
  pose proof (keeps_cache_execute env SelectOne w0) as _.
  unfold execute.
  destruct (execute_error env SelectOne) as [e | ].
  - destruct e; try discriminate;
      unfold bind, modify; intros H; apply (Hget _ _ H).
  - destruct (in_failed_transaction env w0); [ discriminate | ].
    cbn [apply_statement ret]. intros H. inversion H. exact H0.
Qed.

(** On a connection whose transaction is in the failed state the probe of
    [get_safe_connection] raises, and nothing catches it. *)
Lemma get_safe_connection_in_failed_transaction (env : environment) (w : world) :
  connected w = true ->
  in_failed_transaction env w = true ->
  execute_error env SelectOne = None ->
  get_safe_connection env w
  = (Raise in_failed_sql_transaction, set_sql_log (sql_log w ++ [SelectOne]) w).
Proof.
  intros Hc Hf Hprobe. unfold get_safe_connection. unfold bind at 1.
  unfold get_db_connection. rewrite Hc.
  unfold try_except. unfold bind at 1. unfold execute. rewrite Hprobe, Hf. reflexivity.
Qed.

(** C9 (the failing input). [get_current_data] sends its nine count queries
    on one connection that does not commit by itself and never rolls back.
    It does return a dict with the nine categories, and a category whose
    query the store refuses gets 0; but that refusal leaves the transaction
    in the failed state, so every category after it gets 0 as well, whatever
    rows its table holds, and the counts are the rows only up to the first
    refusal. The connection is kept as it is: the next call of
    [get_current_data] raises at the probe of the connection. With a QnA row
    and a tone sample of tr_001 and the count of the philosophy table
    refused, the tone count is reported as 0, and the next call raises;
    where no query is refused the tone count is 1. *)
Theorem get_current_data_failed_count_aborts_the_rest :
  (forall (env : environment) (trainer_id : string) (w w1 : world),
      get_safe_connection env w = (Ok tt, w1) ->
      exists (data : list (string * Z)) (w' : world),
        get_current_data env trainer_id w = (Ok data, w') /\
        map fst data = categories /\
        sql_log w' = (sql_log w1 ++ map (fun nt => SelectCount (snd nt) trainer_id) tables)%list /\
        ((forall nt, In nt tables ->
                     execute_error env (SelectCount (snd nt) trainer_id) = None) ->
         data = map (fun nt => (fst nt, rows_of (session w1) trainer_id (snd nt))) tables) /\
        (forall (before after : list (string * string)) (name table : string),
            tables = (before ++ (name, table) :: after)%list ->
            (forall nt, In nt before ->
                        execute_error env (SelectCount (snd nt) trainer_id) = None) ->
            execute_error env (SelectCount table trainer_id) <> None ->
            data = (map (fun nt => (fst nt, rows_of (session w1) trainer_id (snd nt))) before
                    ++ map (fun nt => (fst nt, 0)) ((name, table) :: after))%list /\
            (execute_error env SelectOne = None ->
             forall other : string,
               fst (get_current_data env other w') = Raise in_failed_sql_transaction))) /\
  rows_of (session two_tables_world) "tr_001" "data_trainer_tones_raw" = 1 /\
  fst (get_current_data (failing_table "data_trainer_philosophy") "tr_001" two_tables_world)
  = Ok [ ("QnA", 1); ("운동 가이드라인", 0); ("식단 가이드라인", 0); ("철학/마인드셋", 0);
         ("부상 관리", 0); ("피드백", 0); ("식단 예시", 0); ("운동 예시", 0); ("톤/말투", 0) ] /\
  fst (get_current_data (failing_table "data_trainer_philosophy") "tr_001"
         (snd (get_current_data (failing_table "data_trainer_philosophy") "tr_001"
                 two_tables_world)))
  = Raise in_failed_sql_transaction /\
  fst (get_current_data quiet "tr_001" two_tables_world)
  = Ok [ ("QnA", 1); ("운동 가이드라인", 0); ("식단 가이드라인", 0); ("철학/마인드셋", 0);
         ("부상 관리", 0); ("피드백", 0); ("식단 예시", 0); ("운동 예시", 0); ("톤/말투", 1) ].
Proof.
  split; [ | repeat split; vm_compute; reflexivity ].
  intros env trainer_id w w1 Hconn.
  pose proof (get_safe_connection_healthy env w w1 Hconn) as Hh.
  pose proof (get_safe_connection_connected env w w1 Hconn) as Hc.
  unfold get_current_data. unfold bind at 1. rewrite Hconn. rewrite count_loop_counts.
  rewrite Hh. cbn [app].
  eexists. eexists. split; [ reflexivity | ].
  split; [ rewrite counts_from_keys; reflexivity | ].
  split; [ reflexivity | ].
  split; [ intros Hnone; apply counts_from_no_failure; exact Hnone | ].
  intros before after name table Htables Hbefore Hfails.
  split; [ rewrite Htables; apply counts_from_first_failure; assumption | ].
  intros Hprobe other.
  destruct (aborted_after_failure env trainer_id tables (aborted_by w1)) as [q [Hq Hrefused]].
  { right. exists (name, table). split; [ rewrite Htables; apply in_elt | exact Hfails ]. }
  unfold bind at 1. rewrite get_safe_connection_in_failed_transaction; [ reflexivity | | | ].
  - exact Hc.
  - unfold in_failed_transaction. cbn [aborted_by set_aborted_by]. rewrite Hq.
    destruct (execute_error env q); [ reflexivity | exfalso; apply Hrefused; reflexivity ].
  - exact Hprobe.
Qed.

(** ** Deleting a row that is not there (C10) *)

Lemma filter_no_match (rows : list row) (data_id : Z) :
  (forall r : row, In r rows -> row_id r <> data_id) ->
  filter (fun r => negb (row_id r =? data_id)) rows = rows.
Proof.
  induction rows as [ | r rows IH ]; intros H; cbn [filter]; [ reflexivity | ].
  destruct (row_id r =? data_id) eqn:E.
  - apply Z.eqb_eq in E. exfalso. apply (H r); [ left; reflexivity | exact E ].
  - cbn [negb]. rewrite IH; [ reflexivity | ]. intros r' Hr'. apply H. right. exact Hr'.
Qed.

(** C10. With a category of the nine, a connection, and a store that takes
    the DELETE and the commit, [delete_data] returns [(True, the deletion
    message)] whether or not a row has the id; when none has it, the store
    holds afterwards the rows it held. *)
Theorem delete_data_of_missing_row_succeeds :
  forall (env : environment) (category table : string) (data_id : Z) (w w1 : world),
    get_safe_connection env w = (Ok tt, w1) ->
    dict_lookup tables category = Some table ->
    execute_error env (DeleteFrom table data_id) = None ->
    commit_error env = None ->
    exists w' : world,
      delete_data env category data_id w = (Ok (true, msg_deleted), w') /\
      ((forall r : row, In r (session w1 table) -> row_id r <> data_id) ->
       forall t : string, committed w' t = session w1 t).
Proof.
  intros env category table data_id w w1 Hconn Hcat Hexec Hcommit.
  pose proof (get_safe_connection_healthy env w w1 Hconn) as Hh.
  unfold delete_data, bind. rewrite Hconn, Hcat.
  unfold try_except, bind, execute. rewrite Hexec. healthy Hh. cbn [apply_statement].
  unfold commit. rewrite Hcommit. healthy Hh. cbn [cache_data_clear modify ret].
  eexists. split; [ reflexivity | ].
  intros Hnone t. cbn [committed set_data_cache set_committed session set_session set_sql_log].
  unfold update_table. destruct (String.eqb t table) eqn:E; [ | reflexivity ].
  apply String.eqb_eq in E. subst t. apply filter_no_match, Hnone.
Qed.

(** Deleting row 77 of a table whose only row is row 1. *)
Lemma delete_data_of_missing_row_succeeds_witness :
  fst (delete_data quiet "QnA" 77 one_row_world) = Ok (true, msg_deleted) /\
  committed (snd (delete_data quiet "QnA" 77 one_row_world)) "data_trainer_qna" = [qna_row].
Proof.
  destruct (delete_data_of_missing_row_succeeds quiet "QnA" "data_trainer_qna" 77 one_row_world
              (snd (get_safe_connection quiet one_row_world))
              (pair_of_fst _ _ eq_refl) eq_refl eq_refl eq_refl) as [w' [H Hrows]].
  rewrite H. split; [ reflexivity | ]. cbn [snd]. rewrite Hrows; [ reflexivity | ].
  intros r Hr. cbn in Hr. destruct Hr as [Hr | []]. subst r. cbn. lia.
Defined.


(** * Further properties *)

(** ** Counts at or above every target *)

(** When every category has at least its target, each achievement is capped
    at 100.0, the total is 100.0 and the tier is Gold. *)
Theorem counts_at_or_above_targets_score_100 :
  forall c1 c2 c3 c4 c5 c6 c7 c8 c9 : Z,
    60 <= c1 < 2 ^ 53 -> 30 <= c2 < 2 ^ 53 -> 20 <= c3 < 2 ^ 53 ->
    15 <= c4 < 2 ^ 53 -> 12 <= c5 < 2 ^ 53 -> 10 <= c6 < 2 ^ 53 ->
    15 <= c7 < 2 ^ 53 -> 20 <= c8 < 2 ^ 53 -> 8 <= c9 < 2 ^ 53 ->
    exists r : score_result spec_float,
      calculate_score (counts_dict [c1; c2; c3; c4; c5; c6; c7; c8; c9]) = Ok r /\
      map d_achievement (details r) = repeat (b64_of_int 100) 9 /\
      total_score r = b64_of_decimal (1000 # 10) /\
      tier r = Gold.
Proof.
  intros c1 c2 c3 c4 c5 c6 c7 c8 c9 H1 H2 H3 H4 H5 H6 H7 H8 H9.
  assert (E1 := achievement_capped c1 60 (23 # 100) ltac:(cbn; tauto) (proj1 H1)).
  assert (E2 := achievement_capped c2 30 (18 # 100) ltac:(cbn; tauto) (proj1 H2)).
  assert (E3 := achievement_capped c3 20 (13 # 100) ltac:(cbn; tauto) (proj1 H3)).
  assert (E4 := achievement_capped c4 15 (9 # 100) ltac:(cbn; tauto) (proj1 H4)).
  assert (E5 := achievement_capped c5 12 (9 # 100) ltac:(cbn; tauto) (proj1 H5)).
  assert (E6 := achievement_capped c6 10 (4 # 100) ltac:(cbn; tauto) (proj1 H6)).
  assert (E7 := achievement_capped c7 15 (4 # 100) ltac:(cbn; tauto) (proj1 H7)).
  assert (E8 := achievement_capped c8 20 (10 # 100) ltac:(cbn; tauto) (proj1 H8)).
  assert (E9 := achievement_capped c9 8 (10 # 100) ltac:(cbn; tauto) (proj1 H9)).
  assert (Hok : counts_ok (counts_dict [c1; c2; c3; c4; c5; c6; c7; c8; c9])).
  { apply counts_dict_ok. repeat (constructor; [ lia | ]). constructor. }
  destruct (calculate_score_counts_dict spec_float binary64 c1 c2 c3 c4 c5 c6 c7 c8 c9
              (b64_quotients_fit _ Hok)) as [r [Hr [Htotal [_ [Hach [_ [_ Htier]]]]]]].
  exists r. split; [ exact Hr | ].
  assert (Ht : total_score r = b64_of_decimal (1000 # 10)).
  { rewrite Htotal.
    unfold spec_total_score, spec_category_scores, spec_table.
    cbn [combine map fst snd fold_left]. unfold spec_category_score, spec_achievement.
    cbn [fst snd]. rewrite E1, E2, E3, E4, E5, E6, E7, E8, E9.
    vm_compute. reflexivity. }
  split; [ | split; [ exact Ht | ] ].
  - rewrite Hach. unfold spec_table. cbn [combine map fst snd]. unfold spec_achievement.
    rewrite E1, E2, E3, E4, E5, E6, E7, E8, E9. reflexivity.
  - rewrite Htier, Ht. vm_compute. reflexivity.
Qed.

(** A trainer well above every target. *)
Lemma counts_at_or_above_targets_score_100_witness :
  exists r : score_result spec_float,
    calculate_score (counts_dict [75; 30; 41; 15; 100; 10; 16; 20; 9]) = Ok r /\
    total_score r = b64_of_decimal (1000 # 10) /\
    tier r = Gold.
Proof.
  assert (Hsmall : forall n : Z, n <= 100 -> n < 2 ^ 53).
  { intros n Hn. assert (100 < 2 ^ 53) by reflexivity. lia. }
  destruct (counts_at_or_above_targets_score_100 75 30 41 15 100 10 16 20 9)
    as [r [H [_ [Ht Hg]]]];
    try (split; [ lia | apply Hsmall; lia ]).
  exists r. split; [ exact H | ]. split; assumption.
Defined.

(** ** The INSERT of a meal example *)

(** The branch of [add_data] for meal examples. *)
Lemma add_data_meal_example_branch (env : environment) (trainer_id : string)
  (data_dict : list (string * string)) :
  add_data env trainer_id "식단 예시" data_dict
  = bind (get_safe_connection env)
      (fun _ =>
         try_except
           (bind (field data_dict "title")
              (fun title =>
                 bind (field data_dict "content")
                   (fun content =>
                      bind (field data_dict "meal_type")
                        (fun meal_type =>
                           bind (execute env
                                   (InsertInto "data_trainer_meal_examples"
                                      ["trainer_id"; "title"; "content"; "category"; "language"]
                                      [SqlText trainer_id; SqlText title; SqlText content;
                                       SqlArray [meal_type];
                                       SqlText (dict_get data_dict "user_level" "beginner");
                                       SqlText "ko"]))
                             (fun _ => add_data_finish env)))))
           (fun e => bind rollback (fun _ => ret (false, msg_add_failed ++ exn_str e)))).
Proof. reflexivity. Qed.

(** The INSERT of a meal example names five columns and gives six values:
    the store refuses it, so [add_data] on that category returns [False]
    with the failure message whatever the form holds, stores no row and
    leaves the session rolled back. *)
Theorem add_data_meal_example_never_succeeds :
  forall (env : environment) (trainer_id : string) (data_dict : list (string * string))
         (w w1 : world),
    get_safe_connection env w = (Ok tt, w1) ->
    exists (e : exn) (w' : world),
      add_data env trainer_id "식단 예시" data_dict w
      = (Ok (false, msg_add_failed ++ exn_str e), w') /\
      committed w' = committed w1 /\
      session w' = committed w1.
Proof.
  intros env trainer_id data_dict w w1 Hconn.
  rewrite add_data_meal_example_branch. unfold bind at 1. rewrite Hconn.
  unfold try_except, bind, field, lift, dict_getitem.
  destruct (dict_lookup data_dict "title") as [title | ];
    [ | eexists; eexists; split; [ reflexivity | split; reflexivity ] ].
  destruct (dict_lookup data_dict "content") as [content | ];
    [ | eexists; eexists; split; [ reflexivity | split; reflexivity ] ].
  destruct (dict_lookup data_dict "meal_type") as [meal_type | ];
    [ | eexists; eexists; split; [ reflexivity | split; reflexivity ] ].
  unfold execute.
  match goal with
  | |- context [execute_error env ?q] => destruct (execute_error env q) as [e | ]
  end.
  - eexists. eexists. split; [ reflexivity | split; reflexivity ].
  - pose proof (get_safe_connection_healthy env w w1 Hconn) as Hh. healthy Hh.
    cbn [apply_statement length Nat.eqb].
    eexists. eexists. split; [ reflexivity | split; reflexivity ].
Qed.

(** A complete form, a store in which nothing else fails. *)
Lemma add_data_meal_example_never_succeeds_witness :
  exists message : string,
    fst (add_data quiet "tr_001" "식단 예시"
           [("title", "breakfast"); ("content", "oats"); ("meal_type", "bulk")] fresh)
    = Ok (false, message).
Proof.
  destruct (add_data_meal_example_never_succeeds quiet "tr_001"
              [("title", "breakfast"); ("content", "oats"); ("meal_type", "bulk")] fresh
              (snd (get_safe_connection quiet fresh))
              (pair_of_fst _ _ eq_refl)) as [e [w' [H _]]].
  rewrite H. eexists. reflexivity.
Defined.

(** ** Deleting and updating empty the read cache *)

(** A [delete_data] or an [update_data] that returns [True] leaves
    [st.cache_data] empty, whatever it held. *)
Theorem successful_delete_and_update_clear_cache :
  forall (env : environment) (category : string) (data_id : Z)
         (updated_fields : list (string * sql_value)) (w : world),
    (forall message : string,
        fst (delete_data env category data_id w) = Ok (true, message) ->
        data_cache (snd (delete_data env category data_id w)) = []) /\
    (forall message : string,
        fst (update_data env category data_id updated_fields w) = Ok (true, message) ->
        data_cache (snd (update_data env category data_id updated_fields w)) = []).
Proof.
  intros env category data_id updated_fields w. split; intros message H.
  - exact (delete_data_clears_cache env category data_id w message H).
  - exact (update_data_clears_cache env category data_id updated_fields w message H).
Qed.

(** Deleting the row of a cached listing. *)
Lemma successful_delete_and_update_clear_cache_witness :
  length (data_cache listed_world) = 1%nat /\
  data_cache (snd (delete_data quiet "QnA" 1 listed_world)) = [] /\
  data_cache (snd (update_data quiet "QnA" 1 [("answer", SqlText "a3")] listed_world)) = [].
Proof.
  destruct (successful_delete_and_update_clear_cache quiet "QnA" 1
              [("answer", SqlText "a3")] listed_world) as [Hd Hu].
  split; [ reflexivity | ].
  split; [ exact (Hd _ eq_refl) | exact (Hu _ eq_refl) ].
Defined.

(** * The store operations composed *)

(** ** [add_data] and its INSERT *)

(** [add_data] is the connection, then the INSERT of [insert_of] and what
    follows it, under the handler that rolls back. *)
Lemma add_data_insert_of (env : environment) (trainer_id category : string)
  (data_dict : list (string * string)) :
  add_data env trainer_id category data_dict
  = bind (get_safe_connection env)
      (fun _ =>
         try_except
           match insert_of trainer_id category data_dict with
           | Raise e => raise e
           | Ok None => add_data_finish env
           | Ok (Some q) => bind (execute env q) (fun _ => after_insert env trainer_id category)
           end
           (fun e => bind rollback (fun _ => ret (false, msg_add_failed ++ exn_str e)))).
Proof.
  unfold add_data, insert_of, after_insert, field, lift, dict_getitem.
  repeat match goal with
         | |- context [String.eqb category ?name] =>
             let E := fresh "E" in
             destruct (String.eqb category name) eqn:E;
             [ apply String.eqb_eq in E; subst category;
               repeat match goal with
                      | |- context [dict_lookup data_dict ?k] =>
                          destruct (dict_lookup data_dict k)
                      end;
               reflexivity
             | ]
         end.
  reflexivity.
Qed.




(** ** The connection *)

Lemma get_db_connection_frame (env : environment) (w w1 : world) :
  get_db_connection env w = (Ok tt, w1) ->
  connected w1 = true /\ committed w1 = committed w /\
  session w1 = (if connected w then session w else committed w) /\
  data_cache w1 = data_cache w /\ next_id w1 = next_id w /\ sql_log w1 = sql_log w /\
  http_log w1 = http_log w /\ ui_errors w1 = ui_errors w.
Proof.
  unfold get_db_connection. destruct (connected w) eqn:E.
  - intros H. inversion H. subst w1. rewrite E. repeat split; reflexivity.
  - destruct (connect_error env); [ discriminate | ].
    intros H. inversion H. repeat split; reflexivity.
Qed.

(** A connection that [get_safe_connection] hands out is open; getting it
    writes nothing and leaves the caches alone. *)
Lemma get_safe_connection_frame (env : environment) (w w1 : world) :
  get_safe_connection env w = (Ok tt, w1) ->
  connected w1 = true /\ committed w1 = committed w /\
  data_cache w1 = data_cache w /\ next_id w1 = next_id w /\
  http_log w1 = http_log w /\ ui_errors w1 = ui_errors w /\
  (session w1 = session w \/ session w1 = committed w).
Proof.
  unfold get_safe_connection, bind.
  destruct (get_db_connection env w) as [[[] | e] w0] eqn:E0; [ | discriminate ].
  apply get_db_connection_frame in E0.
  destruct E0 as [Hc [Hcom [Hses [Hcache [Hid [_ [Hhttp Hui]]]]]]].
  unfold try_except, bind, execute.
  destruct (execute_error env SelectOne) as [e | ] eqn:Ee.
  - destruct e; try discriminate.
    + unfold modify.
      match goal with
      | |- get_db_connection env ?w2 = _ -> _ =>
          intros H; apply get_db_connection_frame in H;
          destruct H as [Hc' [Hcom' [Hses' [Hcache' [Hid' [_ [Hhttp' Hui']]]]]]]
      end.
      cbn in *. rewrite Hcom', Hcache', Hid', Hhttp', Hui', Hses'.
      repeat split; try assumption. right. exact Hcom.
    + unfold modify.
      match goal with
      | |- get_db_connection env ?w2 = _ -> _ =>
          intros H; apply get_db_connection_frame in H;
          destruct H as [Hc' [Hcom' [Hses' [Hcache' [Hid' [_ [Hhttp' Hui']]]]]]]
      end.
      cbn in *. rewrite Hcom', Hcache', Hid', Hhttp', Hui', Hses'.
      repeat split; try assumption. right. exact Hcom.
  - destruct (in_failed_transaction env w0); [ discriminate | ].
    cbn [apply_statement ret]. intros H. inversion H. cbn.
    repeat split; try assumption.
    rewrite Hses. destruct (connected w); [ left | right ]; reflexivity.
Qed.



(** ** What a successful [add_data] stores *)









(** ** Listings *)











(** ** Deleting *)

(** [delete_data] deletes by id alone: when the store takes the DELETE and
    the commit, the table of the category has lost every row with the id,
    whoever its trainer is, and no other; the other tables are as they were
    and the cache of listings is empty. *)
Theorem delete_data_removes_by_id :
  forall (env : environment) (category table : string) (data_id : Z) (w w1 : world),
    get_safe_connection env w = (Ok tt, w1) ->
    dict_lookup tables category = Some table ->
    execute_error env (DeleteFrom table data_id) = None ->
    commit_error env = None ->
    exists w' : world,
      delete_data env category data_id w = (Ok (true, msg_deleted), w') /\
      (forall r : row,
          In r (committed w' table) <-> In r (session w1 table) /\ row_id r <> data_id) /\
      committed w' table = filter (fun r => negb (row_id r =? data_id)) (session w1 table) /\
      (forall t : string, t <> table -> committed w' t = session w1 t) /\
      session w' = committed w' /\
      data_cache w' = [].
Proof.
  intros env category table data_id w w1 Hconn Hcat Hexec Hcommit.
  pose proof (get_safe_connection_healthy env w w1 Hconn) as Hh.
  unfold delete_data, bind. rewrite Hconn, Hcat.
  unfold try_except, bind, execute. rewrite Hexec. healthy Hh. cbn [apply_statement].
  unfold commit. rewrite Hcommit. healthy Hh. cbn [cache_data_clear modify ret].
  eexists. split; [ reflexivity | ].
  cbn [committed set_data_cache set_committed session set_session set_sql_log data_cache].
  unfold update_table. rewrite String.eqb_refl.
  split; [ | split; [ reflexivity | split; [ | split; reflexivity ] ] ].
  - intros r. rewrite filter_In, negb_true_iff, Z.eqb_neq. reflexivity.
  - intros t Ht. destruct (String.eqb t table) eqn:E; [ | reflexivity ].
    apply String.eqb_eq in E. contradiction.
Qed.

(** A row of another trainer goes as well. *)
Lemma delete_data_removes_by_id_witness :
  owned_by "tr_002" qna_row = false /\
  committed (snd (delete_data quiet "QnA" 1 one_row_world)) "data_trainer_qna" = [].
Proof.
  destruct (delete_data_removes_by_id quiet "QnA" "data_trainer_qna" 1 one_row_world
              (snd (get_safe_connection quiet one_row_world))
              (pair_of_fst _ _ eq_refl) eq_refl eq_refl eq_refl)
    as [w' [H [_ [Hrows _]]]].
  split; [ reflexivity | ]. rewrite H. cbn [snd]. rewrite Hrows. reflexivity.
Defined.

(** ** Updating *)





Lemma category_listing (category : string) :
  In category categories ->
  exists (table : string) (listed : list string),
    dict_lookup tables category = Some table /\
    dict_lookup listing_tables category = Some (table, listed).
Proof.
  unfold categories. cbn [In]. intros H.
  repeat (destruct H as [H | H];
          [ subst category; eexists; eexists; split; reflexivity | ]).
  destruct H.
Qed.






(** ** When a write fails *)

Lemma execute_frame (env : environment) (q : statement) (w : world) :
  committed (snd (execute env q w)) = committed w /\
  data_cache (snd (execute env q w)) = data_cache w.
Proof.
  unfold execute. destruct (execute_error env q); [ split; reflexivity | ].
  destruct (in_failed_transaction env w); [ split; reflexivity | ].
  destruct q as [ | | | table columns values | table assignments id | ];
    cbn [apply_statement]; try (split; reflexivity).
  - destruct (Nat.eqb _ _); split; reflexivity.
  - destruct assignments; split; reflexivity.
Qed.

(** The handler of the three writes: [conn.rollback()] and [False]. *)
Lemma rolled_back (prefix : string) (e : exn) (w : world) :
  bind rollback (fun _ => ret (false, prefix ++ exn_str e)) w
  = (Ok (false, prefix ++ exn_str e), set_aborted_by None (set_session (committed w) w)).
Proof. reflexivity. Qed.

(** A write that reports failure has changed nothing that lasts: the
    committed rows and the cache of listings are those it found, and after a
    failed statement or commit the connection sees the committed rows again. *)
Theorem failed_write_changes_nothing :
  forall (env : environment) (trainer_id category : string)
         (data_dict : list (string * string)) (data_id : Z)
         (updated_fields : list (string * sql_value)) (w : world),
    (forall message : string,
        fst (add_data env trainer_id category data_dict w) = Ok (false, message) ->
        committed (snd (add_data env trainer_id category data_dict w)) = committed w /\
        session (snd (add_data env trainer_id category data_dict w)) = committed w /\
        data_cache (snd (add_data env trainer_id category data_dict w)) = data_cache w) /\
    (forall message : string,
        fst (delete_data env category data_id w) = Ok (false, message) ->
        committed (snd (delete_data env category data_id w)) = committed w /\
        (In category categories ->
         session (snd (delete_data env category data_id w)) = committed w) /\
        data_cache (snd (delete_data env category data_id w)) = data_cache w) /\
    (forall message : string,
        fst (update_data env category data_id updated_fields w) = Ok (false, message) ->
        committed (snd (update_data env category data_id updated_fields w)) = committed w /\
        (In category categories ->
         session (snd (update_data env category data_id updated_fields w)) = committed w) /\
        data_cache (snd (update_data env category data_id updated_fields w)) = data_cache w).
Proof.
  intros env trainer_id category data_dict data_id updated_fields w.
  split; [ | split ].
  - intros message Hres.
    destruct (add_data env trainer_id category data_dict w) as [res w'] eqn:Hrun.
    cbn [fst snd] in *. subst res. rewrite add_data_insert_of in Hrun.
    unfold bind at 1 in Hrun.
    destruct (get_safe_connection env w) as [[[] | e] w1] eqn:Hconn; [ | discriminate Hrun ].
    apply get_safe_connection_frame in Hconn.
    destruct Hconn as [_ [Hcom [Hcache _]]].
    unfold try_except at 1 in Hrun.
    destruct (insert_of trainer_id category data_dict) as [[q | ] | e].
    + unfold bind at 1 in Hrun.
      pose proof (execute_frame env q w1) as [Hcom1 Hcache1].
      destruct (execute env q w1) as [[rows | e] w2]; cbn [snd] in *.
      * unfold after_insert in Hrun. destruct (String.eqb category "톤/말투").
        -- unfold bind at 1 in Hrun. unfold commit in Hrun.
           destruct (commit_error env) as [e | ].
           ++ rewrite rolled_back in Hrun. inversion Hrun. cbn.
              rewrite Hcom1, Hcache1. auto.
           ++ unfold try_except, bind, requests_post in Hrun.
              destruct (in_failed_transaction env _);
                (destruct (post env _) as [e | status body]; cbn [fst snd] in Hrun;
                 [ discriminate Hrun | destruct (status =? 200); discriminate Hrun ]).
        -- unfold add_data_finish in Hrun. unfold bind at 1 in Hrun. unfold commit in Hrun.
           destruct (commit_error env) as [e | ];
             [ | destruct (in_failed_transaction env _); discriminate Hrun ].
           rewrite rolled_back in Hrun. inversion Hrun. cbn.
           rewrite Hcom1, Hcache1. auto.
      * rewrite rolled_back in Hrun. inversion Hrun. cbn. rewrite Hcom1, Hcache1. auto.
    + unfold add_data_finish in Hrun. unfold bind at 1 in Hrun. unfold commit in Hrun.
      destruct (commit_error env) as [e | ];
             [ | destruct (in_failed_transaction env _); discriminate Hrun ].
      rewrite rolled_back in Hrun. inversion Hrun. cbn. auto.
    + unfold raise in Hrun. rewrite rolled_back in Hrun. inversion Hrun. cbn. auto.
  - intros message Hres.
    destruct (delete_data env category data_id w) as [res w'] eqn:Hrun.
    cbn [fst snd] in *. subst res. unfold delete_data in Hrun. unfold bind at 1 in Hrun.
    destruct (get_safe_connection env w) as [[[] | e] w1] eqn:Hconn; [ | discriminate Hrun ].
    apply get_safe_connection_frame in Hconn.
    destruct Hconn as [_ [Hcom [Hcache _]]].
    destruct (dict_lookup tables category) as [table | ] eqn:Ht.
    + unfold try_except in Hrun. unfold bind at 1 in Hrun.
      pose proof (execute_frame env (DeleteFrom table data_id) w1) as [Hcom1 Hcache1].
      destruct (execute env (DeleteFrom table data_id) w1) as [[rows | e] w2]; cbn [snd] in *.
      * unfold bind at 1 in Hrun. unfold commit in Hrun.
        destruct (commit_error env) as [e | ];
             [ | destruct (in_failed_transaction env _); discriminate Hrun ].
        rewrite rolled_back in Hrun. inversion Hrun. cbn. rewrite Hcom1, Hcache1. auto.
      * rewrite rolled_back in Hrun. inversion Hrun. cbn. rewrite Hcom1, Hcache1. auto.
    + inversion Hrun. subst. split; [ exact Hcom | ]. split; [ | exact Hcache ].
      intros Hcat. exfalso.
      destruct (category_listing category Hcat) as [table [listed [Htable _]]]. congruence.
  - intros message Hres.
    destruct (update_data env category data_id updated_fields w) as [res w'] eqn:Hrun.
    cbn [fst snd] in *. subst res. unfold update_data in Hrun. unfold bind at 1 in Hrun.
    destruct (get_safe_connection env w) as [[[] | e] w1] eqn:Hconn; [ | discriminate Hrun ].
    apply get_safe_connection_frame in Hconn.
    destruct Hconn as [_ [Hcom [Hcache _]]].
    destruct (dict_lookup tables category) as [table | ] eqn:Ht.
    + unfold try_except in Hrun. unfold bind at 1 in Hrun.
      pose proof (execute_frame env (UpdateSet table updated_fields data_id) w1)
        as [Hcom1 Hcache1].
      destruct (execute env (UpdateSet table updated_fields data_id) w1) as [[rows | e] w2];
        cbn [snd] in *.
      * unfold bind at 1 in Hrun. unfold commit in Hrun.
        destruct (commit_error env) as [e | ];
             [ | destruct (in_failed_transaction env _); discriminate Hrun ].
        rewrite rolled_back in Hrun. inversion Hrun. cbn. rewrite Hcom1, Hcache1. auto.
      * rewrite rolled_back in Hrun. inversion Hrun. cbn. rewrite Hcom1, Hcache1. auto.
    + inversion Hrun. subst. split; [ exact Hcom | ]. split; [ | exact Hcache ].
      intros Hcat. exfalso.
      destruct (category_listing category Hcat) as [table [listed [Htable _]]]. congruence.
Qed.

(** A QnA row that the store refuses. *)
Lemma failed_write_changes_nothing_witness :
  fst (add_data refusing_writes "tr_001" "QnA" [("question", "q2"); ("answer", "a2")]
         one_row_world)
  = Ok (false, msg_add_failed ++ "read-only transaction") /\
  committed (snd (add_data refusing_writes "tr_001" "QnA"
                    [("question", "q2"); ("answer", "a2")] one_row_world))
  = committed one_row_world.
Proof.
  split; [ reflexivity | ].
  destruct (failed_write_changes_nothing refusing_writes "tr_001" "QnA"
              [("question", "q2"); ("answer", "a2")] 1 [] one_row_world) as [Hadd _].
  destruct (Hadd _ eq_refl) as [H _]. exact H.
Defined.

(** ** When the store cannot be reached *)

(** With no connection yet and a store that cannot be reached, the three
    writes and [get_current_data] do not return: the exception of
    [psycopg2.connect] leaves them, outside their [try], and nothing is
    touched. [get_category_data] alone handles it: it records the error,
    answers with an empty frame and keeps that answer in its cache. *)
Theorem unreachable_store :
  forall (env : environment) (e : exn) (trainer_id category : string)
         (data_dict : list (string * string)) (data_id : Z)
         (updated_fields : list (string * sql_value)) (w : world),
    connected w = false ->
    connect_error env = Some e ->
    add_data env trainer_id category data_dict w = (Raise e, w) /\
    update_data env category data_id updated_fields w = (Raise e, w) /\
    delete_data env category data_id w = (Raise e, w) /\
    get_current_data env trainer_id w = (Raise e, w) /\
    (cache_lookup (data_cache w) trainer_id category = None ->
     exists w' : world,
       get_category_data env trainer_id category w = (Ok empty_frame, w') /\
       ui_errors w' = (ui_errors w ++ [(msg_listing_failed ++ exn_str e)%string])%list /\
       cache_lookup (data_cache w') trainer_id category = Some empty_frame /\
       committed w' = committed w).
Proof.
  intros env e trainer_id category data_dict data_id updated_fields w Hc He.
  assert (Hconn : get_safe_connection env w = (Raise e, w)).
  { unfold get_safe_connection, bind, get_db_connection. rewrite Hc, He. reflexivity. }
  split; [ unfold add_data, bind; rewrite Hconn; reflexivity | ].
  split; [ unfold update_data, bind; rewrite Hconn; reflexivity | ].
  split; [ unfold delete_data, bind; rewrite Hconn; reflexivity | ].
  split; [ unfold get_current_data, bind; rewrite Hconn; reflexivity | ].
  intros Hmiss. rewrite (get_category_data_miss env _ _ _ Hmiss).
  unfold run_and_keep, get_category_data_body, try_except. unfold bind at 1.
  rewrite Hconn. unfold bind, modify, ret.
  eexists. split; [ reflexivity | ].
  unfold cache_lookup.
  cbn [ui_errors set_ui_errors set_data_cache data_cache cache_find committed
       cached_trainer cached_category].
  rewrite !String.eqb_refl. repeat split; reflexivity.
Qed.

(** The first call of a page whose store is down. *)
Lemma unreachable_store_witness :
  fst (delete_data unreachable "QnA" 1 fresh) = Raise (OperationalError "connection refused") /\
  fst (get_category_data unreachable "tr_001" "QnA" fresh) = Ok empty_frame.
Proof.
  destruct (unreachable_store unreachable (OperationalError "connection refused")
              "tr_001" "QnA" [] 1 [] fresh eq_refl eq_refl)
    as [_ [_ [Hdelete [_ Hlist]]]].
  split; [ rewrite Hdelete; reflexivity | ].
  destruct (Hlist eq_refl) as [w' [H _]]. rewrite H. reflexivity.
Defined.

(** * The buttons of [main] *)

(** ** The save button *)

(** A form with a required field left blank is not sent: the store, its
    logs and the caches are as they were, and one error is drawn, which names
    the blank fields in the order of [required_fields]. *)
Theorem save_clicked_blank_field :
  forall (env : environment) (trainer_id category : string)
         (data_dict : list (string * string)) (shown_score : spec_float)
         (shown_tier : string) (p : page) (fields : list string) (field : string),
    dict_lookup required_fields category = Some fields ->
    In field fields ->
    blank data_dict field = true ->
    exists p' : page,
      save_clicked env trainer_id category data_dict shown_score shown_tier p = (Ok tt, p') /\
      store p' = store p /\
      confirmed p' = confirmed p /\
      drawn p'
      = (drawn p
         ++ [StError (msg_missing_fields
                      ++ String.concat ", " (filter (blank data_dict) fields))%string])%list /\
      In field (filter (blank data_dict) fields).
Proof.
  intros env trainer_id category data_dict shown_score shown_tier p fields field
         Hfields Hin Hblank.
  assert (Hmissing : In field (filter (blank data_dict) fields))
    by (apply filter_In; split; assumption).
  unfold save_clicked, pbind, in_store, lift, missing_fields, dict_getitem.
  rewrite Hfields. cbn [rbind fst snd].
  destruct (filter (blank data_dict) fields) as [ | first others ] eqn:E;
    [ destruct Hmissing | ].
  unfold draw. cbn [store drawn confirmed].
  eexists. split; [ reflexivity | ].
  cbn [store drawn confirmed].
  split; [ reflexivity | ]. split; [ reflexivity | ]. split; [ reflexivity | exact Hmissing ].
Qed.

(** A QnA form without its answer. *)
Lemma save_clicked_blank_field_witness :
  exists p' : page,
    save_clicked quiet "tr_001" "QnA" [("question", "q2"); ("answer", "")]
      (b64_of_int 0) Unrated (page_of one_row_world []) = (Ok tt, p') /\
    store p' = one_row_world /\
    drawn p' = [StError (msg_missing_fields ++ "answer")].
Proof.
  destruct (save_clicked_blank_field quiet "tr_001" "QnA"
              [("question", "q2"); ("answer", "")] (b64_of_int 0) Unrated
              (page_of one_row_world []) ["question"; "answer"] "answer"
              eq_refl ltac:(cbn; tauto) eq_refl) as [p' [H [Hs [_ [Hd _]]]]].
  exists p'. split; [ exact H | ]. split; [ exact Hs | ]. rewrite Hd. reflexivity.
Defined.




(** ** The delete button *)

Lemma is_confirmed_spec (id : Z) (p : page) : is_confirmed id p = true <-> In id (confirmed p).
Proof.
  unfold is_confirmed. rewrite existsb_exists. split.
  - intros [x [Hin Heq]]. apply Z.eqb_eq in Heq. subst x. exact Hin.
  - intros Hin. exists id. split; [ exact Hin | apply Z.eqb_refl ].
Qed.



(** ** The header and the gauge *)

Lemma tier_of_result (current_data : list (string * Z)) (r : score_result spec_float) :
  calculate_score current_data = Ok r -> tier r = fst (decide_tier (total_score r)).
Proof.
  unfold calculate_score. destruct (score_loop current_data (of_int 0) []) as [st | e];
    [ | discriminate ].
  cbn [rbind]. intros H. inversion H. reflexivity.
Qed.

(** The next goal that the header names, and the threshold that the gauge
    marks, follow the tier: Bronze at 60 below Bronze, Silver at 75 for
    Bronze, Gold at 85 for Silver, and Gold at 85 still for Gold. Unless the
    tier is Gold the threshold marked is above the total. *)
Theorem next_tier_follows_tier :
  forall (current_data : list (string * Z)) (r : score_result spec_float),
    counts_valid current_data ->
    calculate_score current_data = Ok r ->
    ((tier r = Unrated /\ next_tier (total_score r) = "Bronze (60점)" /\
      gauge_threshold (total_score r) = 60) \/
     (tier r = Bronze /\ next_tier (total_score r) = "Silver (75점)" /\
      gauge_threshold (total_score r) = 75) \/
     (tier r = Silver /\ next_tier (total_score r) = "Gold (85점)" /\
      gauge_threshold (total_score r) = 85) \/
     (tier r = Gold /\ next_tier (total_score r) = "Gold (85점)" /\
      gauge_threshold (total_score r) = 85)) /\
    (tier r = Gold \/
     SFltb (total_score r) (b64_of_int (gauge_threshold (total_score r))) = true).
Proof.
  intros current_data r Hvalid Hr.
  destruct (@calculate_score_bounded spec_float binary64 b64_within b64_within_zero
              b64_within_score b64_within_add b64_within_bounds current_data r Hvalid Hr)
    as [H0 _].
  change (@leb spec_float binary64) with SFleb in H0.
  assert (Hnan : total_score r <> S754_nan).
  { intros E. rewrite E in H0. discriminate H0. }
  rewrite (tier_of_result current_data r Hr).
  unfold next_tier, gauge_threshold, decide_tier.
  change (@ltb spec_float binary64) with SFltb.
  change (@leb spec_float binary64) with SFleb.
  change (@of_int spec_float binary64) with b64_of_int.
  set (total := total_score r) in *.
  assert (H6075 : SFltb (b64_of_int 60) (b64_of_int 75) = true) by (vm_compute; reflexivity).
  assert (H7585 : SFltb (b64_of_int 75) (b64_of_int 85) = true) by (vm_compute; reflexivity).
  destruct (SFltb total (b64_of_int 60)) eqn:E60.
  - pose proof (SFltb_trans _ _ _ E60 H6075) as E75.
    pose proof (SFltb_trans _ _ _ E75 H7585) as E85.
    rewrite (SFltb_not_SFleb _ _ E60), (SFltb_not_SFleb _ _ E75), (SFltb_not_SFleb _ _ E85).
    split; [ left; repeat split; reflexivity | right; exact E60 ].
  - pose proof (SFltb_false_SFleb _ _ Hnan (b64_of_int_not_nan 60) E60) as L60.
    destruct (SFltb total (b64_of_int 75)) eqn:E75.
    + pose proof (SFltb_trans _ _ _ E75 H7585) as E85.
      rewrite (SFltb_not_SFleb _ _ E75), (SFltb_not_SFleb _ _ E85), L60.
      split; [ right; left; repeat split; reflexivity | right; exact E75 ].
    + pose proof (SFltb_false_SFleb _ _ Hnan (b64_of_int_not_nan 75) E75) as L75.
      rewrite L75. destruct (SFleb (b64_of_int 85) total) eqn:L85.
      * split; [ right; right; right; repeat split; reflexivity | left; reflexivity ].
      * split; [ right; right; left; repeat split; reflexivity | right ].
        destruct (SFltb total (b64_of_int 85)) eqn:E85; [ reflexivity | ].
        pose proof (SFltb_false_SFleb _ _ Hnan (b64_of_int_not_nan 85) E85). congruence.
Qed.

(** The header of a page with 30 QnA rows and nothing else. *)
Lemma next_tier_follows_tier_witness :
  exists r : score_result spec_float,
    calculate_score (counts_dict [30; 0; 0; 0; 0; 0; 0; 0; 0]) = Ok r /\
    (tier r = Gold \/
     SFltb (total_score r) (b64_of_int (gauge_threshold (total_score r))) = true).
Proof.
  assert (Hok : counts_ok (counts_dict [30; 0; 0; 0; 0; 0; 0; 0; 0])).
  { apply counts_dict_ok.
    repeat (constructor; [ split; [ lia | reflexivity ] | ]). constructor. }
  destruct (calculate_score_ok spec_float binary64 _
              (counts_valid_keys _ (counts_ok_valid _ Hok)) (b64_quotients_fit _ Hok))
    as [r [Hr _]].
  exists r. split; [ exact Hr | ].
  exact (proj2 (next_tier_follows_tier _ r (counts_ok_valid _ Hok) Hr)).
Defined.

(** * [get_db_config] *)

(** The secrets are all or nothing. With a section [database] that holds
    the five keys the configuration is read from it and the environment is
    not looked at. In every other case (no secrets file, no such section, or
    a section that lacks but one of the five keys) the configuration is the
    one of the environment, variable by variable, and nothing is raised. *)
Theorem get_db_config_all_or_nothing :
  forall (st_secrets : secrets) (getenv : string -> option string),
    (forall (sections : list (string * list (string * string)))
            (database : list (string * string)) (host port name user password : string),
        st_secrets = Ok sections ->
        dict_lookup sections "database" = Some database ->
        dict_lookup database "DB_HOST" = Some host ->
        dict_lookup database "DB_PORT" = Some port ->
        dict_lookup database "DB_NAME" = Some name ->
        dict_lookup database "DB_USER" = Some user ->
        dict_lookup database "DB_PASSWORD" = Some password ->
        get_db_config st_secrets getenv
        = [ ("host", Some host); ("port", Some port); ("database", Some name);
            ("user", Some user); ("password", Some password) ]) /\
    ((forall sections database,
         st_secrets = Ok sections ->
         dict_lookup sections "database" = Some database ->
         exists key : string,
           In key ["DB_HOST"; "DB_PORT"; "DB_NAME"; "DB_USER"; "DB_PASSWORD"] /\
           dict_lookup database key = None) ->
     get_db_config st_secrets getenv
     = [ ("host", getenv "DB_HOST"); ("port", getenv "DB_PORT");
         ("database", getenv "DB_NAME"); ("user", getenv "DB_USER");
         ("password", getenv "DB_PASSWORD") ]).
Proof.
  intros st_secrets getenv. split.
  - intros sections database host port name user password Hs Hd Hh Hp Hn Hu Hw.
    unfold get_db_config, config_of_secrets, dict_contains, dict_getitem.
    rewrite Hs. cbn [rbind]. rewrite Hd. cbn [rbind]. rewrite Hh, Hp, Hn, Hu, Hw. reflexivity.
  - intros Hpartial.
    unfold get_db_config, config_of_secrets, dict_contains, dict_getitem.
    destruct st_secrets as [sections | e]; [ | reflexivity ]. cbn [rbind].
    destruct (dict_lookup sections "database") as [database | ] eqn:Hd; [ | reflexivity ].
    cbn [rbind].
    destruct (Hpartial sections database eq_refl Hd) as [key [Hkey Hnone]].
    destruct (dict_lookup database "DB_HOST") eqn:Hh; [ | reflexivity ]. cbn [rbind].
    destruct (dict_lookup database "DB_PORT") eqn:Hp; [ | reflexivity ]. cbn [rbind].
    destruct (dict_lookup database "DB_NAME") eqn:Hn; [ | reflexivity ]. cbn [rbind].
    destruct (dict_lookup database "DB_USER") eqn:Hu; [ | reflexivity ]. cbn [rbind].
    destruct (dict_lookup database "DB_PASSWORD") eqn:Hw; [ | reflexivity ].
    exfalso. cbn [In] in Hkey.
    repeat (destruct Hkey as [Hkey | Hkey]; [ subst key; congruence | ]). exact Hkey.
Qed.

(** Secrets that lack the password: the host of the environment is used, not
    the host of the secrets. *)
Lemma get_db_config_all_or_nothing_witness :
  get_db_config
    (Ok [("database", [("DB_HOST", "db.example.com"); ("DB_PORT", "5432");
                       ("DB_NAME", "trainer"); ("DB_USER", "app")])])
    (fun name => if String.eqb name "DB_HOST" then Some "localhost" else None)
  = [ ("host", Some "localhost"); ("port", None); ("database", None); ("user", None);
      ("password", None) ].
Proof.
  apply (proj2 (get_db_config_all_or_nothing
                  (Ok [("database", [("DB_HOST", "db.example.com"); ("DB_PORT", "5432");
                                     ("DB_NAME", "trainer"); ("DB_USER", "app")])])
                  (fun name => if String.eqb name "DB_HOST" then Some "localhost" else None))).
  intros sections database Hs Hd. inversion Hs. subst sections.
  cbn in Hd. inversion Hd. subst database.
  exists "DB_PASSWORD". split; [ cbn [In]; tauto | reflexivity ].
Defined.

(** * Keywords *)

(** ** [str.split] and [str.join] *)








(** ** [str.strip] *)

Section StripFront.

Variable w1 : ascii -> bool.
Variable w2 : ascii -> ascii -> bool.
Variable w3 : ascii -> ascii -> ascii -> bool.





End StripFront.






(** ** The keywords of a feedback row *)




(** ** A stored row, as the listing shows it *)







(** * The details of [calculate_score] *)

Lemma score_loop_details (F : Type) (A : Arith F) (items : list (string * Z)) :
  forall (total total' : F) (rows rows' : list (detail F)),
    score_loop items total rows = Ok (total', rows') ->
    exists new : list (detail F),
      rows' = (rows ++ new)%list /\
      map (fun d => (d_category d, d_current d)) new = items /\
      Forall (fun d =>
                dict_lookup target (d_category d) = Some (d_target d) /\
                dict_lookup weights (d_category d) = Some (d_weight d) /\
                achievement (d_current d) (d_target d) = Ok (d_achievement d) /\
                d_score d = mul (d_achievement d) (d_weight d)) new /\
      total' = fold_left (fun t d => add t (d_score d)) new total.
Proof.
  induction items as [ | [category current_count] rest IH ]; intros total total' rows rows' Hloop.
  - cbn [score_loop] in Hloop. inversion Hloop. subst total' rows'.
    exists []. rewrite app_nil_r. repeat split; constructor.
  - rewrite score_loop_step in Hloop.
    destruct (dict_lookup target category) as [t | ] eqn:Et; [ | discriminate ].
    destruct (dict_lookup weights category) as [wt | ] eqn:Ew; [ | discriminate ].
    destruct (t =? 0) eqn:E0; [ discriminate | ].
    destruct (too_large (truediv current_count t)) eqn:El; [ discriminate | ].
    cbv zeta in Hloop. apply IH in Hloop.
    destruct Hloop as [new [Hrows [Hkeys [Hall Htotal]]]].
    eexists (_ :: new). rewrite <- app_assoc in Hrows. cbn [app] in Hrows.
    split; [ exact Hrows | ].
    split; [ cbn [map d_category d_current]; rewrite Hkeys; reflexivity | ].
    split; [ | exact Htotal ].
    constructor; [ | exact Hall ].
    cbn [d_category d_current d_target d_weight d_achievement d_score].
    split; [ exact Et | ]. split; [ exact Ew | ]. split; [ | reflexivity ].
    unfold achievement, py_truediv. rewrite E0, El. reflexivity.
Qed.

(** The details account for the total. Whatever dict of counts
    [calculate_score] scores, with all nine categories or fewer, in any
    order, its details hold one row for each key of the dict, in the order of
    the dict, with the count of the dict; the target and the weight of a row
    are those of the fixed tables, its achievement is the capped percentage
    of count over target and its score is achievement times weight. The total
    is the sum of the scores of the rows, added one by one from 0 in that
    order, and the targets returned are the fixed table. *)
Theorem calculate_score_details_account_for_total :
  forall (F : Type) (A : Arith F) (current_data : list (string * Z)) (r : score_result F),
    calculate_score current_data = Ok r ->
    map (fun d => (d_category d, d_current d)) (details r) = current_data /\
    Forall (fun d =>
              dict_lookup target (d_category d) = Some (d_target d) /\
              dict_lookup weights (d_category d) = Some (d_weight d) /\
              achievement (d_current d) (d_target d) = Ok (d_achievement d) /\
              d_score d = mul (d_achievement d) (d_weight d)) (details r) /\
    total_score r = fold_left (fun total d => add total (d_score d)) (details r) (of_int 0) /\
    target_table r = target.
Proof.
  intros F A current_data r Hscore. unfold calculate_score in Hscore.
  destruct (score_loop current_data (of_int 0) []) as [[total rows] | e] eqn:Hloop;
    [ | discriminate ].
  cbn [rbind fst snd] in Hscore. inversion Hscore. subst r. clear Hscore.
  cbn [details total_score target_table].
  apply score_loop_details in Hloop. destruct Hloop as [new [Hrows [Hkeys [Hall Htotal]]]].
  cbn [app] in Hrows. subst rows.
  split; [ exact Hkeys | ]. split; [ exact Hall | ]. split; [ exact Htotal | reflexivity ].
Qed.

(** A dict of two categories, the later one of the table first: two rows, in
    the order of the dict. *)
Lemma calculate_score_details_account_for_total_witness :
  exists r : score_result spec_float,
    calculate_score [("피드백", 5); ("QnA", 30)] = Ok r /\
    map (fun d => (d_category d, d_current d)) (details r) = [("피드백", 5); ("QnA", 30)] /\
    total_score r
    = fold_left (fun total d => add total (d_score d)) (details r) (of_int 0).
Proof.
  destruct (@calculate_score spec_float binary64 [("피드백", 5); ("QnA", 30)])
    as [r | e] eqn:Hscore; [ | vm_compute in Hscore; discriminate Hscore ].
  exists r. split; [ reflexivity | ].
  destruct (calculate_score_details_account_for_total spec_float binary64 _ r Hscore)
    as [Hkeys [_ [Htotal _]]].
  split; [ exact Hkeys | exact Htotal ].
Defined.

(** * No write is left pending *)

Section Settled.

Variable env : environment.

Lemma keeps_settled_ret {X : Type} (x : X) : keeps_settled (ret x).
Proof. intros w H. exact H. Qed.

Lemma keeps_settled_bind {X Y : Type} (m : M X) (k : X -> M Y) :
  keeps_settled m -> (forall x, keeps_settled (k x)) -> keeps_settled (bind m k).
Proof.
  intros Hm Hk w H. unfold bind. specialize (Hm w H).
  destruct (m w) as [[x | e] w1]; cbn [snd] in *; [ apply Hk, Hm | exact Hm ].
Qed.

Lemma keeps_settled_try_except {X : Type} (body : M X) (handler : exn -> M X) :
  keeps_settled body -> (forall e, keeps_settled (handler e)) ->
  keeps_settled (try_except body handler).
Proof.
  intros Hb Hh w H. unfold try_except. specialize (Hb w H).
  destruct (body w) as [[x | e] w1]; cbn [snd] in *; [ exact Hb | apply Hh, Hb ].
Qed.

Lemma keeps_settled_get_db_connection : keeps_settled (get_db_connection env).
Proof.
  intros w H. unfold get_db_connection.
  destruct (connected w); [ exact H | ].
  destruct (connect_error env); [ exact H | ].
  intros table. reflexivity.
Qed.

Lemma keeps_settled_select (q : statement) :
  is_write q = false -> keeps_settled (execute env q).
Proof.
  intros Hq w H. unfold execute.
  destruct (execute_error env q); [ exact H | ].
  destruct (in_failed_transaction env w); [ exact H | ].
  destruct q; try discriminate Hq; exact H.
Qed.

Lemma keeps_settled_get_safe_connection : keeps_settled (get_safe_connection env).
Proof.
  unfold get_safe_connection.
  apply keeps_settled_bind; [ apply keeps_settled_get_db_connection | intros _ ].
  apply keeps_settled_try_except.
  - apply keeps_settled_bind; [ apply keeps_settled_select; reflexivity | intros _ ].
    apply keeps_settled_ret.
  - intros e.
    assert (Hagain : keeps_settled
                       (bind (modify (set_connected false))
                          (fun _ => get_db_connection env))).
    { apply keeps_settled_bind; [ intros w H; exact H | intros _ ].
      apply keeps_settled_get_db_connection. }
    destruct e; try (intros w H; exact H); exact Hagain.
Qed.

Lemma keeps_settled_count_loop (trainer_id : string) (items : list (string * string))
  (data : list (string * Z)) :
  keeps_settled (count_loop env trainer_id items data).
Proof.
  intros w H. rewrite count_loop_counts. exact H.
Qed.

Lemma returns_settled_after {X Y : Type} (m : M X) (k : X -> M Y) :
  (forall x, returns_settled (k x)) -> returns_settled (bind m k).
Proof.
  intros Hk w w' y Hrun. unfold bind in Hrun.
  destruct (m w) as [[x | e] w1]; [ exact (Hk x w1 w' y Hrun) | discriminate Hrun ].
Qed.

Lemma returns_settled_commit {Y : Type} (k : unit -> M Y) :
  (forall x, keeps_settled (k x)) -> returns_settled (bind (commit env) k).
Proof.
  intros Hk w w' y Hrun. unfold bind, commit in Hrun.
  destruct (commit_error env); [ discriminate Hrun | ].
  destruct (in_failed_transaction env w).
  - pose proof (Hk tt (set_aborted_by None (set_session (committed w) w))
                  ltac:(intros table; reflexivity)) as H.
    rewrite Hrun in H. exact H.
  - pose proof (Hk tt (set_committed (session w) w) ltac:(intros table; reflexivity)) as H.
    rewrite Hrun in H. exact H.
Qed.

Lemma returns_settled_raise {X : Type} (e : exn) : returns_settled (@raise X e).
Proof. intros w w' x H. discriminate H. Qed.

Lemma settled_try_rollback {X : Type} (body : M X) (failed : exn -> X) (w : world) :
  returns_settled body ->
  settled (snd (try_except body (fun e => bind rollback (fun _ => ret (failed e))) w)).
Proof.
  intros Hbody. unfold try_except.
  destruct (body w) as [[x | e] w1] eqn:Hrun; cbn [snd].
  - exact (Hbody w w1 x Hrun).
  - intros table. reflexivity.
Qed.

Lemma keeps_settled_requests_post (rq : http_request) : keeps_settled (requests_post env rq).
Proof.
  intros w H. unfold requests_post. destruct (post env rq); exact H.
Qed.

Lemma returns_settled_after_insert (trainer_id category : string) :
  returns_settled (after_insert env trainer_id category).
Proof.
  unfold after_insert, add_data_finish.
  destruct (String.eqb category "톤/말투"); apply returns_settled_commit; intros _.
  - apply keeps_settled_try_except.
    + apply keeps_settled_bind; [ apply keeps_settled_requests_post | intros response ].
      destruct (fst response =? 200); apply keeps_settled_ret.
    + intros e. apply keeps_settled_ret.
  - apply keeps_settled_ret.
Qed.

Lemma add_data_settled (trainer_id category : string) (data_dict : list (string * string)) :
  keeps_settled (add_data env trainer_id category data_dict).
Proof.
  intros w H. rewrite add_data_insert_of. unfold bind at 1.
  pose proof (keeps_settled_get_safe_connection w H) as Hconn.
  destruct (get_safe_connection env w) as [[[] | e] w1]; cbn [snd] in *; [ | exact Hconn ].
  apply settled_try_rollback.
  destruct (insert_of trainer_id category data_dict) as [[q | ] | e].
  - apply returns_settled_after. intros _. apply returns_settled_after_insert.
  - unfold add_data_finish. apply returns_settled_commit. intros _. apply keeps_settled_ret.
  - apply returns_settled_raise.
Qed.

Lemma delete_data_settled (category : string) (data_id : Z) :
  keeps_settled (delete_data env category data_id).
Proof.
  intros w H. unfold delete_data. unfold bind at 1.
  pose proof (keeps_settled_get_safe_connection w H) as Hconn.
  destruct (get_safe_connection env w) as [[[] | e] w1]; cbn [snd] in *; [ | exact Hconn ].
  destruct (dict_lookup tables category) as [table | ]; [ | exact Hconn ].
  apply settled_try_rollback.
  apply returns_settled_after. intros _. apply returns_settled_commit. intros _.
  apply keeps_settled_bind; [ intros w' H'; exact H' | intros _; apply keeps_settled_ret ].
Qed.

Lemma update_data_settled (category : string) (data_id : Z)
  (updated_fields : list (string * sql_value)) :
  keeps_settled (update_data env category data_id updated_fields).
Proof.
  intros w H. unfold update_data. unfold bind at 1.
  pose proof (keeps_settled_get_safe_connection w H) as Hconn.
  destruct (get_safe_connection env w) as [[[] | e] w1]; cbn [snd] in *; [ | exact Hconn ].
  destruct (dict_lookup tables category) as [table | ]; [ | exact Hconn ].
  apply settled_try_rollback.
  apply returns_settled_after. intros _. apply returns_settled_commit. intros _.
  apply keeps_settled_bind; [ intros w' H'; exact H' | intros _; apply keeps_settled_ret ].
Qed.

Lemma get_current_data_settled (trainer_id : string) :
  keeps_settled (get_current_data env trainer_id).
Proof.
  unfold get_current_data.
  apply keeps_settled_bind; [ apply keeps_settled_get_safe_connection | intros _ ].
  apply keeps_settled_count_loop.
Qed.

Lemma get_category_data_body_settled (trainer_id category : string) :
  keeps_settled (get_category_data_body env trainer_id category).
Proof.
  unfold get_category_data_body. apply keeps_settled_try_except.
  - apply keeps_settled_bind; [ apply keeps_settled_get_safe_connection | intros _ ].
    destruct (dict_lookup listing_tables category) as [[table_name columns] | ];
      [ | apply keeps_settled_ret ].
    apply keeps_settled_bind; [ apply keeps_settled_select; reflexivity | intros fetched ].
    apply keeps_settled_ret.
  - intros e. apply keeps_settled_bind; [ intros w' H'; exact H' | intros _ ].
    apply keeps_settled_ret.
Qed.

Lemma run_and_keep_settled (trainer_id category : string) :
  keeps_settled (run_and_keep env trainer_id category).
Proof.
  intros w H. unfold run_and_keep.
  pose proof (get_category_data_body_settled trainer_id category w H) as Hbody.
  destruct (get_category_data_body env trainer_id category w) as [[df | e] w0]; exact Hbody.
Qed.

Lemma get_category_data_settled (trainer_id category : string) :
  keeps_settled (get_category_data env trainer_id category).
Proof.
  intros w H. unfold get_category_data.
  destruct (cache_find (data_cache w) trainer_id category) as [answer | ];
    [ destruct (fresh_answer w answer); [ exact H | ] | ];
    apply run_and_keep_settled; exact H.
Qed.

End Settled.

(** No function of the module leaves a write pending. From a store in which
    every table reads the same in the session as in the committed store, each
    of the three writes and of the two reads ends in such a store, whatever
    the store and the backend do and whether the call returns or raises: a
    write is committed, or it is rolled back. A write that returns does so
    from any store. So the rows a page reads after a call are rows that are
    committed, and a connection that is replaced loses nothing. *)
Theorem no_write_is_left_pending :
  forall (env : environment) (trainer_id category : string)
         (data_dict : list (string * string)) (data_id : Z)
         (updated_fields : list (string * sql_value)) (w : world),
    (settled w ->
     settled (snd (add_data env trainer_id category data_dict w)) /\
     settled (snd (delete_data env category data_id w)) /\
     settled (snd (update_data env category data_id updated_fields w)) /\
     settled (snd (get_current_data env trainer_id w)) /\
     settled (snd (get_category_data env trainer_id category w)) /\
     settled (snd (get_safe_connection env w))) /\
    (forall (outcome : bool * string) (w' : world),
        add_data env trainer_id category data_dict w = (Ok outcome, w') -> settled w').
Proof.
  intros env trainer_id category data_dict data_id updated_fields w. split.
  - intros H.
    split; [ apply add_data_settled, H | ].
    split; [ apply delete_data_settled, H | ].
    split; [ apply update_data_settled, H | ].
    split; [ apply get_current_data_settled, H | ].
    split; [ apply get_category_data_settled, H | ].
    apply keeps_settled_get_safe_connection, H.
  - intros outcome w' Hrun. rewrite add_data_insert_of in Hrun. unfold bind at 1 in Hrun.
    destruct (get_safe_connection env w) as [[[] | e] w1]; [ | discriminate Hrun ].
    pose proof (settled_try_rollback
                  match insert_of trainer_id category data_dict with
                  | Ok (Some q) =>
                      bind (execute env q) (fun _ => after_insert env trainer_id category)
                  | Ok None => add_data_finish env
                  | Raise e => raise e
                  end
                  (fun e => (false, (msg_add_failed ++ exn_str e)%string)) w1) as Hs.
    cbv beta in Hs. rewrite Hrun in Hs. apply Hs.
    destruct (insert_of trainer_id category data_dict) as [[q | ] | e].
    + apply returns_settled_after. intros _. apply returns_settled_after_insert.
    + unfold add_data_finish. apply returns_settled_commit. intros _. apply keeps_settled_ret.
    + apply returns_settled_raise.
Qed.

(** A write the store refuses, and one it takes: both end settled. *)
Lemma no_write_is_left_pending_witness :
  settled (snd (add_data refusing_writes "tr_001" "QnA" [("question", "q2"); ("answer", "a2")]
                  one_row_world)) /\
  settled (snd (delete_data quiet "QnA" 1 one_row_world)).
Proof.
  assert (H : settled one_row_world) by (intros table; reflexivity).
  split.
  - exact (proj1 (proj1 (no_write_is_left_pending refusing_writes "tr_001" "QnA"
                           [("question", "q2"); ("answer", "a2")] 1 [] one_row_world) H)).
  - exact (proj1 (proj2 (proj1 (no_write_is_left_pending quiet "tr_001" "QnA" [] 1 []
                                  one_row_world) H))).
Defined.

(** * A connection that was dropped *)

(** [get_safe_connection] replaces a dead connection and nothing else. When
    the probe of the kept connection raises [OperationalError] or
    [InterfaceError], a new connection is made: if that succeeds the caller
    gets a connection whose session starts from the committed rows, and if it
    fails the caller gets the exception of the connect. When the probe raises
    anything else, that exception goes to the caller, and through it out of
    the three writes and of [get_current_data], none of which catches it;
    [get_category_data] answers with an empty frame. *)
Theorem get_safe_connection_replaces_a_dead_connection :
  forall (env : environment) (e : exn) (w : world),
    connected w = true ->
    execute_error env SelectOne = Some e ->
    ((exists m : string, e = OperationalError m \/ e = InterfaceError m) ->
     (connect_error env = None ->
      exists w' : world,
        get_safe_connection env w = (Ok tt, w') /\
        connected w' = true /\
        session w' = committed w /\ committed w' = committed w /\
        data_cache w' = data_cache w) /\
     (forall e' : exn,
         connect_error env = Some e' ->
         exists w' : world,
           get_safe_connection env w = (Raise e', w') /\
           connected w' = false /\ committed w' = committed w)) /\
    ((forall m : string, e <> OperationalError m /\ e <> InterfaceError m) ->
     forall (trainer_id category : string) (data_dict : list (string * string))
            (data_id : Z) (updated_fields : list (string * sql_value)),
       fst (get_safe_connection env w) = Raise e /\
       fst (add_data env trainer_id category data_dict w) = Raise e /\
       fst (delete_data env category data_id w) = Raise e /\
       fst (update_data env category data_id updated_fields w) = Raise e /\
       fst (get_current_data env trainer_id w) = Raise e /\
       (cache_lookup (data_cache w) trainer_id category = None ->
        fst (get_category_data env trainer_id category w) = Ok empty_frame)).
Proof.
  intros env e w Hc He.
  assert (Hprobe : get_safe_connection env w
                   = match e with
                     | OperationalError _ | InterfaceError _ =>
                         bind (modify (set_connected false)) (fun _ => get_db_connection env)
                           (set_aborted_by (Some SelectOne)
                              (set_sql_log (sql_log w ++ [SelectOne]) w))
                     | _ => (Raise e,
                             set_aborted_by (Some SelectOne)
                               (set_sql_log (sql_log w ++ [SelectOne]) w))
                     end).
  { unfold get_safe_connection. unfold bind at 1. unfold get_db_connection at 1. rewrite Hc.
    unfold try_except. unfold bind at 1. unfold execute. rewrite He.
    destruct e; reflexivity. }
  split.
  - intros [m Hm].
    assert (Hagain : get_safe_connection env w
                     = bind (modify (set_connected false)) (fun _ => get_db_connection env)
                         (set_aborted_by (Some SelectOne)
                            (set_sql_log (sql_log w ++ [SelectOne]) w)))
      by (rewrite Hprobe; destruct Hm; subst e; reflexivity).
    rewrite Hagain. unfold bind, modify, get_db_connection. cbn [connected set_connected].
    split.
    + intros Hconnect. rewrite Hconnect. eexists. split; [ reflexivity | ].
      repeat split; reflexivity.
    + intros e' Hconnect. rewrite Hconnect. eexists. split; [ reflexivity | ].
      split; reflexivity.
  - intros Hother trainer_id category data_dict data_id updated_fields.
    assert (Hraise : get_safe_connection env w
                     = (Raise e,
                        set_aborted_by (Some SelectOne)
                          (set_sql_log (sql_log w ++ [SelectOne]) w))).
    { rewrite Hprobe. destruct e; try reflexivity.
      - exfalso. exact (proj1 (Hother msg) eq_refl).
      - exfalso. exact (proj2 (Hother msg) eq_refl). }
    split; [ rewrite Hraise; reflexivity | ].
    split; [ rewrite add_data_insert_of; unfold bind at 1; rewrite Hraise; reflexivity | ].
    split; [ unfold delete_data; unfold bind at 1; rewrite Hraise; reflexivity | ].
    split; [ unfold update_data; unfold bind at 1; rewrite Hraise; reflexivity | ].
    split; [ unfold get_current_data; unfold bind at 1; rewrite Hraise; reflexivity | ].
    intros Hmiss. rewrite (get_category_data_miss env _ _ _ Hmiss).
    unfold run_and_keep, get_category_data_body, try_except. unfold bind at 1.
    rewrite Hraise. reflexivity.
Qed.

(** A QnA row is stored over a connection that was dropped. *)
Lemma get_safe_connection_replaces_a_dead_connection_witness :
  (exists w' : world,
      get_safe_connection dropped_connection one_row_world = (Ok tt, w') /\
      connected w' = true /\ session w' = committed one_row_world) /\
  fst (add_data dropped_connection "tr_001" "QnA" [("question", "q2"); ("answer", "a2")]
         one_row_world)
  = Ok (true, msg_added).
Proof.
  split; [ | reflexivity ].
  destruct (get_safe_connection_replaces_a_dead_connection dropped_connection
              (OperationalError "server closed the connection") one_row_world
              eq_refl eq_refl) as [Hdead _].
  destruct (Hdead (ex_intro _ "server closed the connection" (or_introl eq_refl)))
    as [Hnew _].
  destruct (Hnew eq_refl) as [w' [Hrun [Hc [Hs _]]]].
  exists w'. split; [ exact Hrun | ]. split; [ exact Hc | exact Hs ].
Defined.

(** * The state of the transaction *)

Section Refusals.

Variable env : environment.

Lemma keeps_refusal_ret {X : Type} (x : X) : keeps_refusal env (ret x).
Proof. intros w H. exact H. Qed.

Lemma keeps_refusal_raise {X : Type} (e : exn) : keeps_refusal env (raise (X := X) e).
Proof. intros w H. exact H. Qed.

Lemma keeps_refusal_lift {X : Type} (r : result X) : keeps_refusal env (lift r).
Proof. intros w H. exact H. Qed.

Lemma keeps_refusal_bind {X Y : Type} (m : M X) (k : X -> M Y) :
  keeps_refusal env m -> (forall x, keeps_refusal env (k x)) -> keeps_refusal env (bind m k).
Proof.
  intros Hm Hk w H. unfold bind. specialize (Hm w H).
  destruct (m w) as [[x | e] w1]; cbn [snd] in *; [ apply Hk, Hm | exact Hm ].
Qed.

Lemma keeps_refusal_try_except {X : Type} (body : M X) (handler : exn -> M X) :
  keeps_refusal env body -> (forall e, keeps_refusal env (handler e)) ->
  keeps_refusal env (try_except body handler).
Proof.
  intros Hb Hh w H. unfold try_except. specialize (Hb w H).
  destruct (body w) as [[x | e] w1]; cbn [snd] in *; [ exact Hb | apply Hh, Hb ].
Qed.

Lemma keeps_refusal_execute (q : statement) : keeps_refusal env (execute env q).
Proof.
  intros w H. unfold execute.
  destruct (execute_error env q) as [e | ] eqn:E.
  - intros q' Hq'. cbn in Hq'. inversion Hq'. subst q'. rewrite E. discriminate.
  - destruct (in_failed_transaction env w); [ exact H | ].
    destruct q as [ | | | table columns values | table assignments id | ];
      cbn [apply_statement]; try exact H.
    + destruct (Nat.eqb _ _); exact H.
    + destruct assignments; exact H.
Qed.

Lemma keeps_refusal_commit : keeps_refusal env (commit env).
Proof.
  intros w H. unfold commit. destruct (commit_error env); [ exact H | ].
  destruct (in_failed_transaction env w); [ intros q Hq; discriminate Hq | exact H ].
Qed.

Lemma keeps_refusal_rollback : keeps_refusal env rollback.
Proof. intros w H q Hq. discriminate Hq. Qed.

Lemma keeps_refusal_cache_data_clear : keeps_refusal env cache_data_clear.
Proof. intros w H. exact H. Qed.

Lemma keeps_refusal_requests_post (rq : http_request) :
  keeps_refusal env (requests_post env rq).
Proof. intros w H. unfold requests_post. destruct (post env rq); exact H. Qed.

Lemma keeps_refusal_get_db_connection : keeps_refusal env (get_db_connection env).
Proof.
  intros w H. unfold get_db_connection. destruct (connected w); [ exact H | ].
  destruct (connect_error env); [ exact H | ]. intros q Hq. discriminate Hq.
Qed.

Lemma keeps_refusal_get_safe_connection : keeps_refusal env (get_safe_connection env).
Proof.
  unfold get_safe_connection.
  apply keeps_refusal_bind; [ apply keeps_refusal_get_db_connection | intros _ ].
  apply keeps_refusal_try_except.
  - apply keeps_refusal_bind; [ apply keeps_refusal_execute | intros _ ].
    apply keeps_refusal_ret.
  - intros e. destruct e; try apply keeps_refusal_raise;
      (apply keeps_refusal_bind;
       [ intros w H; exact H | intros _; apply keeps_refusal_get_db_connection ]).
Qed.

Lemma keeps_refusal_count_loop (trainer_id : string) (items : list (string * string)) :
  forall data : list (string * Z), keeps_refusal env (count_loop env trainer_id items data).
Proof.
  induction items as [ | [name table] items IH ]; intros data; cbn [count_loop].
  - apply keeps_refusal_ret.
  - apply keeps_refusal_bind; [ | intros count; apply IH ].
    apply keeps_refusal_try_except; [ | intros _; apply keeps_refusal_ret ].
    apply keeps_refusal_bind; [ apply keeps_refusal_execute | intros fetched ].
    repeat match goal with
           | |- keeps_refusal _ (match ?c with _ => _ end) => destruct c
           end;
      first [ apply keeps_refusal_ret | apply keeps_refusal_raise ].
Qed.

Ltac keeps_refusal_step :=
  first
    [ apply keeps_refusal_ret
    | apply keeps_refusal_raise
    | apply keeps_refusal_lift
    | apply keeps_refusal_execute
    | apply keeps_refusal_commit
    | apply keeps_refusal_rollback
    | apply keeps_refusal_cache_data_clear
    | apply keeps_refusal_requests_post
    | apply keeps_refusal_get_safe_connection
    | apply keeps_refusal_count_loop
    | apply keeps_refusal_bind; [ | intros ? ]
    | apply keeps_refusal_try_except; [ | intros ? ]
    | match goal with
      | |- keeps_refusal _ (if ?c then _ else _) => destruct c
      | |- keeps_refusal _ (match ?c with _ => _ end) => destruct c
      end ].

(** The statement [aborted_by] names is one the store refuses, before and
    after every function of the module: on the worlds the program reaches,
    the transaction is in the failed state exactly when [aborted_by] names a
    statement. *)
Lemma aborted_by_names_a_refusal (trainer_id category : string)
  (data_dict : list (string * string)) (data_id : Z)
  (updated_fields : list (string * sql_value)) (w : world) :
  names_a_refusal env w ->
  (in_failed_transaction env w = true <-> aborted_by w <> None) /\
  names_a_refusal env (snd (add_data env trainer_id category data_dict w)) /\
  names_a_refusal env (snd (delete_data env category data_id w)) /\
  names_a_refusal env (snd (update_data env category data_id updated_fields w)) /\
  names_a_refusal env (snd (get_current_data env trainer_id w)) /\
  names_a_refusal env (snd (get_category_data env trainer_id category w)).
Proof.
  intros H. split; [ | split; [ | split; [ | split; [ | split ] ] ] ].
  - unfold in_failed_transaction. destruct (aborted_by w) as [q | ] eqn:E.
    + specialize (H q E). destruct (execute_error env q); [ | tauto ].
      split; [ discriminate | reflexivity ].
    + split; [ discriminate | tauto ].
  - revert w H.
    change (keeps_refusal env (add_data env trainer_id category data_dict)).
    unfold add_data, add_data_finish, field. repeat keeps_refusal_step.
  - revert w H. change (keeps_refusal env (delete_data env category data_id)).
    unfold delete_data. repeat keeps_refusal_step.
  - revert w H.
    change (keeps_refusal env (update_data env category data_id updated_fields)).
    unfold update_data. repeat keeps_refusal_step.
  - revert w H. change (keeps_refusal env (get_current_data env trainer_id)).
    unfold get_current_data. repeat keeps_refusal_step.
  - unfold get_category_data.
    assert (Hrun : names_a_refusal env (snd (run_and_keep env trainer_id category w))).
    { unfold run_and_keep.
      assert (Hbody : keeps_refusal env (get_category_data_body env trainer_id category)).
      { unfold get_category_data_body. repeat keeps_refusal_step;
          try (intros w' H'; exact H'). }
      specialize (Hbody w H).
      destruct (get_category_data_body env trainer_id category w) as [[df | e] w0];
        exact Hbody. }
    destruct (cache_find (data_cache w) trainer_id category) as [answer | ];
      [ destruct (fresh_answer w answer); [ exact H | exact Hrun ] | exact Hrun ].
Qed.

End Refusals.
